(** * ReinforceUI-Studio: training orchestration and off-policy agents

    A shallow embedding of [RL_loops/training_policy_loop.py],
    [RL_algorithms/DQN/DQN.py], [RL_algorithms/DDPG/DDPG.py],
    [RL_algorithms/SAC/SAC.py] and [GUI/ui_utils.py] (class
    [TrainingThread]), and the properties of the specification that are
    settled on it.

    Conventions.
    - Python [int] is [Z]; [%] on [int] is [Z.modulo] (both take the sign
      of the divisor) with the [ZeroDivisionError] of a zero divisor
      written out.
    - Python and torch floating-point numbers are idealised as exact
      rationals ([Q], compared with [==]); rounding, infinities and NaN
      are outside the model.  The one exception is the progress value,
      which the code turns into an integer: there the rounding of the
      binary format is modelled.
    - [load_state_dict] is idealised as an assignment: a state dict that
      is read is taken to fit the network it is loaded into.
    - A network's [parameters()] / [state_dict()] is the flattened list of
      its scalars, in iteration order.
    - Objects mutated in place are records threaded through the
      operations; an operation that can raise returns the mutated object
      together with the exception. *)

From stdpp Require Import gmap strings list.
From Stdlib Require Import ZArith QArith Qminmax Qround Qpower Lia Lqa Sorted.
Import ListNotations.
Open Scope Z_scope.

(** ** Exceptions raised by the modelled code *)

Inductive exn : Type :=
| ZeroDivisionError
| FileNotFoundError
| ValueError (msg : string)
| ModuleNotFoundError (name : string)
| AttributeError (name : string).

(** ** Parameter collections *)

Definition params : Type := list Q.

(** Equality of two parameter collections as numbers, entry by entry. *)
Definition params_eq (a b : params) : Prop := Forall2 Qeq a b.

(** [for param, target_param in zip(source.parameters(), target.parameters()):
       target_param.data.copy_(tau * param.data + (1 - tau) * target_param.data)]
    The loop mutates the target in place: entries of the target beyond the
    end of the source are not visited by [zip] and keep their values. *)
Fixpoint soft_update (tau : Q) (source target : params) : params :=
  match source, target with
  | p :: source', t :: target' =>
      (tau * p + (1 - tau) * t)%Q :: soft_update tau source' target'
  | _, _ => target
  end.

(** ** Numbers of the interpreter

    Where the code turns a float into an integer the rounding of the
    binary format matters, and is modelled: [float q] is the binary64
    number nearest to [q], ties going to the even significand, with
    subnormal numbers; results beyond the largest finite number are not
    modelled. *)

(** The nearest integer, ties going to the even one. *)
Definition round_half_even (q : Q) : Z :=
  let f := Qfloor q in
  match (q - inject_Z f ?= 1 # 2)%Q with
  | Lt => f
  | Gt => f + 1
  | Eq => if Z.even f then f else f + 1
  end.

(** [round(x, ndigits)] *)
Definition round_digits (q : Q) (ndigits : Z) : Q :=
  (inject_Z (round_half_even (q * 10 ^ ndigits)) / 10 ^ ndigits)%Q.

(** The exponent [l] with [2^l <= q < 2^(l+1)], for a positive [q]. *)
Definition Qlog2 (q : Q) : Z :=
  let d := Z.log2 (Qnum q) - Z.log2 (Zpos (Qden q)) in
  if Qle_bool (2 ^ d) q then d else d - 1.

(** Rounding a positive number to 53 significant bits, with the
    exponent of the last bit kept at or above -1074. *)
Definition float_pos (q : Q) : Q :=
  let e := Z.max (Qlog2 q - 52) (-1074) in
  (inject_Z (round_half_even (q / 2 ^ e)) * 2 ^ e)%Q.

Definition float (q : Q) : Q :=
  match Qnum q with
  | Z0 => 0%Q
  | Zpos _ => float_pos q
  | Zneg _ => (- float_pos (- q))%Q
  end.

(** [int(x)] of a float: the fraction is dropped. *)
Definition int (q : Q) : Z := Z.quot (Qnum q) (Zpos (Qden q)).

(** ** Files of persisted parameters

    The part of the file system the agents touch: a finite map from
    directory paths to directories, a directory being a finite map from
    file names to the state dict stored under that name.  Permissions,
    nested directories and regular files in the place of a directory are
    not modelled. *)

Abbreviation directory := (gmap string params).
Abbreviation filesystem := (gmap string directory).

(** [os.path.exists(filepath)] *)
Definition os_path_exists (fs : filesystem) (filepath : string) : bool :=
  bool_decide (is_Some (fs !! filepath)).

(** [os.makedirs(filepath)], called only on a path that does not exist. *)
Definition os_makedirs (fs : filesystem) (filepath : string) : filesystem :=
  <[filepath := (∅ : directory)]> fs.

(** The directory [save_models] writes into, after its
    [if not dir_exists: os.makedirs(filepath)]. *)
Definition ensured (fs : filesystem) (filepath : string) : filesystem :=
  if negb (os_path_exists fs filepath) then os_makedirs fs filepath else fs.

(** [torch.save(state_dict, f"{filepath}/{file}")]: writing into a
    directory that does not exist raises. *)
Definition torch_save (sd : params) (filepath file : string)
    (fs : filesystem) : filesystem * option exn :=
  match fs !! filepath with
  | Some d => (<[filepath := <[file := sd]> d]> fs, None)
  | None => (fs, Some FileNotFoundError)
  end.

(** [torch.load(f"{filepath}/{file}", ...)]: a file that is absent raises. *)
Definition torch_load (fs : filesystem) (filepath file : string)
    : params + exn :=
  match fs !! filepath with
  | Some d =>
      match d !! file with
      | Some sd => inl sd
      | None => inr FileNotFoundError
      end
  | None => inr FileNotFoundError
  end.

(** The file a stored state dict is read from, if it is there. *)
Definition stored (fs : filesystem) (filepath file : string)
    : option params :=
  match fs !! filepath with
  | Some d => d !! file
  | None => None
  end.

(** ** [np.argmax] on a flat array

    The index of the first occurrence of the largest value; an empty
    array raises [ValueError]. *)

Fixpoint argmax_from (best_i : nat) (best : Q) (i : nat) (l : list Q)
    : nat :=
  match l with
  | [] => best_i
  | x :: l' =>
      if Qle_bool x best then argmax_from best_i best (S i) l'
      else argmax_from i x (S i) l'
  end.

Definition np_argmax (l : list Q) : nat + exn :=
  match l with
  | [] => inr (ValueError "attempt to get argmax of an empty sequence")
  | x :: l' => inl (argmax_from 0 x 1 l')
  end.

(** ** DQN ([RL_algorithms/DQN/DQN.py]) *)

Module DQN.

Record t (Opt : Type) : Type := mk {
  gamma : Q;
  lr : Q;
  net : params;
  target_net : params;
  learn_counter : Z;
  target_update_freq : Z;
  action_num : Z;
  optimiser : Opt
}.
Arguments mk {Opt}.
Arguments gamma {Opt}.
Arguments lr {Opt}.
Arguments net {Opt}.
Arguments target_net {Opt}.
Arguments learn_counter {Opt}.
Arguments target_update_freq {Opt}.
Arguments action_num {Opt}.
Arguments optimiser {Opt}.

Section Agent.
(** The replay memory, the sampled batch and the Adam optimiser are
    external; the gradient step is a function of what the source hands
    to it: the online and target parameters, gamma, the optimiser state
    and the batch. *)
Variables (Memory Batch Opt : Type).
Variable sample_experience : Memory -> Z -> Batch.
Variable gradient_step :
  Opt -> params -> params -> Q -> Batch -> Z -> Opt * params.

(** [DQN.__init__]: a fresh network and optimiser state; the target is a
    deep copy of the network and no learning step has been taken. *)
Definition init (net0 : params) (action_num : Z) (gamma lr : Q)
    (target_update_freq : Z) (opt0 : Opt) : t Opt :=
  mk gamma lr net0 net0 0 target_update_freq action_num opt0.

(** [DQN.train_policy(memory, batch_size)] *)
Definition train_policy (self : t Opt) (memory : Memory) (batch_size : Z)
    : t Opt * option exn :=
  let experiences := sample_experience memory batch_size in
  (* loss; optimiser.zero_grad(); loss.backward(); optimiser.step() *)
  let '(opt', net') :=
    gradient_step (optimiser self) (net self) (target_net self)
      (gamma self) experiences batch_size in
  (* self.learn_counter += 1 *)
  let counter := learn_counter self + 1 in
  let self1 :=
    mk (gamma self) (lr self) net' (target_net self) counter
       (target_update_freq self) (action_num self) opt' in
  (* if self.learn_counter % self.target_update_freq == 0: *)
  if target_update_freq self =? 0 then (self1, Some ZeroDivisionError)
  else if counter mod target_update_freq self =? 0 then
    (* self.target_net.load_state_dict(self.net.state_dict()) *)
    (mk (gamma self) (lr self) net' net' counter
        (target_update_freq self) (action_num self) opt', None)
  else (self1, None).

(** [n] successive calls of [train_policy], stopping at the first one
    that raises. *)
Fixpoint train_policy_times (n : nat) (self : t Opt) (memory : Memory)
    (batch_size : Z) : t Opt * option exn :=
  match n with
  | O => (self, None)
  | S n' =>
      match train_policy self memory batch_size with
      | (self', None) => train_policy_times n' self' memory batch_size
      | r => r
      end
  end.

(** [DQN.save_models(filename, filepath)] *)
Definition save_models (self : t Opt) (filename filepath : string)
    (fs : filesystem) : filesystem * option exn :=
  let fs1 :=
    if negb (os_path_exists fs filepath) then os_makedirs fs filepath
    else fs in
  torch_save (net self) filepath (filename +:+ "_net.pth") fs1.

(** [DQN.load_models(filename, filepath)].  The state dict that is read
    is taken to fit the network: the strict check of keys and shapes that
    [load_state_dict] makes, raising [RuntimeError] on a file written for
    another architecture, is not modelled. *)
Definition load_models (self : t Opt) (filename filepath : string)
    (fs : filesystem) : t Opt * option exn :=
  match torch_load fs filepath (filename +:+ "_net.pth") with
  | inl sd =>
      (mk (gamma self) (lr self) sd (target_net self) (learn_counter self)
          (target_update_freq self) (action_num self) (optimiser self),
       None)
  | inr e => (self, Some e)
  end.
End Agent.
Arguments init {Opt}.
Arguments train_policy {Memory Batch Opt}.
Arguments train_policy_times {Memory Batch Opt}.
Arguments save_models {Opt}.
Arguments load_models {Opt}.

Section Policy.
Variables (State Opt : Type).
(** [Network.forward] on one state: one value per action. *)
Variable forward : params -> State -> list Q.

(** [DQN.select_action_from_policy(state, evaluation)]: the network is
    put into evaluation mode and back into training mode around the
    forward pass, which changes no parameter. *)
Definition select_action_from_policy (self : t Opt) (state : State)
    (evaluation : bool) : nat + exn :=
  let q_values := forward (net self) state in
  np_argmax q_values.
End Policy.
Arguments select_action_from_policy {State Opt}.

End DQN.

(** ** DDPG ([RL_algorithms/DDPG/DDPG.py]) *)

Module DDPG.

Record t (Opt : Type) : Type := mk {
  actor_net : params;
  critic_net : params;
  target_actor_net : params;
  target_critic_net : params;
  gamma : Q;
  tau : Q;
  actor_lr : Q;
  critic_lr : Q;
  actor_net_optimiser : Opt;
  critic_net_optimiser : Opt
}.
Arguments mk {Opt}.
Arguments actor_net {Opt}.
Arguments critic_net {Opt}.
Arguments target_actor_net {Opt}.
Arguments target_critic_net {Opt}.
Arguments gamma {Opt}.
Arguments tau {Opt}.
Arguments actor_lr {Opt}.
Arguments critic_lr {Opt}.
Arguments actor_net_optimiser {Opt}.
Arguments critic_net_optimiser {Opt}.

Section Agent.
Variables (Memory Batch States Opt : Type).
Variable sample_experience : Memory -> Z -> Batch.
(** The [states] component of a sampled batch. *)
Variable batch_states : Batch -> States.
(** The two gradient steps ([zero_grad(); loss.backward(); step()]) as
    functions of what the source feeds into the loss; each returns the
    new optimiser state, the new parameters and [loss.item()]. *)
Variable critic_step :
  Opt -> params (* critic_net *) -> params (* target_actor_net *) ->
  params (* target_critic_net *) -> Q (* gamma *) -> Batch ->
  Opt * params * Q.
Variable actor_step :
  Opt -> params (* actor_net *) -> params (* critic_net *) -> States ->
  Opt * params * Q.

(** [DDPG.__init__]: fresh networks and optimiser states; both targets
    are deep copies. *)
Definition init (actor0 critic0 : params) (gamma tau actor_lr critic_lr : Q)
    (opt_actor opt_critic : Opt) : t Opt :=
  mk actor0 critic0 actor0 critic0 gamma tau actor_lr critic_lr opt_actor
     opt_critic.

(** [DDPG._update_critic] *)
Definition _update_critic (self : t Opt) (experiences : Batch)
    : t Opt * Q :=
  let '(opt', critic', loss) :=
    critic_step (critic_net_optimiser self) (critic_net self)
      (target_actor_net self) (target_critic_net self) (gamma self)
      experiences in
  (mk (actor_net self) critic' (target_actor_net self)
      (target_critic_net self) (gamma self) (tau self) (actor_lr self)
      (critic_lr self) (actor_net_optimiser self) opt', loss).

(** [DDPG._update_actor] *)
Definition _update_actor (self : t Opt) (states : States)
    : t Opt * Q :=
  let '(opt', actor', loss) :=
    actor_step (actor_net_optimiser self) (actor_net self)
      (critic_net self) states in
  (mk actor' (critic_net self) (target_actor_net self)
      (target_critic_net self) (gamma self) (tau self) (actor_lr self)
      (critic_lr self) opt' (critic_net_optimiser self), loss).

(** [DDPG.train_policy(memory, batch_size)] *)
Definition train_policy (self : t Opt) (memory : Memory) (batch_size : Z)
    : t Opt :=
  let experiences := sample_experience memory batch_size in
  let self1 := fst (_update_critic self experiences) in
  let self2 := fst (_update_actor self1 (batch_states experiences)) in
  (* Update target network params *)
  let target_critic' :=
    soft_update (tau self2) (critic_net self2) (target_critic_net self2) in
  let target_actor' :=
    soft_update (tau self2) (actor_net self2) (target_actor_net self2) in
  mk (actor_net self2) (critic_net self2) target_actor' target_critic'
     (gamma self2) (tau self2) (actor_lr self2) (critic_lr self2)
     (actor_net_optimiser self2) (critic_net_optimiser self2).

(** [DDPG.save_models(filename, filepath)] *)
Definition save_models (self : t Opt) (filename filepath : string)
    (fs : filesystem) : filesystem * option exn :=
  let fs1 :=
    if negb (os_path_exists fs filepath) then os_makedirs fs filepath
    else fs in
  match torch_save (actor_net self) filepath (filename +:+ "_actor.pht") fs1
  with
  | (fs2, None) =>
      torch_save (critic_net self) filepath (filename +:+ "_critic.pht") fs2
  | r => r
  end.

(** [DDPG.load_models(filename, filepath)]: the actor is loaded before
    the critic file is opened.  The state dicts that are read are taken
    to fit the networks: the strict check of keys and shapes that
    [load_state_dict] makes is not modelled. *)
Definition load_models (self : t Opt) (filename filepath : string)
    (fs : filesystem) : t Opt * option exn :=
  match torch_load fs filepath (filename +:+ "_actor.pht") with
  | inr e => (self, Some e)
  | inl actor_sd =>
      let self1 :=
        mk actor_sd (critic_net self) (target_actor_net self)
           (target_critic_net self) (gamma self) (tau self)
           (actor_lr self) (critic_lr self) (actor_net_optimiser self)
           (critic_net_optimiser self) in
      match torch_load fs filepath (filename +:+ "_critic.pht") with
      | inr e => (self1, Some e)
      | inl critic_sd =>
          (mk actor_sd critic_sd (target_actor_net self)
              (target_critic_net self) (gamma self) (tau self)
              (actor_lr self) (critic_lr self) (actor_net_optimiser self)
              (critic_net_optimiser self), None)
      end
  end.
End Agent.
Arguments init {Opt}.
Arguments _update_critic {Batch Opt}.
Arguments _update_actor {States Opt}.
Arguments train_policy {Memory Batch States Opt}.
Arguments save_models {Opt}.
Arguments load_models {Opt}.

End DDPG.

(** ** SAC ([RL_algorithms/SAC/SAC.py]) *)

Module SAC.

Record t (Opt : Type) : Type := mk {
  actor_net : params;
  critic_net : params;
  target_critic_net : params;
  gamma : Q;
  tau : Q;
  actor_lr : Q;
  critic_lr : Q;
  alpha_lr : Q;
  reward_scale : Q;
  learn_counter : Z;
  policy_update_freq : Z;
  target_entropy : Z;
  log_alpha : Q;
  log_alpha_optimizer : Opt;
  actor_net_optimiser : Opt;
  critic_net_optimiser : Opt
}.
Arguments mk {Opt}.
Arguments actor_net {Opt}.
Arguments critic_net {Opt}.
Arguments target_critic_net {Opt}.
Arguments gamma {Opt}.
Arguments tau {Opt}.
Arguments actor_lr {Opt}.
Arguments critic_lr {Opt}.
Arguments alpha_lr {Opt}.
Arguments reward_scale {Opt}.
Arguments learn_counter {Opt}.
Arguments policy_update_freq {Opt}.
Arguments target_entropy {Opt}.
Arguments log_alpha {Opt}.
Arguments log_alpha_optimizer {Opt}.
Arguments actor_net_optimiser {Opt}.
Arguments critic_net_optimiser {Opt}.

(** What [memory.sample_experience] returns: five aligned sequences. *)
Record batch (Obs Act : Type) : Type := mk_batch {
  states : list Obs;
  actions : list Act;
  rewards : list Q;
  next_states : list Obs;
  dones : list Q
}.
Arguments mk_batch {Obs Act}.
Arguments states {Obs Act}.
Arguments actions {Obs Act}.
Arguments rewards {Obs Act}.
Arguments next_states {Obs Act}.
Arguments dones {Obs Act}.

(** [tensor.mean()] of a column of scalars. *)
Definition mean (xs : list Q) : Q :=
  (fold_right Qplus 0 xs / inject_Z (Z.of_nat (length xs)))%Q.

(** [functional.mse_loss(input, target)] *)
Definition mse_loss (input target : list Q) : Q :=
  mean (zip_with (fun x y => (x - y) * (x - y))%Q input target).

(** The bootstrap target of one transition in the words of the
    specification: reward * reward_scale
    + gamma * (1 - done) * (min(Q1_target, Q2_target) - alpha * log_pi). *)
Definition bootstrap_target (reward_scale gamma alpha : Q)
    (reward done q1_target q2_target log_pi : Q) : Q :=
  (reward * reward_scale
   + gamma * (1 - done) * (Qmin q1_target q2_target - alpha * log_pi))%Q.

Section Agent.
Variables (Memory Obs Act Noise Opt : Type).
Variable sample_experience : Memory -> Z -> batch Obs Act.
(** [Actor.forward]: the reparameterised sample, its log-probability and
    the mean action, for the given parameters, state and random draw. *)
Variable actor_forward : params -> Obs -> Noise -> Act * Q * Act.
(** [Critic.forward]: the two Q-values. *)
Variable critic_forward : params -> Obs -> Act -> Q * Q.
(** [torch.exp] on scalars. *)
Variable exp : Q -> Q.
(** [optimiser.zero_grad(); loss.backward(); optimiser.step()] for a
    loss given as a function of the parameters the optimiser owns. *)
Variable optimiser_step : Opt -> (params -> Q) -> params -> Opt * params.
Variable scalar_optimiser_step : Opt -> (Q -> Q) -> Q -> Opt * Q.

(** [SAC.__init__]: fresh networks [actor0], [critic0] and fresh
    optimiser states; the target critic is a deep copy of the critic. *)
Definition init (actor0 critic0 : params) (action_num : Z)
    (gamma tau actor_lr critic_lr alpha_lr : Q)
    (opt_alpha opt_actor opt_critic : Opt) : t Opt :=
  mk actor0 critic0 critic0 gamma tau actor_lr critic_lr alpha_lr
     1%Q 0 1 (- action_num) 0%Q opt_alpha opt_actor opt_critic.

(** [SAC.alpha] *)
Definition alpha (self : t Opt) : Q := exp (log_alpha self).

(** The actor applied along a column of states, one draw per state. *)
Definition actor_batch (theta : params) (obs : list Obs)
    (eps : list Noise) : list (Act * Q * Act) :=
  zip_with (actor_forward theta) obs eps.

Definition critic_batch (theta : params) (obs : list Obs)
    (acts : list Act) : list (Q * Q) :=
  zip_with (critic_forward theta) obs acts.

(** [q_target] of [SAC._update_critic], computed under [no_grad]. *)
Definition q_target (self : t Opt) (b : batch Obs Act)
    (eps : list Noise) : list Q :=
  let next := actor_batch (actor_net self) (next_states b) eps in
  let next_actions := map (fun o => fst (fst o)) next in
  let next_log_pi := map (fun o => snd (fst o)) next in
  let target_q := critic_batch (target_critic_net self) (next_states b)
                    next_actions in
  let target_q_values :=
    zip_with (fun q lp => Qmin (fst q) (snd q) - alpha self * lp)%Q
      target_q next_log_pi in
  zip_with (fun rd tq => fst rd * reward_scale self
                         + gamma self * (1 - snd rd) * tq)%Q
    (zip_with pair (rewards b) (dones b)) target_q_values.

Definition critic_loss_one (b : batch Obs Act) (target : list Q)
    (theta : params) : Q :=
  mse_loss (map fst (critic_batch theta (states b) (actions b))) target.

Definition critic_loss_two (b : batch Obs Act) (target : list Q)
    (theta : params) : Q :=
  mse_loss (map snd (critic_batch theta (states b) (actions b))) target.

Definition critic_loss_total (b : batch Obs Act) (target : list Q)
    (theta : params) : Q :=
  (critic_loss_one b target theta + critic_loss_two b target theta)%Q.

(** [SAC._update_critic] *)
Definition _update_critic (self : t Opt) (b : batch Obs Act)
    (eps : list Noise) : t Opt * (Q * Q * Q) :=
  let target := q_target self b eps in
  let '(opt', critic') :=
    optimiser_step (critic_net_optimiser self)
      (critic_loss_total b target) (critic_net self) in
  (mk (actor_net self) critic' (target_critic_net self) (gamma self)
      (tau self) (actor_lr self) (critic_lr self) (alpha_lr self)
      (reward_scale self) (learn_counter self) (policy_update_freq self)
      (target_entropy self) (log_alpha self) (log_alpha_optimizer self)
      (actor_net_optimiser self) opt',
   (critic_loss_one b target (critic_net self),
    critic_loss_two b target (critic_net self),
    critic_loss_total b target (critic_net self))).

Definition actor_loss (self : t Opt) (obs : list Obs) (eps : list Noise)
    (theta : params) : Q :=
  let out := actor_batch theta obs eps in
  let pi := map (fun o => fst (fst o)) out in
  let log_pi := map (fun o => snd (fst o)) out in
  let min_qf_pi :=
    map (fun q => Qmin (fst q) (snd q))
        (critic_batch (critic_net self) obs pi) in
  mean (zip_with (fun lp q => alpha self * lp - q)%Q log_pi min_qf_pi).

Definition alpha_loss (self : t Opt) (log_pi : list Q) (la : Q) : Q :=
  (- mean (map (fun lp => la * (lp + inject_Z (target_entropy self)))
               log_pi))%Q.

(** [SAC._update_actor_alpha] *)
Definition _update_actor_alpha (self : t Opt) (obs : list Obs)
    (eps : list Noise) : t Opt * (Q * Q) :=
  let log_pi :=
    map (fun o => snd (fst o)) (actor_batch (actor_net self) obs eps) in
  let '(opt_a, actor') :=
    optimiser_step (actor_net_optimiser self) (actor_loss self obs eps)
      (actor_net self) in
  let '(opt_l, log_alpha') :=
    scalar_optimiser_step (log_alpha_optimizer self)
      (alpha_loss self log_pi) (log_alpha self) in
  (mk actor' (critic_net self) (target_critic_net self) (gamma self)
      (tau self) (actor_lr self) (critic_lr self) (alpha_lr self)
      (reward_scale self) (learn_counter self) (policy_update_freq self)
      (target_entropy self) log_alpha' opt_l opt_a
      (critic_net_optimiser self),
   (actor_loss self obs eps (actor_net self),
    alpha_loss self log_pi (log_alpha self))).

(** [self.learn_counter += 1], the first statement of [train_policy]. *)
Definition bump (self : t Opt) : t Opt :=
  mk (actor_net self) (critic_net self) (target_critic_net self)
     (gamma self) (tau self) (actor_lr self) (critic_lr self)
     (alpha_lr self) (reward_scale self) (learn_counter self + 1)
     (policy_update_freq self) (target_entropy self) (log_alpha self)
     (log_alpha_optimizer self) (actor_net_optimiser self)
     (critic_net_optimiser self).

Definition with_target_critic (self : t Opt) (target' : params) : t Opt :=
  mk (actor_net self) (critic_net self) target' (gamma self) (tau self)
     (actor_lr self) (critic_lr self) (alpha_lr self) (reward_scale self)
     (learn_counter self) (policy_update_freq self) (target_entropy self)
     (log_alpha self) (log_alpha_optimizer self)
     (actor_net_optimiser self) (critic_net_optimiser self).

(** [SAC.train_policy(memory, batch_size)]; [eps_next] and [eps_cur] are
    the random draws of the two actor evaluations. *)
Definition train_policy (self : t Opt) (memory : Memory) (batch_size : Z)
    (eps_next eps_cur : list Noise) : t Opt * option exn :=
  let self0 := bump self in
  let b := sample_experience memory batch_size in
  let self1 := fst (_update_critic self0 b eps_next) in
  let self2 := fst (_update_actor_alpha self1 (states b) eps_cur) in
  if policy_update_freq self2 =? 0 then (self2, Some ZeroDivisionError)
  else if learn_counter self2 mod policy_update_freq self2 =? 0 then
    (with_target_critic self2
       (soft_update (tau self2) (critic_net self2)
          (target_critic_net self2)), None)
  else (self2, None).

(** [SAC.save_models(filename, filepath)] *)
Definition save_models (self : t Opt) (filename filepath : string)
    (fs : filesystem) : filesystem * option exn :=
  let fs1 :=
    if negb (os_path_exists fs filepath) then os_makedirs fs filepath
    else fs in
  match torch_save (actor_net self) filepath (filename +:+ "_actor.pht") fs1
  with
  | (fs2, None) =>
      torch_save (critic_net self) filepath (filename +:+ "_critic.pht") fs2
  | r => r
  end.

Definition with_actor (self : t Opt) (sd : params) : t Opt :=
  mk sd (critic_net self) (target_critic_net self) (gamma self) (tau self)
     (actor_lr self) (critic_lr self) (alpha_lr self) (reward_scale self)
     (learn_counter self) (policy_update_freq self) (target_entropy self)
     (log_alpha self) (log_alpha_optimizer self)
     (actor_net_optimiser self) (critic_net_optimiser self).

Definition with_critic (self : t Opt) (sd : params) : t Opt :=
  mk (actor_net self) sd (target_critic_net self) (gamma self) (tau self)
     (actor_lr self) (critic_lr self) (alpha_lr self) (reward_scale self)
     (learn_counter self) (policy_update_freq self) (target_entropy self)
     (log_alpha self) (log_alpha_optimizer self)
     (actor_net_optimiser self) (critic_net_optimiser self).

(** [SAC.load_models(filename, filepath)].  The state dicts that are
    read are taken to fit the networks: the strict check of keys and
    shapes that [load_state_dict] makes is not modelled. *)
Definition load_models (self : t Opt) (filename filepath : string)
    (fs : filesystem) : t Opt * option exn :=
  match torch_load fs filepath (filename +:+ "_actor.pht") with
  | inr e => (self, Some e)
  | inl actor_sd =>
      let self1 := with_actor self actor_sd in
      match torch_load fs filepath (filename +:+ "_critic.pht") with
      | inr e => (self1, Some e)
      | inl critic_sd => (with_critic self1 critic_sd, None)
      end
  end.
End Agent.
Arguments init {Opt}.
Arguments alpha {Opt}.
Arguments actor_batch {Obs Act Noise}.
Arguments critic_batch {Obs Act}.
Arguments q_target {Obs Act Noise Opt}.
Arguments critic_loss_one {Obs Act}.
Arguments critic_loss_two {Obs Act}.
Arguments critic_loss_total {Obs Act}.
Arguments _update_critic {Obs Act Noise Opt}.
Arguments actor_loss {Obs Act Noise Opt}.
Arguments alpha_loss {Opt}.
Arguments _update_actor_alpha {Obs Act Noise Opt}.
Arguments bump {Opt}.
Arguments with_target_critic {Opt}.
Arguments train_policy {Memory Obs Act Noise Opt}.
Arguments save_models {Opt}.
Arguments load_models {Opt}.
Arguments with_actor {Opt}.
Arguments with_critic {Opt}.

End SAC.

(** ** The training loop ([RL_loops/training_policy_loop.py]) *)

Module TrainingLoop.

(** The values [training_loop] reads from [config_data], after the
    [int(...)] / [float(...)] conversions and the defaults of [.get]. *)
Record config : Type := mk_config {
  Algorithm : string;
  selected_platform : string;
  selected_environment : string;
  Seed : Z;
  steps_training : Z;
  evaluation_interval : Z;
  log_interval : Z;
  number_eval_episodes : Z;
  max_steps_per_batch : Z;
  epsilon_min : Q;
  epsilon_decay : Q;
  G : Z;
  batch_size : Z;
  steps_exploration : Z
}.

Inductive backend : Type := GymEnvironment | DMControlEnvironment.

(** One stored experience: the arguments of [memory.add_experience]. *)
Record transition (O A L : Type) : Type := mk_transition {
  tr_state : O;
  tr_action : A;
  tr_reward : Q;
  tr_next_state : O;
  tr_done : bool;
  tr_aux : option L
}.
Arguments mk_transition {O A L}.
Arguments tr_state {O A L}.
Arguments tr_action {O A L}.
Arguments tr_reward {O A L}.
Arguments tr_next_state {O A L}.
Arguments tr_done {O A L}.
Arguments tr_aux {O A L}.

(** The collaborators that are outside the loop's own code: the module
    system, environment adapters, random number generators, the agent
    behind the algorithm contract, the evaluation runner and the record
    logger.  [import_module] gives the names a module defines, or
    nothing when there is no such module; the four constructors may
    raise. *)
Record externals : Type := mk_externals {
  Obs : Type;
  Act : Type;
  Aux : Type;
  Env : Type;
  Agent : Type;
  Logger : Type;
  Rng : Type;
  Row : Type;
  set_seed : Z -> Rng;
  import_module : string -> option (list string);
  make_env : backend -> string -> Z -> string -> Env + exn;
  make_agent : config -> Env -> Agent + exn;
  (** [MemoryBuffer(...)]: the memory starts empty, unless the
      constructor raises. *)
  make_memory : config -> Env -> option exn;
  make_logger : string -> Agent -> Logger + exn;
  env_reset : Env -> Obs * Env;
  env_step : Env -> Act -> (Obs * Q * bool * bool) * Env;
  env_sample_action : Env -> Act * Env;
  random_random : Rng -> Q * Rng;
  select_action_from_policy : Agent -> Obs -> Rng -> (Act * Aux) * Rng;
  (** [rl_agent.train_policy(memory, batch_size)] of the off-policy
      agents, which only sample from the memory. *)
  train_policy :
    Agent -> list (transition Obs Act Aux) -> Z -> Rng ->
    (Agent * Rng) * option exn;
  (** [rl_agent.train_policy(memory)] of the batch-policy agent, which
      consumes the memory. *)
  train_policy_batch :
    Agent -> list (transition Obs Act Aux) -> Rng ->
    (Agent * list (transition Obs Act Aux) * Rng) * option exn;
  evaluate_policy_loop :
    Env -> Agent -> Z -> Logger -> Z -> string ->
    (Env * Logger) * list (Z * Row);
  log_training : Logger -> Z -> Q -> Z -> Z -> Logger
}.

(** A data frame of evaluation records: rows in the order they were
    logged, each a key (its "Total Timesteps") and the rest of the record.
    Rows are complete (no missing cell).

    [upsert] puts a row into a frame whose keys ascend, replacing the row
    that has the same key if there is one. *)
Fixpoint upsert {R : Type} (k : Z) (v : R) (acc : list (Z * R))
    : list (Z * R) :=
  match acc with
  | [] => [(k, v)]
  | (k', v') :: acc' =>
      if k <? k' then (k, v) :: acc
      else if k =? k' then (k, v) :: acc'
      else (k', v') :: upsert k v acc'
  end.

(** [df.groupby("Total Timesteps", as_index=False).last()]: pandas sorts
    the group keys and takes, column by column, the last non-null cell of
    each group, which for complete rows is the group's last row. *)
Definition groupby_last {R : Type} (df : list (Z * R)) : list (Z * R) :=
  fold_left (fun acc r => upsert (fst r) (snd r) acc) df [].


(** The row a frame has for a key (the first one, if there are several). *)
Fixpoint assoc {R : Type} (k : Z) (l : list (Z * R)) : option R :=
  match l with
  | [] => None
  | (k', v) :: l' => if k =? k' then Some v else assoc k l'
  end.


Definition Qlt_bool (a b : Q) : bool := negb (Qle_bool b a).

(** [range(n)] *)
Definition range (n : Z) : list Z := map Z.of_nat (seq 0 (Z.to_nat n)).

Section Loop.
Variable X : externals.

(** Modelled from the spec: the replay memory ([MemoryBuffer], not part
    of the sources at hand) is the sequence of the transitions handed
    to [add_experience], oldest first; sampling does not change it. *)
Definition Memory : Type := list (transition (Obs X) (Act X) (Aux X)).

(** What the loop makes observable: its calls on the training window,
    the logger, the agent's training update and the two policy runners,
    in the order they happen.  Wall-clock values are left out. *)
Inductive event : Type :=
| Print (msg : string)
| TrainPolicy (memory_size : Z) (batch : option Z)
| UpdateTimeRemaining
| UpdateEpisode (n : Z)
| UpdateReward (r : Q)
| UpdateEpisodeSteps (n : Z)
| LogTraining (episode : Z) (reward : Q) (steps total : Z)
| UpdatePlot
| SaveCheckpoint
| EvaluatePolicy (episodes : Z) (total_step_counter : Z)
| UpdatePlotEval (df : list (Z * Row X))
| UpdateProgress (p : Z)
| UpdateStep (n : Z)
| SaveLogs
| PolicyLoopTest
| TrainingCompleted (b : bool).

(** The objects and local variables of [training_loop]. *)
Record loop_state : Type := mk_state {
  env : Env X;
  env_evaluation : Env X;
  rl_agent : Agent X;
  memory : Memory;
  logger : Logger X;
  rng : Rng X;
  state : Obs X;
  episode_timesteps : Z;
  episode_num : Z;
  episode_reward : Q;
  exploration_rate : Q;
  trace : list event
}.

Definition set_env (e : Env X) (s : loop_state) : loop_state :=
  mk_state e (env_evaluation s) (rl_agent s) (memory s) (logger s) (rng s)
    (state s) (episode_timesteps s) (episode_num s) (episode_reward s)
    (exploration_rate s) (trace s).
Definition set_env_evaluation (e : Env X) (s : loop_state) : loop_state :=
  mk_state (env s) e (rl_agent s) (memory s) (logger s) (rng s)
    (state s) (episode_timesteps s) (episode_num s) (episode_reward s)
    (exploration_rate s) (trace s).
Definition set_rl_agent (a : Agent X) (s : loop_state) : loop_state :=
  mk_state (env s) (env_evaluation s) a (memory s) (logger s) (rng s)
    (state s) (episode_timesteps s) (episode_num s) (episode_reward s)
    (exploration_rate s) (trace s).
Definition set_memory (m : Memory) (s : loop_state)
    : loop_state :=
  mk_state (env s) (env_evaluation s) (rl_agent s) m (logger s) (rng s)
    (state s) (episode_timesteps s) (episode_num s) (episode_reward s)
    (exploration_rate s) (trace s).
Definition set_logger (l : Logger X) (s : loop_state) : loop_state :=
  mk_state (env s) (env_evaluation s) (rl_agent s) (memory s) l (rng s)
    (state s) (episode_timesteps s) (episode_num s) (episode_reward s)
    (exploration_rate s) (trace s).
Definition set_rng (r : Rng X) (s : loop_state) : loop_state :=
  mk_state (env s) (env_evaluation s) (rl_agent s) (memory s) (logger s) r
    (state s) (episode_timesteps s) (episode_num s) (episode_reward s)
    (exploration_rate s) (trace s).
Definition set_state (o : Obs X) (s : loop_state) : loop_state :=
  mk_state (env s) (env_evaluation s) (rl_agent s) (memory s) (logger s)
    (rng s) o (episode_timesteps s) (episode_num s) (episode_reward s)
    (exploration_rate s) (trace s).
Definition set_episode_timesteps (n : Z) (s : loop_state) : loop_state :=
  mk_state (env s) (env_evaluation s) (rl_agent s) (memory s) (logger s)
    (rng s) (state s) n (episode_num s) (episode_reward s)
    (exploration_rate s) (trace s).
Definition set_episode_num (n : Z) (s : loop_state) : loop_state :=
  mk_state (env s) (env_evaluation s) (rl_agent s) (memory s) (logger s)
    (rng s) (state s) (episode_timesteps s) n (episode_reward s)
    (exploration_rate s) (trace s).
Definition set_episode_reward (r : Q) (s : loop_state) : loop_state :=
  mk_state (env s) (env_evaluation s) (rl_agent s) (memory s) (logger s)
    (rng s) (state s) (episode_timesteps s) (episode_num s) r
    (exploration_rate s) (trace s).
Definition set_exploration_rate (r : Q) (s : loop_state) : loop_state :=
  mk_state (env s) (env_evaluation s) (rl_agent s) (memory s) (logger s)
    (rng s) (state s) (episode_timesteps s) (episode_num s)
    (episode_reward s) r (trace s).
Definition emit (evs : list event) (s : loop_state) : loop_state :=
  mk_state (env s) (env_evaluation s) (rl_agent s) (memory s) (logger s)
    (rng s) (state s) (episode_timesteps s) (episode_num s)
    (episode_reward s) (exploration_rate s) (trace s ++ evs).

(** *** Commands: state transformers that may raise *)

Definition cmd : Type := loop_state -> loop_state * option exn.

Definition skip : cmd := fun s => (s, None).
Definition raise (e : exn) : cmd := fun s => (s, Some e).
Definition lift (f : loop_state -> loop_state) : cmd :=
  fun s => (f s, None).
Definition andthen (c1 c2 : cmd) : cmd :=
  fun s =>
    match c1 s with
    | (s1, None) => c2 s1
    | r => r
    end.
Notation "c1 >> c2" := (andthen c1 c2) (at level 62, right associativity).

Fixpoint times (n : nat) (c : cmd) : cmd :=
  match n with
  | O => skip
  | S n' => c >> times n' c
  end.

Section Body.
Variable cfg : config.

Definition is_ppo : bool := String.eqb (Algorithm cfg) "PPO".
Definition is_dqn : bool := String.eqb (Algorithm cfg) "DQN".

(** [action = env.sample_action()] *)
Definition sample_action (s : loop_state)
    : Act X * option (Aux X) * loop_state :=
  let '(a, e) := env_sample_action X (env s) in (a, None, set_env e s).

(** [rl_agent.select_action_from_policy(state)]; only the batch-policy
    family keeps the second component. *)
Definition policy_action (keep_aux : bool) (s : loop_state)
    : Act X * option (Aux X) * loop_state :=
  let '((a, lp), r) :=
    select_action_from_policy X (rl_agent s) (state s) (rng s) in
  (a, if keep_aux then Some lp else None, set_rng r s).

(** One decay application:
    [exploration_rate *= epsilon_decay;
     exploration_rate = max(epsilon_min, exploration_rate)] *)
Definition decay (rate : Q) : Q :=
  Qmax (epsilon_min cfg) (rate * epsilon_decay cfg).

(** "Select action".  [is_ppo] and [is_dqn] exclude each other, so the
    three [if] statements of the source are one chain. *)
Definition select_action (total_step_counter : Z) (s : loop_state)
    : Act X * option (Aux X) * loop_state :=
  if is_ppo then policy_action true s
  else if is_dqn then
    if total_step_counter <? steps_exploration cfg then sample_action s
    else
      let s1 := set_exploration_rate (decay (exploration_rate s)) s in
      let '(u, r) := random_random X (rng s1) in
      let s2 := set_rng r s1 in
      if Qlt_bool u (exploration_rate s2) then sample_action s2
      else policy_action false s2
  else
    if total_step_counter <? steps_exploration cfg then sample_action s
    else policy_action false s.

(** [rl_agent.train_policy(memory, batch_size)] *)
Definition call_train_policy : cmd :=
  fun s =>
    let s1 :=
      emit [TrainPolicy (Z.of_nat (length (memory s)))
              (Some (batch_size cfg))] s in
    let '((a, r), e) :=
      train_policy X (rl_agent s1) (memory s1) (batch_size cfg) (rng s1)
    in (set_rng r (set_rl_agent a s1), e).

(** [rl_agent.train_policy(memory)] *)
Definition call_train_policy_batch : cmd :=
  fun s =>
    let s1 :=
      emit [TrainPolicy (Z.of_nat (length (memory s))) None] s in
    let '((a, m, r), e) :=
      train_policy_batch X (rl_agent s1) (memory s1) (rng s1)
    in (set_rng r (set_memory m (set_rl_agent a s1)), e).

(** "Train the policy" *)
Definition train_phase (total_step_counter : Z) : cmd :=
  fun s =>
    if is_ppo && (max_steps_per_batch cfg =? 0) then
      raise ZeroDivisionError s
    else if is_ppo
            && ((total_step_counter + 1) mod max_steps_per_batch cfg =? 0)
    then call_train_policy_batch s
    else if is_dqn && (batch_size cfg <? total_step_counter) then
      times (Z.to_nat (G cfg)) call_train_policy s
    else if negb is_ppo && negb is_dqn
            && (steps_exploration cfg <=? total_step_counter) then
      times (Z.to_nat (G cfg)) call_train_policy s
    else skip s.

(** "Save checkpoint based on log interval" *)
Definition checkpoint_phase (total_step_counter : Z) : cmd :=
  fun s =>
    if log_interval cfg =? 0 then raise ZeroDivisionError s
    else if (total_step_counter + 1) mod log_interval cfg =? 0 then
      lift (emit [SaveCheckpoint]) s
    else skip s.

(** "Handle episode completion", the body of [if done or truncated];
    [episode_timesteps] is at least 1 here, so the floor division by it
    in the remaining-time estimate does not raise. *)
Definition episode_phase (total_step_counter : Z) : cmd :=
  lift (fun s =>
    let s1 :=
      emit [UpdateTimeRemaining;
            UpdateEpisode (episode_num s + 1);
            UpdateReward (round_digits (episode_reward s) 3);
            UpdateEpisodeSteps (episode_timesteps s)] s in
    let l :=
      log_training X (logger s1) (episode_num s1 + 1)
        (episode_reward s1) (episode_timesteps s1)
        (total_step_counter + 1) in
    emit [LogTraining (episode_num s1 + 1) (episode_reward s1)
            (episode_timesteps s1) (total_step_counter + 1);
          UpdatePlot] (set_logger l s1)) >>
  checkpoint_phase total_step_counter >>
  lift (fun s =>
    let '(o, e) := env_reset X (env s) in
    set_episode_reward 0
      (set_episode_num (episode_num s + 1)
         (set_episode_timesteps 0 (set_state o (set_env e s))))).

(** "Evaluate the policy" *)
Definition evaluate_phase (total_step_counter : Z) : cmd :=
  fun s =>
    if evaluation_interval cfg =? 0 then raise ZeroDivisionError s
    else if (total_step_counter + 1) mod evaluation_interval cfg =? 0
    then
      let '((e, l), df_log_evaluation) :=
        evaluate_policy_loop X (env_evaluation s) (rl_agent s)
          (number_eval_episodes cfg) (logger s) total_step_counter
          (Algorithm cfg) in
      let df_grouped := groupby_last df_log_evaluation in
      (emit [EvaluatePolicy (number_eval_episodes cfg)
               total_step_counter;
             UpdatePlotEval df_grouped]
         (set_logger l (set_env_evaluation e s)), None)
    else skip s.

(** [int(progress)] for
    [progress = (total_step_counter + 1) / steps_training * 100]: the
    quotient of the two integers is rounded to a float, and so is its
    product with 100; [steps_training] is positive whenever the loop
    body runs. *)
Definition progress (total_step_counter : Z) : Z :=
  int (float (float (inject_Z (total_step_counter + 1)
                     / inject_Z (steps_training cfg)) * 100)%Q).

(** The body of the [for] loop, after the [is_running] check. *)
Definition body (total_step_counter : Z) : cmd :=
  fun s =>
    let s1 := set_episode_timesteps (episode_timesteps s + 1) s in
    (* Select action *)
    let '(action, log_prob, s2) := select_action total_step_counter s1 in
    (* Take a step in the environment *)
    let '((next_state, reward, done, truncated), e) :=
      env_step X (env s2) action in
    let s3 := set_env e s2 in
    (* Store experience in memory *)
    let s4 :=
      set_memory
        (memory s3 ++
         [mk_transition (state s3) action reward next_state done
            log_prob]) s3 in
    let s5 :=
      set_episode_reward (episode_reward s4 + reward)
        (set_state next_state s4) in
    (train_phase total_step_counter >>
     (if done || truncated then episode_phase total_step_counter
      else skip) >>
     evaluate_phase total_step_counter >>
     lift (emit [UpdateProgress (progress total_step_counter);
                 UpdateStep (total_step_counter + 1)])) s5.

(** How the [for] loop was left. *)
Inductive loop_exit : Type :=
| Exhausted
| Interrupted
| Raised (e : exn).

(** [for total_step_counter in range(steps_training):
       if not is_running: print(...); training_completed = False; break
       ...]
    [is_running] is the value the function was called with. *)
Fixpoint for_loop (is_running : bool) (ts : list Z) (s : loop_state)
    : loop_state * loop_exit :=
  match ts with
  | [] => (s, Exhausted)
  | total_step_counter :: ts' =>
      if negb is_running then
        (emit [Print "Training loop interrupted. Exiting..."] s,
         Interrupted)
      else
        match body total_step_counter s with
        | (s', None) => for_loop is_running ts' s'
        | (s', Some e) => (s', Raised e)
        end
  end.

(** [import_algorithm_instance(config_data)]: [importlib.import_module]
    raises when the module is not there, [getattr] when the module does
    not define the class; the class is handed on as its name. *)
Definition import_algorithm_instance : string + exn :=
  let algorithm_name := Algorithm cfg in
  match import_module X ("RL_algorithms." +:+ algorithm_name) with
  | None => inr (ModuleNotFoundError ("RL_algorithms." +:+ algorithm_name))
  | Some attributes =>
      if existsb (String.eqb algorithm_name) attributes then
        inl algorithm_name
      else inr (AttributeError algorithm_name)
  end.

(** [create_environment_instance(config_data, render_mode, evaluation_env)] *)
Definition create_environment_instance (render_mode : string)
    (evaluation_env : bool) : Env X + exn :=
  let platform_name := selected_platform cfg in
  let env_name := selected_environment cfg in
  let seed := if negb evaluation_env then Seed cfg else Seed cfg + 1 in
  if String.eqb platform_name "Gymnasium"
     || String.eqb platform_name "MuJoCo" then
    make_env X GymEnvironment env_name seed render_mode
  else if String.eqb platform_name "DMCS" then
    make_env X DMControlEnvironment env_name seed render_mode
  else inr (ValueError ("Unsupported platform: " +:+ platform_name)).

(** "Finalize training" *)
Definition finalize (training_completed : bool) (s : loop_state)
    : loop_state :=
  emit [SaveLogs; PolicyLoopTest; TrainingCompleted training_completed] s.

(** What a call of [training_loop] comes to: it returns, or an
    exception leaves it (before the loop, with no state yet, or from
    the loop body). *)
Inductive result : Type :=
| Returned (s : loop_state)
| Failed (e : exn) (s : option loop_state).

(** The statements of [training_loop] before the [for] loop. *)
Definition setup (log_folder_path : string) : loop_state + exn :=
  let r0 := set_seed X (Seed cfg) in
  match import_algorithm_instance with
  | inr e => inr e
  | inl _ =>
      match create_environment_instance "rgb_array" false with
      | inr e => inr e
      | inl env0 =>
          match create_environment_instance "rgb_array" true with
          | inr e => inr e
          | inl env_eval0 =>
              match make_agent X cfg env0 with
              | inr e => inr e
              | inl agent0 =>
                  match make_memory X cfg env0 with
                  | Some e => inr e
                  | None =>
                      match make_logger X log_folder_path agent0 with
                      | inr e => inr e
                      | inl logger0 =>
                          let '(state0, env1) := env_reset X env0 in
                          (* exploration_rate = 1 (a local of the DQN
                             branch only) *)
                          inl (mk_state env1 env_eval0 agent0 [] logger0 r0
                                 state0 0 0 0 1 [])
                      end
                  end
              end
          end
      end
  end.

(** The statements after it; [training_completed] is [True] unless
    the loop was left through [break]. *)
Definition conclude (r : loop_state * loop_exit) : result :=
  match r with
  | (s, Exhausted) => Returned (finalize true s)
  | (s, Interrupted) => Returned (finalize false s)
  | (s, Raised e) => Failed e (Some s)
  end.

(** [training_loop(config_data, training_window, log_folder_path,
    is_running)] *)
Definition training_loop (log_folder_path : string) (is_running : bool)
    : result :=
  match setup log_folder_path with
  | inr e => Failed e None
  | inl s0 =>
      conclude (for_loop is_running (range (steps_training cfg)) s0)
  end.

(** The events of a call, whichever way it ended. *)
Definition events (r : result) : list event :=
  match r with
  | Returned s => trace s
  | Failed _ (Some s) => trace s
  | Failed _ None => []
  end.
End Body.
End Loop.
Arguments Print {X}.
Arguments TrainPolicy {X}.
Arguments UpdateTimeRemaining {X}.
Arguments UpdateEpisode {X}.
Arguments UpdateReward {X}.
Arguments UpdateEpisodeSteps {X}.
Arguments LogTraining {X}.
Arguments UpdatePlot {X}.
Arguments SaveCheckpoint {X}.
Arguments EvaluatePolicy {X}.
Arguments UpdatePlotEval {X}.
Arguments UpdateProgress {X}.
Arguments UpdateStep {X}.
Arguments SaveLogs {X}.
Arguments PolicyLoopTest {X}.
Arguments TrainingCompleted {X}.
Arguments env {X}.
Arguments env_evaluation {X}.
Arguments rl_agent {X}.
Arguments memory {X}.
Arguments logger {X}.
Arguments rng {X}.
Arguments state {X}.
Arguments episode_timesteps {X}.
Arguments episode_num {X}.
Arguments episode_reward {X}.
Arguments exploration_rate {X}.
Arguments trace {X}.
Arguments emit {X}.
Arguments Returned {X}.
Arguments Failed {X}.
Arguments events {X}.

(** *** Views of a trace *)

(** The calls of the training update: the size of the memory at the call
    and the batch size handed over. *)
Definition train_calls {X : externals} (tr : list (event X))
    : list (Z * option Z) :=
  flat_map (fun ev => match ev with
                      | TrainPolicy n b => [(n, b)]
                      | _ => []
                      end) tr.

(** The invocations of the evaluation runner: episode count and the step
    counter handed over. *)
Definition evaluations {X : externals} (tr : list (event X))
    : list (Z * Z) :=
  flat_map (fun ev => match ev with
                      | EvaluatePolicy n t => [(n, t)]
                      | _ => []
                      end) tr.

(** The evaluation tables reported to the window. *)
Definition eval_plots {X : externals} (tr : list (event X))
    : list (list (Z * Row X)) :=
  flat_map (fun ev => match ev with
                      | UpdatePlotEval df => [df]
                      | _ => []
                      end) tr.

(** The completed steps, as reported by [update_step_signal]. *)
Definition steps {X : externals} (tr : list (event X)) : list Z :=
  flat_map (fun ev => match ev with
                      | UpdateStep n => [n]
                      | _ => []
                      end) tr.

(** The statements of "Finalize training". *)
Definition finals {X : externals} (tr : list (event X)) : list (event X) :=
  flat_map (fun ev => match ev with
                      | SaveLogs | PolicyLoopTest | TrainingCompleted _ =>
                          [ev]
                      | _ => []
                      end) tr.

(** The messages printed on interruption. *)
Definition prints {X : externals} (tr : list (event X)) : list string :=
  flat_map (fun ev => match ev with
                      | Print msg => [msg]
                      | _ => []
                      end) tr.

Definition is_train {X : externals} (ev : event X) : Prop :=
  match ev with TrainPolicy _ _ => True | _ => False end.

Definition is_episode {X : externals} (ev : event X) : Prop :=
  match ev with
  | UpdateTimeRemaining | UpdateEpisode _ | UpdateReward _
  | UpdateEpisodeSteps _ | LogTraining _ _ _ _ | UpdatePlot
  | SaveCheckpoint => True
  | _ => False
  end.

(** [(total_step_counter + 1) % evaluation_interval == 0] *)
Definition eval_due (cfg : config) (total_step_counter : Z) : bool :=
  (total_step_counter + 1) mod evaluation_interval cfg =? 0.

(** The condition under which the loop trains an off-policy agent at a
    step: [total_step_counter > batch_size] for DQN,
    [total_step_counter >= steps_exploration] for the others. *)
Definition gate (cfg : config) (t : Z) : Prop :=
  if is_dqn cfg then batch_size cfg < t else steps_exploration cfg <= t.

(** The steps at which the loop applies the decay: those of DQN's
    [else] branch of "Select action". *)
Definition decays (cfg : config) (t : Z) : bool :=
  negb (is_ppo cfg) && is_dqn cfg && (steps_exploration cfg <=? t).

(** The exploration rate after [k] decay applications, from the initial
    [exploration_rate = 1]. *)
Definition rate_after (cfg : config) (k : nat) : Q :=
  Nat.iter k (fun r => Qmax (epsilon_min cfg) (r * epsilon_decay cfg)) 1%Q.

(** The gate of the off-policy updates as the loop evaluates it. *)
Definition gateb (cfg : config) (t : Z) : bool :=
  if is_dqn cfg then batch_size cfg <? t else steps_exploration cfg <=? t.

(** [(total_step_counter + 1) % max_steps_per_batch == 0] *)
Definition batch_due (cfg : config) (total_step_counter : Z) : bool :=
  (total_step_counter + 1) mod max_steps_per_batch cfg =? 0.

(** The records handed to [logger.log_training]: episode number, steps of
    the episode and total steps (the reward is left out). *)
Definition logged {X : externals} (tr : list (event X))
    : list (Z * Z * Z) :=
  flat_map (fun ev => match ev with
                      | LogTraining episode _ steps total =>
                          [(episode, steps, total)]
                      | _ => []
                      end) tr.

(** The values sent through [update_progress_signal]. *)
Definition progresses {X : externals} (tr : list (event X)) : list Z :=
  flat_map (fun ev => match ev with
                      | UpdateProgress p => [p]
                      | _ => []
                      end) tr.

(** Episode records that continue the count from [episode] episodes and
    [total] steps: numbered consecutively, each with at least one step,
    each reporting as total the steps of all episodes so far. *)
Fixpoint accounted (episode total : Z) (l : list (Z * Z * Z)) : Prop :=
  match l with
  | [] => True
  | (ep, st, tot) :: l' =>
      ep = episode + 1 /\ 1 <= st /\ tot = total + st
      /\ accounted ep tot l'
  end.

(** The two states agree on the episode counters, which only the head
    of an iteration and "Handle episode completion" write. *)
Definition same_episode {X : externals} (s s' : loop_state X) : Prop :=
  episode_num s' = episode_num s
  /\ episode_timesteps s' = episode_timesteps s.

(** An invocation the loop makes in the course of an iteration: of the
    agent's training update, with the size of the memory it is given,
    or of the evaluation runner. *)
Inductive invocation : Type :=
| Update (memory_size : Z) (batch : option Z)
| Evaluation (episodes total_step_counter : Z).

Definition invocations {X : externals} (tr : list (event X))
    : list invocation :=
  flat_map (fun ev => match ev with
                      | TrainPolicy n b => [Update n b]
                      | EvaluatePolicy e t => [Evaluation e t]
                      | _ => []
                      end) tr.

(** The invocations of a trace, each with the iteration it was made in:
    the number of steps reported as completed before it, counted from
    [completed]. *)
Fixpoint by_iteration {X : externals} (completed : Z) (tr : list (event X))
    : list (Z * invocation) :=
  match tr with
  | [] => []
  | TrainPolicy n b :: tr' =>
      (completed, Update n b) :: by_iteration completed tr'
  | EvaluatePolicy e t :: tr' =>
      (completed, Evaluation e t) :: by_iteration completed tr'
  | UpdateStep _ :: tr' => by_iteration (completed + 1) tr'
  | _ :: tr' => by_iteration completed tr'
  end.

Definition is_update (c : Z * invocation) : bool :=
  match snd c with Update _ _ => true | Evaluation _ _ => false end.

Definition is_evaluation (c : Z * invocation) : bool :=
  match snd c with Update _ _ => false | Evaluation _ _ => true end.

(** What the source allows in iteration [fst c]: an update of the
    batch-policy agent when the step count is a multiple of
    [max_steps_per_batch]; an update of an off-policy agent when the
    family's gate is open, on a memory of one transition per iteration
    so far; an evaluation when the step count is a multiple of
    [evaluation_interval], with the iteration's counter. *)
Definition scheduled (cfg : config) (c : Z * invocation) : Prop :=
  match snd c with
  | Update n b =>
      if is_ppo cfg then batch_due cfg (fst c) = true /\ b = None
      else gateb cfg (fst c) = true /\ n = fst c + 1
           /\ b = Some (batch_size cfg)
  | Evaluation e t =>
      eval_due cfg (fst c) = true /\ t = fst c
      /\ e = number_eval_episodes cfg
  end.

(** The updates the source makes in iteration [t] when none raises, as
    (iteration, batch) pairs. *)
Definition updates_due (cfg : config) (t : Z) : list (Z * option Z) :=
  if is_ppo cfg then (if batch_due cfg t then [(t, None)] else [])
  else if gateb cfg t then
    repeat (t, Some (batch_size cfg)) (Z.to_nat (G cfg))
  else [].

(** The iteration and the batch size of an update. *)
Definition update_batch (c : Z * invocation) : Z * option Z :=
  (fst c, match snd c with Update _ b => b | Evaluation _ _ => None end).

(** The platforms [create_environment_instance] knows. *)
Definition supported_platform (name : string) : bool :=
  String.eqb name "Gymnasium" || String.eqb name "MuJoCo"
  || String.eqb name "DMCS".

End TrainingLoop.

(** ** The training thread ([GUI/ui_utils.py]) *)

Module UI.
Import TrainingLoop.

(** The fields of a [TrainingThread]; its [training_window] is the
    observer whose calls make up the trace. *)
Record TrainingThread : Type := mk_thread {
  config_data : config;
  log_folder : string;
  _is_running : bool
}.

(** [TrainingThread.__init__] *)
Definition init (cfg : config) (folder : string) : TrainingThread :=
  mk_thread cfg folder true.

(** [TrainingThread.stop] *)
Definition stop (self : TrainingThread) : TrainingThread :=
  mk_thread (config_data self) (log_folder self) false.

Section Thread.
Variable X : externals.

(** [TrainingThread.run], after its own [print]: the loop receives the
    value [self._is_running] has when the call is made. *)
Definition run (self : TrainingThread) : result X :=
  training_loop X (config_data self) (log_folder self) (_is_running self).

(** The lines [run] writes to the standard output: its own, then those
    of the loop. *)
Definition stdout (self : TrainingThread) : list string :=
  "Training thread started" :: prints (events (run self)).

(** The loop of [run] next to a controller that holds the thread object:
    [stops t] tells whether the controller's [stop()] takes place right
    before the loop head of iteration [t].  [stop()] writes the field of
    the shared object; the loop head reads the parameter [is_running],
    a [bool] that was passed by value. *)
Fixpoint for_loop_shared (cfg : config) (stops : Z -> bool)
    (self : TrainingThread) (is_running : bool) (ts : list Z)
    (s : loop_state X) : TrainingThread * (loop_state X * loop_exit) :=
  match ts with
  | [] => (self, (s, Exhausted))
  | total_step_counter :: ts' =>
      let self1 := if stops total_step_counter then stop self else self in
      if negb is_running then
        (self1,
         (emit [Print "Training loop interrupted. Exiting..."] s,
          Interrupted))
      else
        match body X cfg total_step_counter s with
        | (s', None) => for_loop_shared cfg stops self1 is_running ts' s'
        | (s', Some e) => (self1, (s', Raised e))
        end
  end.

(** [run] with the controller acting on the shared thread object. *)
Definition run_shared (stops : Z -> bool) (self : TrainingThread)
    : TrainingThread * result X :=
  let cfg := config_data self in
  let is_running := _is_running self in
  match setup X cfg (log_folder self) with
  | inr e => (self, Failed e None)
  | inl s0 =>
      let '(self', r) :=
        for_loop_shared cfg stops self is_running
          (range (steps_training cfg)) s0 in
      (self', conclude X r)
  end.
End Thread.

End UI.

(** ** A stub world for running the loop on concrete inputs

    The environment counts its steps, pays reward 1 and signals [done]
    at its 4th and 9th step; the agent counts its training updates; the
    random number generator always returns one half; an evaluation
    returns one row per requested episode, keyed by the step counter. *)

Module Stub.
Import TrainingLoop.

Definition stub_env_step (e : Z) (a : unit) : (unit * Q * bool * bool) * Z :=
  ((tt, 1%Q, (e + 1 =? 4) || (e + 1 =? 9), false), e + 1).

(** The algorithm packages of the stub world, each defining its class. *)
Definition stub_import_module (name : string) : option (list string) :=
  option_map (fun algorithm => [algorithm])
    (List.find
       (fun algorithm => String.eqb name ("RL_algorithms." +:+ algorithm))
       ["DDPG"; "DQN"; "PPO"; "SAC"]).

Definition world : externals :=
  mk_externals unit unit unit Z Z unit unit Z
    (fun _ => tt)
    stub_import_module
    (fun _ _ _ _ => inl 0)
    (fun _ _ => inl 0)
    (fun _ _ => None)
    (fun _ _ => inl tt)
    (fun e => (tt, e))
    stub_env_step
    (fun e => (tt, e))
    (fun r => ((1 # 2)%Q, r))
    (fun a _ r => ((tt, tt), r))
    (fun a _ _ r => ((a + 1, r), None))
    (fun a _ r => ((a + 1, [], r), None))
    (fun e a n l t _ =>
       ((e, l), map (fun i => (t, Z.of_nat i)) (seq 0 (Z.to_nat n))))
    (fun l _ _ _ _ => l).

(** The end-to-end configuration of the specification's test list, for
    an algorithm of the given name. *)
Definition cfg_for (name : string) : config :=
  mk_config name "Gymnasium" "stub" 0 10 5 1000 2 4
    (1 # 10)%Q (1 # 2)%Q 1 2 3.

(** An off-policy configuration that starts its updates at once:
    no exploration steps, batches of two. *)
Definition cfg_eager : config :=
  mk_config "DDPG" "Gymnasium" "stub" 0 3 5 1000 2 4
    (1 # 10)%Q (1 # 2)%Q 1 2 0.

(** A DQN configuration whose decay factor exceeds one. *)
Definition cfg_steep : config :=
  mk_config "DQN" "Gymnasium" "stub" 0 10 5 1000 2 4
    3%Q 2%Q 1 2 3.

(** A DQN configuration whose decay factor is negative. *)
Definition cfg_negative_decay : config :=
  mk_config "DQN" "Gymnasium" "stub" 0 10 5 1000 2 4
    (1 # 10)%Q (-1)%Q 1 2 3.

(** The end-to-end configuration on a platform the loop does not know. *)
Definition cfg_unknown_platform : config :=
  mk_config "DDPG" "Unity" "stub" 0 10 5 1000 2 4
    (1 # 10)%Q (1 # 2)%Q 1 2 3.

(** The end-to-end configuration with a budget of a hundred steps. *)
Definition cfg_hundred : config :=
  mk_config "DDPG" "Gymnasium" "stub" 0 100 5 1000 2 4
    (1 # 10)%Q (1 # 2)%Q 1 2 3.

(** The end-to-end configuration with an evaluation interval of zero. *)
Definition cfg_no_interval : config :=
  mk_config "DDPG" "Gymnasium" "stub" 0 10 0 1000 2 4
    (1 # 10)%Q (1 # 2)%Q 1 2 3.

(** The end-to-end configuration with two updates per step. *)
Definition cfg_two_updates : config :=
  mk_config "DDPG" "Gymnasium" "stub" 0 10 5 1000 2 4
    (1 # 10)%Q (1 # 2)%Q 2 2 3.

End Stub.

(** ** The algorithm selection window
    ([GUI/select_multiple_algorithm_window.py])

    A row widget is identified by the number of row widgets created
    before it; a combo box by its current text.  Styles and geometry are
    left out.  The configuration file is the content
    [config/config_algorithm.yaml] has when it is opened, [None] when
    the file does not exist; it is taken to hold a mapping whose
    ["algorithms"], if present, is a list of mappings. *)

Module SelectMultipleAlgorithmWindow.

Inductive error : Type :=
| KeyError (key : string).

Section Window.
Variable Value : Type.
Local Abbreviation dict := (gmap string Value).

(** An entry of the file's ["algorithms"] list. *)
Record entry : Type := mk_entry {
  name : option string;
  hyperparameters : option dict
}.

Record yaml : Type := mk_yaml {
  algorithms : option (list entry)
}.

(** An element of [self.selection_rows]; [remove_button] tells whether
    the row was given a "Remove" button when it was built. *)
Record row : Type := mk_row {
  widget : nat;
  combo : string;
  use_default : bool;
  remove_button : bool
}.

(** An element of the list stored under ["Algorithms"]. *)
Record selection : Type := mk_selection {
  Algorithm : string;
  Hyperparameters : dict
}.

(** The window: [custom_window] is the open hyperparameter window, with
    the algorithm it was opened for and the row its callback saves to (a
    later "Custom" replaces it); [created] counts the row widgets built
    so far. *)
Record t : Type := mk_window {
  selection_rows : list row;
  custom_hyperparams : gmap nat dict;
  available_algorithms : list string;
  custom_window : option (string * nat);
  created : nat
}.

(** [[algo["name"] for algo in entries]] *)
Fixpoint names (entries : list entry) : list string + error :=
  match entries with
  | [] => inl []
  | algo :: rest =>
      match name algo with
      | None => inr (KeyError "name")
      | Some n =>
          match names rest with
          | inl l => inl (n :: l)
          | inr e => inr e
          end
      end
  end.

(** [load_algorithms] *)
Definition load_algorithms (file : option yaml) : list string + error :=
  match file with
  | Some config => names (default [] (algorithms config))
  | None => inl []
  end.

(** [add_algorithm_selection]: a fresh combo box shows its first item,
    or nothing when it has no items. *)
Definition add_algorithm_selection (self : t) : t :=
  let row_widget := created self in
  let algo_combo := hd "" (available_algorithms self) in
  let remove_button := (2 <=? length (selection_rows self))%nat in
  mk_window
    (selection_rows self
     ++ [mk_row row_widget algo_combo true remove_button])
    (custom_hyperparams self) (available_algorithms self)
    (custom_window self) (S (created self)).

(** [__init__] *)
Definition init (file : option yaml) : t + error :=
  match load_algorithms file with
  | inr e => inr e
  | inl available =>
      inl (add_algorithm_selection
             (add_algorithm_selection (mk_window [] ∅ available None 0)))
  end.

(** [for row in self.selection_rows:
       if row["widget"] == row_widget: ...remove(row); break]
    ([list.remove] drops the first element equal to [row], which is the
    first row of this widget, that is [row] itself). *)
Fixpoint remove_row (row_widget : nat) (rows : list row) : list row :=
  match rows with
  | [] => []
  | r :: rest =>
      if Nat.eqb (widget r) row_widget then rest
      else r :: remove_row row_widget rest
  end.

(** [remove_algorithm_selection] *)
Definition remove_algorithm_selection (row_widget : nat) (self : t) : t :=
  mk_window (remove_row row_widget (selection_rows self))
    (custom_hyperparams self) (available_algorithms self)
    (custom_window self) (created self).

(** [for row in self.selection_rows:
       if row["widget"] == row_widget:
           row["use_default"] = use_default; break] *)
Fixpoint mark_row (row_widget : nat) (v : bool) (rows : list row)
    : list row :=
  match rows with
  | [] => []
  | r :: rest =>
      if Nat.eqb (widget r) row_widget then
        mk_row (widget r) (combo r) v (remove_button r) :: rest
      else r :: mark_row row_widget v rest
  end.

(** [set_hyper_choice] *)
Definition set_hyper_choice (row_widget : nat) (v : bool) (self : t) : t :=
  mk_window (mark_row row_widget v (selection_rows self))
    (custom_hyperparams self) (available_algorithms self)
    (custom_window self) (created self).

(** [open_custom_hyperparams] *)
Definition open_custom_hyperparams (algorithm : string) (row_widget : nat)
    (self : t) : t :=
  mk_window (mark_row row_widget false (selection_rows self))
    (custom_hyperparams self) (available_algorithms self)
    (Some (algorithm, row_widget)) (created self).

(** [for i, row in enumerate(self.selection_rows):
       if row["widget"] == row_widget:
           self.custom_hyperparams[i] = hyperparameters],
    from index [i] on. *)
Fixpoint save_rows (row_widget : nat) (hp : dict) (i : nat)
    (rows : list row) (custom : gmap nat dict) : gmap nat dict :=
  match rows with
  | [] => custom
  | r :: rest =>
      save_rows row_widget hp (S i) rest
        (if Nat.eqb (widget r) row_widget then <[i := hp]> custom
         else custom)
  end.

(** [save_custom_params] *)
Definition save_custom_params (row_widget : nat) (hp : dict) (self : t)
    : t :=
  mk_window (selection_rows self)
    (save_rows row_widget hp 0 (selection_rows self)
       (custom_hyperparams self))
    (available_algorithms self) (custom_window self) (created self).

(** [for algo in entries:
       if algo["name"] == algo_name:
           hyperparams = algo.get("hyperparameters", {}); break],
    from [hyperparams = {}]. *)
Fixpoint default_hyperparameters (entries : list entry)
    (algo_name : string) : dict + error :=
  match entries with
  | [] => inl ∅
  | algo :: rest =>
      match name algo with
      | None => inr (KeyError "name")
      | Some n =>
          if String.eqb n algo_name then
            inl (default ∅ (hyperparameters algo))
          else default_hyperparameters rest algo_name
      end
  end.

(** The body of the loop of [confirm_selection], for the rows from
    index [i] on. *)
Fixpoint selections_from (file : option yaml)
    (custom : gmap nat dict) (i : nat) (rows : list row)
    : list selection + error :=
  match rows with
  | [] => inl []
  | r :: rest =>
      let algo_name := combo r in
      let hyperparams :=
        if use_default r then
          match file with
          | Some config =>
              default_hyperparameters (default [] (algorithms config))
                algo_name
          | None => inl ∅
          end
        else inl (default ∅ (custom !! i)) in
      match hyperparams with
      | inr e => inr e
      | inl hp =>
          match selections_from file custom (S i) rest with
          | inl l => inl (mk_selection algo_name hp :: l)
          | inr e => inr e
          end
      end
  end.

(** What "Next" comes to: an exception, the "Selection Required"
    warning, or the list stored under ["Algorithms"] before the platform
    window opens. *)
Inductive outcome : Type :=
| Raised (e : error)
| Warned
| Confirmed (selections : list selection).

(** [confirm_selection] *)
Definition confirm_selection (file : option yaml) (self : t) : outcome :=
  match selections_from file (custom_hyperparams self) 0
          (selection_rows self) with
  | inr e => Raised e
  | inl [] => Warned
  | inl selections => Confirmed selections
  end.

(** The texts a combo box with these items can show. *)
Definition shown (items : list string) (text : string) : Prop :=
  match items with
  | [] => text = ""
  | _ :: _ => In text items
  end.

(** The shape of the window between two user actions: the first two
    rows have no "Remove" button, no two rows share a widget, every
    widget was created by the window, and every combo box shows one of
    its items. *)
Definition consistent (self : t) : Prop :=
  (exists r0 r1 rest,
      selection_rows self = r0 :: r1 :: rest
      /\ remove_button r0 = false /\ remove_button r1 = false)
  /\ NoDup (map widget (selection_rows self))
  /\ Forall (fun r => (widget r < created self)%nat) (selection_rows self)
  /\ Forall (fun r => shown (available_algorithms self) (combo r))
       (selection_rows self).

(** The first row of a widget. *)
Definition find_row (row_widget : nat) (self : t) : option row :=
  List.find (fun r => Nat.eqb (widget r) row_widget) (selection_rows self).

Fixpoint choose_row (row_widget : nat) (text : string) (rows : list row)
    : list row :=
  match rows with
  | [] => []
  | r :: rest =>
      if Nat.eqb (widget r) row_widget then
        mk_row (widget r) text (use_default r) (remove_button r) :: rest
      else r :: choose_row row_widget text rest
  end.

(** What the user can do with the window's controls: press "Add
    Algorithm"; press "Yes", "Custom" or "Remove" in a row; pick an item
    in a row's combo box; submit the open hyperparameter window. *)
Inductive action : Type :=
| AddAlgorithm
| Yes (row_widget : nat)
| Custom (row_widget : nat)
| Remove (row_widget : nat)
| Pick (row_widget : nat) (text : string)
| Submit (hyperparameters : dict).

(** The control exists: the row is on display (with a "Remove" button,
    for [Remove]), the text is an item of the combo box, a
    hyperparameter window has been opened. *)
Definition possible (self : t) (a : action) : bool :=
  match a with
  | AddAlgorithm => true
  | Yes w | Custom w => bool_decide (is_Some (find_row w self))
  | Remove w =>
      match find_row w self with
      | Some r => remove_button r
      | None => false
      end
  | Pick w text =>
      bool_decide (is_Some (find_row w self))
      && existsb (String.eqb text) (available_algorithms self)
  | Submit _ => bool_decide (is_Some (custom_window self))
  end.

(** The slot connected to the control. *)
Definition slot (self : t) (a : action) : t :=
  match a with
  | AddAlgorithm => add_algorithm_selection self
  | Yes w => set_hyper_choice w true self
  | Custom w =>
      match find_row w self with
      | Some r => open_custom_hyperparams (combo r) w self
      | None => self
      end
  | Remove w => remove_algorithm_selection w self
  | Pick w text =>
      mk_window (choose_row w text (selection_rows self))
        (custom_hyperparams self) (available_algorithms self)
        (custom_window self) (created self)
  | Submit hp =>
      match custom_window self with
      | Some (_, w) => save_custom_params w hp self
      | None => self
      end
  end.

Definition act (self : t) (a : action) : t :=
  if possible self a then slot self a else self.

(** The window after a session of user actions. *)
Definition session (self : t) (actions : list action) : t :=
  fold_left act actions self.

End Window.

Arguments mk_entry {Value}.
Arguments name {Value}.
Arguments hyperparameters {Value}.
Arguments mk_yaml {Value}.
Arguments algorithms {Value}.
Arguments mk_selection {Value}.
Arguments Algorithm {Value}.
Arguments Hyperparameters {Value}.
Arguments mk_window {Value}.
Arguments selection_rows {Value}.
Arguments custom_hyperparams {Value}.
Arguments available_algorithms {Value}.
Arguments custom_window {Value}.
Arguments created {Value}.
Arguments names {Value}.
Arguments load_algorithms {Value}.
Arguments add_algorithm_selection {Value}.
Arguments init {Value}.
Arguments remove_algorithm_selection {Value}.
Arguments set_hyper_choice {Value}.
Arguments open_custom_hyperparams {Value}.
Arguments save_rows {Value}.
Arguments save_custom_params {Value}.
Arguments default_hyperparameters {Value}.
Arguments selections_from {Value}.
Arguments Raised {Value}.
Arguments Warned {Value}.
Arguments Confirmed {Value}.
Arguments confirm_selection {Value}.
Arguments find_row {Value}.
Arguments consistent {Value}.
Arguments AddAlgorithm {Value}.
Arguments Yes {Value}.
Arguments Custom {Value}.
Arguments Remove {Value}.
Arguments Pick {Value}.
Arguments Submit {Value}.
Arguments possible {Value}.
Arguments slot {Value}.
Arguments act {Value}.
Arguments session {Value}.

End SelectMultipleAlgorithmWindow.

(** ** The environment selection window
    ([GUI/select_environment_window.py]) *)

Module SelectEnvironmentWindow.

Inductive error : Type :=
| KeyError (key : string).

(** An entry of ["platforms"] in [config/config_platform.yaml]. *)
Record platform_entry : Type := mk_platform {
  environments : option (list string);
  discrete_environments : option (list string)
}.

Record yaml : Type := mk_yaml {
  platforms : option (gmap string platform_entry)
}.

Section Window.
Variable Value : Type.

(** The value under ["Algorithms"]: [load_environments] compares it
    with a string; the algorithm selection window stores a list. *)
Inductive algorithms_value : Type :=
| Str (s : string)
| Selections (l : list (SelectMultipleAlgorithmWindow.selection Value)).

(** The dictionary the windows hand on, with its keys ["Algorithms"],
    ["selected_platform"] and ["selected_environment"]. *)
Record user_selections : Type := mk_selections {
  Algorithms : option algorithms_value;
  selected_platform_key : option string;
  selected_environment_key : option string
}.

Record t : Type := mk_window {
  selections : user_selections;
  algorithm_selected : algorithms_value;
  selected_platform : string;
  env_combo_items : list string;
  env_combo : string
}.

(** [self.algorithm_selected == "DQN"]: a list never equals a string. *)
Definition is_dqn (v : algorithms_value) : bool :=
  match v with
  | Str s => String.eqb s "DQN"
  | Selections _ => false
  end.

(** [load_environments] *)
Definition load_environments (file : option yaml)
    (algorithm_selected : algorithms_value) (platform : string)
    : list string :=
  match file with
  | Some config =>
      let platforms := default ∅ (platforms config) in
      let entry := default (mk_platform None None) (platforms !! platform) in
      if is_dqn algorithm_selected then
        default [] (discrete_environments entry)
      else default [] (environments entry)
  | None => []
  end.

(** [__init__] *)
Definition init (file : option yaml) (selections : user_selections)
    : t + error :=
  match Algorithms selections with
  | None => inr (KeyError "Algorithms")
  | Some algorithm_selected =>
      match selected_platform_key selections with
      | None => inr (KeyError "selected_platform")
      | Some platform =>
          let environments :=
            load_environments file algorithm_selected platform in
          inl (mk_window selections algorithm_selected platform
                 environments (hd "" environments))
      end
  end.

(** [confirm_selection]: the dictionary handed to the training window. *)
Definition confirm_selection (self : t) : user_selections :=
  mk_selections (Algorithms (selections self))
    (selected_platform_key (selections self)) (Some (env_combo self)).

End Window.

Arguments Str {Value}.
Arguments Selections {Value}.
Arguments mk_selections {Value}.
Arguments Algorithms {Value}.
Arguments selected_platform_key {Value}.
Arguments selected_environment_key {Value}.
Arguments mk_window {Value}.
Arguments selections {Value}.
Arguments algorithm_selected {Value}.
Arguments selected_platform {Value}.
Arguments env_combo_items {Value}.
Arguments env_combo {Value}.
Arguments is_dqn {Value}.
Arguments load_environments {Value}.
Arguments init {Value}.
Arguments confirm_selection {Value}.

End SelectEnvironmentWindow.

(** ** Configuration files for running the windows on concrete inputs *)

Module StubFiles.

(** An algorithm file with two entries, the second without
    hyperparameters. *)
Definition algorithm_file : option (SelectMultipleAlgorithmWindow.yaml Q) :=
  Some (SelectMultipleAlgorithmWindow.mk_yaml
          (Some [SelectMultipleAlgorithmWindow.mk_entry (Some "DDPG")
                   (Some {[ "gamma" := (99 # 100)%Q ]});
                 SelectMultipleAlgorithmWindow.mk_entry (Some "DQN") None])).

(** What a user enters in the hyperparameter window. *)
Definition entered : gmap string Q := {[ "gamma" := (1 # 2)%Q ]}.

End StubFiles.

(** * Properties *)

(** ** Soft synchronisation *)

Lemma soft_update_length (tau : Q) (source target : params) :
  length (soft_update tau source target) = length target.
Proof.
  revert target; induction source as [|p source IH]; intros [|t target];
    simpl; auto.
Qed.

Lemma soft_update_lookup (tau : Q) (source target : params) (i : nat)
    (p t : Q) :
  source !! i = Some p -> target !! i = Some t ->
  soft_update tau source target !! i = Some (tau * p + (1 - tau) * t)%Q.
Proof.
  revert target i; induction source as [|p0 source IH];
    intros [|t0 target] [|i]; simpl; try discriminate.
  - intros [= ->] [= ->]; reflexivity.
  - apply IH.
Qed.

Lemma soft_update_beyond (tau : Q) (source target : params) (i : nat) :
  source !! i = None ->
  soft_update tau source target !! i = target !! i.
Proof.
  revert target i; induction source as [|p0 source IH];
    intros [|t0 target] [|i]; simpl; try discriminate; auto.
Qed.

Lemma soft_update_zero (tau : Q) (source target : params) :
  tau == 0 -> params_eq (soft_update tau source target) target.
Proof.
  intros Htau; revert target; induction source as [|p source IH];
    intros [|t target]; simpl.
  - constructor.
  - apply Forall2_same_length_lookup_2; [reflexivity|].
    intros i x y Hx Hy; rewrite Hx in Hy; injection Hy as ->; reflexivity.
  - constructor.
  - constructor; [rewrite Htau; ring | apply IH].
Qed.

Lemma soft_update_one (tau : Q) (source target : params) :
  tau == 1 -> length source = length target ->
  params_eq (soft_update tau source target) source.
Proof.
  intros Htau; revert target; induction source as [|p source IH];
    intros [|t target]; simpl; try discriminate.
  - constructor.
  - intros [= Hlen]; constructor; [rewrite Htau; ring | apply IH, Hlen].
Qed.

(** ** DQN: the hard synchronisation of the target network *)

Section DQNProperties.
Variables (Memory Batch Opt : Type).
Variable sample_experience : Memory -> Z -> Batch.
Variable gradient_step :
  Opt -> params -> params -> Q -> Batch -> Z -> Opt * params.

Let train := DQN.train_policy sample_experience gradient_step.
Let train_times := DQN.train_policy_times sample_experience gradient_step.

Lemma dqn_train_counter (self : DQN.t Opt) (memory : Memory) (b : Z) :
  DQN.learn_counter (fst (train self memory b)) = DQN.learn_counter self + 1.
Proof.
  unfold train, DQN.train_policy.
  destruct (gradient_step _ _ _ _ _ _) as [opt' net'].
  destruct (DQN.target_update_freq self =? 0);
    [|destruct (_ mod _ =? 0)]; reflexivity.
Qed.

Lemma dqn_train_freq (self : DQN.t Opt) (memory : Memory) (b : Z) :
  DQN.target_update_freq (fst (train self memory b))
  = DQN.target_update_freq self.
Proof.
  unfold train, DQN.train_policy.
  destruct (gradient_step _ _ _ _ _ _) as [opt' net'].
  destruct (DQN.target_update_freq self =? 0);
    [|destruct (_ mod _ =? 0)]; reflexivity.
Qed.

Lemma dqn_train_times_counter (n : nat) (self : DQN.t Opt)
    (memory : Memory) (b : Z) :
  snd (train_times n self memory b) = None ->
  DQN.learn_counter (fst (train_times n self memory b))
  = DQN.learn_counter self + Z.of_nat n.
Proof.
  revert self; induction n as [|n IH]; intros self; simpl.
  - intros _; lia.
  - pose proof (dqn_train_counter self memory b) as Hc.
    fold train. destruct (train self memory b) as [self' [e|]]; simpl in *.
    + discriminate.
    + intros H; fold train_times; rewrite (IH self' H); lia.
Qed.

Lemma dqn_train_times_total (n : nat) (self : DQN.t Opt)
    (memory : Memory) (b : Z) :
  DQN.target_update_freq self <> 0 ->
  snd (train_times n self memory b) = None.
Proof.
  revert self; induction n as [|n IH]; intros self Hf; simpl; [reflexivity|].
  pose proof (dqn_train_freq self memory b) as Hfreq.
  fold train. unfold train, DQN.train_policy in *.
  destruct (gradient_step _ _ _ _ _ _) as [opt' net'].
  apply Z.eqb_neq in Hf as Hf'; rewrite Hf' in *.
  destruct (_ mod _ =? 0); simpl in *; apply IH; simpl; assumption.
Qed.

(** C5. One call of DQN's [train_policy] adds exactly one to the
    learning-step counter, whatever else happens; it changes the target
    network only if the new counter is a multiple of [target_update_freq];
    and when the new counter is such a multiple (of a non-zero frequency)
    the target becomes the online network the same call has just updated.
    The call takes neither the environment-step counter nor [G]: any [n]
    calls in a row that do not raise advance the counter by [n], and with a
    non-zero frequency no call raises. *)
Theorem dqn_hard_sync_cadence :
  forall (self : DQN.t Opt) (memory : Memory) (batch_size : Z),
    let self' := fst (train self memory batch_size) in
    DQN.learn_counter self' = DQN.learn_counter self + 1
    /\ DQN.net self'
       = snd (gradient_step (DQN.optimiser self) (DQN.net self)
                (DQN.target_net self) (DQN.gamma self)
                (sample_experience memory batch_size) batch_size)
    /\ (DQN.target_net self' <> DQN.target_net self ->
        DQN.target_update_freq self <> 0
        /\ (DQN.target_update_freq self | DQN.learn_counter self'))
    /\ (DQN.target_update_freq self <> 0 ->
        (DQN.target_update_freq self | DQN.learn_counter self') ->
        DQN.target_net self' = DQN.net self'
        /\ snd (train self memory batch_size) = None)
    /\ (forall n : nat,
          snd (train_times n self memory batch_size) = None ->
          DQN.learn_counter (fst (train_times n self memory batch_size))
          = DQN.learn_counter self + Z.of_nat n)
    /\ (forall n : nat,
          DQN.target_update_freq self <> 0 ->
          snd (train_times n self memory batch_size) = None).
Proof.
  intros self memory b self'.
  split; [apply dqn_train_counter|].
  split; [|split; [|split; [|split]]].
  - subst self'; unfold train, DQN.train_policy.
    destruct (gradient_step _ _ _ _ _ _) as [opt' net'].
    destruct (DQN.target_update_freq self =? 0);
      [|destruct (_ mod _ =? 0)]; reflexivity.
  - subst self'; unfold train, DQN.train_policy.
    destruct (gradient_step _ _ _ _ _ _) as [opt' net'].
    destruct (DQN.target_update_freq self =? 0) eqn:Hf; simpl.
    + intros H; contradiction H; reflexivity.
    + apply Z.eqb_neq in Hf.
      destruct (_ mod _ =? 0) eqn:Hm; simpl.
      * intros _; split; [assumption|].
        apply Z.eqb_eq in Hm. apply Z.mod_divide; assumption.
      * intros H; contradiction H; reflexivity.
  - subst self'; unfold train, DQN.train_policy.
    destruct (gradient_step _ _ _ _ _ _) as [opt' net'].
    intros Hf.
    apply Z.eqb_neq in Hf as Hf'; rewrite Hf'.
    destruct (_ mod _ =? 0) eqn:Hm; simpl; intros Hdiv.
    + split; reflexivity.
    + apply Z.eqb_neq in Hm. apply Z.mod_divide in Hdiv; [|assumption].
      contradiction.
  - intros n; apply dqn_train_times_counter.
  - intros n; apply dqn_train_times_total.
Qed.
End DQNProperties.

(** ** DDPG and SAC: the soft synchronisation of the targets *)

Lemma ddpg_train_targets (Memory Batch States Opt : Type)
    (sample_experience : Memory -> Z -> Batch)
    (batch_states : Batch -> States)
    (critic_step :
       Opt -> params -> params -> params -> Q -> Batch -> Opt * params * Q)
    (actor_step : Opt -> params -> params -> States -> Opt * params * Q)
    (self : DDPG.t Opt) (memory : Memory) (batch_size : Z) :
  let self' :=
    DDPG.train_policy sample_experience batch_states critic_step actor_step
      self memory batch_size in
  DDPG.target_critic_net self'
  = soft_update (DDPG.tau self) (DDPG.critic_net self')
      (DDPG.target_critic_net self)
  /\ DDPG.target_actor_net self'
     = soft_update (DDPG.tau self) (DDPG.actor_net self')
         (DDPG.target_actor_net self).
Proof.
  unfold DDPG.train_policy, DDPG._update_actor, DDPG._update_critic.
  destruct (critic_step _ _ _ _ _ _) as [[opt_c critic'] loss_c]; simpl.
  destruct (actor_step _ _ _ _) as [[opt_a actor'] loss_a]; simpl.
  split; reflexivity.
Qed.

Lemma sac_train_target (Memory Obs Act Noise Opt : Type)
    (sample_experience : Memory -> Z -> SAC.batch Obs Act)
    (actor_forward : params -> Obs -> Noise -> Act * Q * Act)
    (critic_forward : params -> Obs -> Act -> Q * Q)
    (exp : Q -> Q)
    (optimiser_step : Opt -> (params -> Q) -> params -> Opt * params)
    (scalar_optimiser_step : Opt -> (Q -> Q) -> Q -> Opt * Q)
    (self : SAC.t Opt) (memory : Memory) (batch_size : Z)
    (eps_next eps_cur : list Noise) :
  SAC.policy_update_freq self = 1 ->
  let r :=
    SAC.train_policy sample_experience actor_forward critic_forward exp
      optimiser_step scalar_optimiser_step self memory batch_size eps_next
      eps_cur in
  snd r = None
  /\ SAC.target_critic_net (fst r)
     = soft_update (SAC.tau self) (SAC.critic_net (fst r))
         (SAC.target_critic_net self).
Proof.
  intros Hfreq.
  unfold SAC.train_policy, SAC._update_actor_alpha, SAC._update_critic.
  destruct (optimiser_step _ _ _) as [opt_c critic']; simpl.
  destruct (optimiser_step _ _ _) as [opt_a actor']; simpl.
  destruct (scalar_optimiser_step _ _ _) as [opt_l la']; simpl.
  rewrite Hfreq; simpl. rewrite Z.mod_1_r; simpl.
  split; reflexivity.
Qed.

(** C6. The soft synchronisation sets each target entry that has a source
    entry to [tau * source + (1 - tau) * target]; with [tau = 1] each such
    entry is the source entry, with [tau = 0] the whole target is as it
    was.  DDPG's [train_policy] applies it to the critic target and to the
    actor target, from the networks the call has just updated, and SAC's
    [train_policy] (with the [policy_update_freq] of 1 that its constructor
    sets) applies it to the critic target. *)
Theorem soft_sync_bounds :
  (forall (tau : Q) (source target : params) (i : nat) (p t : Q),
      source !! i = Some p -> target !! i = Some t ->
      exists v : Q,
        soft_update tau source target !! i = Some v
        /\ v == tau * p + (1 - tau) * t
        /\ (tau == 1 -> v == p)
        /\ (tau == 0 -> v == t))
  /\ (forall (tau : Q) (source target : params),
        tau == 1 -> length source = length target ->
        params_eq (soft_update tau source target) source)
  /\ (forall (tau : Q) (source target : params),
        tau == 0 -> params_eq (soft_update tau source target) target)
  /\ (forall (Memory Batch States Opt : Type)
        (sample_experience : Memory -> Z -> Batch)
        (batch_states : Batch -> States)
        (critic_step :
           Opt -> params -> params -> params -> Q -> Batch ->
           Opt * params * Q)
        (actor_step : Opt -> params -> params -> States -> Opt * params * Q)
        (self : DDPG.t Opt) (memory : Memory) (batch_size : Z),
        let self' :=
          DDPG.train_policy sample_experience batch_states critic_step
            actor_step self memory batch_size in
        DDPG.target_critic_net self'
        = soft_update (DDPG.tau self) (DDPG.critic_net self')
            (DDPG.target_critic_net self)
        /\ DDPG.target_actor_net self'
           = soft_update (DDPG.tau self) (DDPG.actor_net self')
               (DDPG.target_actor_net self))
  /\ (forall (Memory Obs Act Noise Opt : Type)
        (sample_experience : Memory -> Z -> SAC.batch Obs Act)
        (actor_forward : params -> Obs -> Noise -> Act * Q * Act)
        (critic_forward : params -> Obs -> Act -> Q * Q)
        (exp : Q -> Q)
        (optimiser_step : Opt -> (params -> Q) -> params -> Opt * params)
        (scalar_optimiser_step : Opt -> (Q -> Q) -> Q -> Opt * Q)
        (self : SAC.t Opt) (memory : Memory) (batch_size : Z)
        (eps_next eps_cur : list Noise),
        SAC.policy_update_freq self = 1 ->
        let r :=
          SAC.train_policy sample_experience actor_forward critic_forward
            exp optimiser_step scalar_optimiser_step self memory batch_size
            eps_next eps_cur in
        snd r = None
        /\ SAC.target_critic_net (fst r)
           = soft_update (SAC.tau self) (SAC.critic_net (fst r))
               (SAC.target_critic_net self)).
Proof.
  split; [|split; [|split; [|split]]].
  - intros tau source target i p t Hp Ht.
    exists (tau * p + (1 - tau) * t)%Q.
    split; [apply soft_update_lookup; assumption|].
    split; [reflexivity|].
    split; intros ->; ring.
  - apply soft_update_one.
  - apply soft_update_zero.
  - apply ddpg_train_targets.
  - apply sac_train_target.
Qed.

(** ** SAC: the critic update *)

Lemma map_lookup {A B : Type} (f : A -> B) (l : list A) (i : nat) :
  map f l !! i = option_map f (l !! i).
Proof.
  revert i; induction l as [|x l IH]; intros [|i]; simpl; auto.
Qed.

Section SACProperties.
Variables (Memory Obs Act Noise Opt : Type).
Variable sample_experience : Memory -> Z -> SAC.batch Obs Act.
Variable actor_forward : params -> Obs -> Noise -> Act * Q * Act.
Variable critic_forward : params -> Obs -> Act -> Q * Q.
Variable exp : Q -> Q.
Variable optimiser_step : Opt -> (params -> Q) -> params -> Opt * params.
Variable scalar_optimiser_step : Opt -> (Q -> Q) -> Q -> Opt * Q.

Let q_target := SAC.q_target actor_forward critic_forward exp (Opt := Opt).
Let _update_critic :=
  SAC._update_critic actor_forward critic_forward exp optimiser_step.
Let train_policy :=
  SAC.train_policy sample_experience actor_forward critic_forward exp
    optimiser_step scalar_optimiser_step.

Lemma sac_q_target_lookup (self : SAC.t Opt) (b : SAC.batch Obs Act)
    (eps : list Noise) (i : nat) (r d : Q) (s' : Obs) (e : Noise) :
  SAC.rewards b !! i = Some r -> SAC.dones b !! i = Some d ->
  SAC.next_states b !! i = Some s' -> eps !! i = Some e ->
  let out := actor_forward (SAC.actor_net self) s' e in
  let q := critic_forward (SAC.target_critic_net self) s' (fst (fst out)) in
  q_target self b eps !! i
  = Some (SAC.bootstrap_target (SAC.reward_scale self) (SAC.gamma self)
            (exp (SAC.log_alpha self)) r d (fst q) (snd q) (snd (fst out))).
Proof.
  intros Hr Hd Hs He out q.
  unfold q_target, SAC.q_target.
  assert (Hout : SAC.actor_batch actor_forward (SAC.actor_net self)
                   (SAC.next_states b) eps !! i = Some out).
  { apply lookup_zip_with_Some. exists s', e. auto. }
  set (next := SAC.actor_batch _ _ _ _) in *.
  assert (Hact : map (fun o => fst (fst o)) next !! i = Some (fst (fst out))).
  { rewrite map_lookup, Hout. reflexivity. }
  assert (Hlp : map (fun o => snd (fst o)) next !! i = Some (snd (fst out))).
  { rewrite map_lookup, Hout. reflexivity. }
  assert (Hq : SAC.critic_batch critic_forward (SAC.target_critic_net self)
                 (SAC.next_states b) (map (fun o => fst (fst o)) next) !! i
               = Some q).
  { apply lookup_zip_with_Some. exists s', (fst (fst out)). auto. }
  apply lookup_zip_with_Some.
  exists (r, d), (Qmin (fst q) (snd q)
                  - SAC.alpha exp self * snd (fst out))%Q.
  split; [reflexivity|]. split.
  - apply lookup_zip_with_Some. exists r, d. auto.
  - apply lookup_zip_with_Some. exists q, (snd (fst out)). auto.
Qed.

Lemma sac_update_critic_frame (self : SAC.t Opt) (b : SAC.batch Obs Act)
    (eps : list Noise) :
  let self' := fst (_update_critic self b eps) in
  SAC.actor_net self' = SAC.actor_net self
  /\ SAC.target_critic_net self' = SAC.target_critic_net self
  /\ SAC.log_alpha self' = SAC.log_alpha self
  /\ SAC.learn_counter self' = SAC.learn_counter self.
Proof.
  unfold _update_critic, SAC._update_critic.
  destruct (optimiser_step _ _ _) as [opt' critic']; simpl.
  repeat split.
Qed.

(** C7. In SAC's [_update_critic] the bootstrap target of every sampled
    transition is reward * reward_scale + gamma * (1 - done) *
    (min(Q1_target, Q2_target)(s', a') - alpha * log_pi(a'|s')), with
    alpha = exp(log_alpha) and with a' and its log-probability produced by
    the actor network itself (SAC has no target actor) at the next state;
    both critics are compared with this one target, the loss handed to the
    single step of the critic optimiser is the sum of the two mean-squared
    errors, and nothing but the critic and its optimiser changes.  The
    critic a [train_policy] call ends with is the one this update
    produced. *)
Theorem sac_critic_update :
  forall (self : SAC.t Opt) (b : SAC.batch Obs Act) (eps : list Noise),
    (forall (i : nat) (r d : Q) (s' : Obs) (e : Noise),
        SAC.rewards b !! i = Some r -> SAC.dones b !! i = Some d ->
        SAC.next_states b !! i = Some s' -> eps !! i = Some e ->
        let out := actor_forward (SAC.actor_net self) s' e in
        let q :=
          critic_forward (SAC.target_critic_net self) s' (fst (fst out)) in
        q_target self b eps !! i
        = Some (SAC.bootstrap_target (SAC.reward_scale self)
                  (SAC.gamma self) (exp (SAC.log_alpha self)) r d
                  (fst q) (snd q) (snd (fst out))))
    /\ (let target := q_target self b eps in
        let q1 theta :=
          map fst (SAC.critic_batch critic_forward theta (SAC.states b)
                     (SAC.actions b)) in
        let q2 theta :=
          map snd (SAC.critic_batch critic_forward theta (SAC.states b)
                     (SAC.actions b)) in
        let joint theta :=
          (SAC.mse_loss (q1 theta) target
           + SAC.mse_loss (q2 theta) target)%Q in
        let r := _update_critic self b eps in
        snd r
        = (SAC.mse_loss (q1 (SAC.critic_net self)) target,
           SAC.mse_loss (q2 (SAC.critic_net self)) target,
           joint (SAC.critic_net self))
        /\ (SAC.critic_net_optimiser (fst r), SAC.critic_net (fst r))
           = optimiser_step (SAC.critic_net_optimiser self) joint
               (SAC.critic_net self)
        /\ SAC.actor_net (fst r) = SAC.actor_net self
        /\ SAC.target_critic_net (fst r) = SAC.target_critic_net self
        /\ SAC.log_alpha (fst r) = SAC.log_alpha self)
    /\ (forall (memory : Memory) (batch_size : Z) (eps_cur : list Noise),
          SAC.critic_net (fst (train_policy self memory batch_size eps eps_cur))
          = SAC.critic_net
              (fst (_update_critic (SAC.bump self)
                      (sample_experience memory batch_size) eps))).
Proof.
  intros self b eps. split; [|split].
  - intros i r d s' e. apply sac_q_target_lookup.
  - cbv zeta.
    pose proof (sac_update_critic_frame self b eps) as (Ha & Ht & Hl & _).
    unfold _update_critic, SAC._update_critic in *.
    change (SAC.q_target actor_forward critic_forward exp self b eps)
      with (q_target self b eps) in *.
    unfold SAC.critic_loss_total, SAC.critic_loss_one, SAC.critic_loss_two
      in *.
    destruct (optimiser_step _ _ _) as [opt' critic'] eqn:Hstep.
    simpl in *. repeat split; try assumption.
  - intros memory batch_size eps_cur.
    unfold train_policy, SAC.train_policy, SAC._update_actor_alpha.
    destruct (optimiser_step (SAC.actor_net_optimiser _) _ _)
      as [opt_a actor'].
    destruct (scalar_optimiser_step _ _ _) as [opt_l la']; simpl.
    destruct (SAC.policy_update_freq _ =? 0); [reflexivity|].
    destruct (_ mod _ =? 0); reflexivity.
Qed.
End SACProperties.

(** ** Persisting and restoring parameters *)

Lemma append_inj_r (s a b : string) : s +:+ a = s +:+ b -> a = b.
Proof.
  induction s as [|c s IH]; simpl; [auto|].
  intros [= H]; auto.
Qed.

Lemma actor_critic_files_differ (filename : string) :
  filename +:+ "_actor.pht" <> filename +:+ "_critic.pht".
Proof. intros H; apply append_inj_r in H; discriminate. Qed.

Lemma ensured_lookup (fs : filesystem) (filepath : string) :
  ensured fs filepath !! filepath = Some (default ∅ (fs !! filepath)).
Proof.
  unfold ensured, os_path_exists, os_makedirs.
  destruct (fs !! filepath) as [d|] eqn:Hd.
  - rewrite bool_decide_eq_true_2 by eauto. simpl. assumption.
  - rewrite bool_decide_eq_false_2 by (intros [? ?]; discriminate). simpl.
    apply lookup_insert_eq.
Qed.

Lemma ensured_stored (fs : filesystem) (filepath p f : string) :
  stored (ensured fs filepath) p f = stored fs p f.
Proof.
  unfold ensured, os_path_exists, os_makedirs, stored.
  destruct (fs !! filepath) as [d|] eqn:Hd.
  - rewrite bool_decide_eq_true_2 by eauto. reflexivity.
  - rewrite bool_decide_eq_false_2 by (intros [? ?]; discriminate). simpl.
    destruct (decide (filepath = p)) as [->|Hne].
    + rewrite lookup_insert_eq, Hd. apply lookup_empty.
    + rewrite lookup_insert_ne by assumption. reflexivity.
Qed.

Lemma torch_save_present (sd : params) (filepath file : string)
    (fs : filesystem) (d : directory) :
  fs !! filepath = Some d ->
  torch_save sd filepath file fs = (<[filepath := <[file := sd]> d]> fs, None).
Proof. intros H; unfold torch_save; rewrite H; reflexivity. Qed.

Lemma torch_save_missing (sd : params) (filepath file : string)
    (fs : filesystem) :
  os_path_exists fs filepath = false ->
  torch_save sd filepath file fs = (fs, Some FileNotFoundError).
Proof.
  unfold os_path_exists, torch_save; intros H.
  apply bool_decide_eq_false_1 in H.
  destruct (fs !! filepath) eqn:Hd; [contradiction H; eauto | reflexivity].
Qed.

Lemma stored_write (fs : filesystem) (filepath file : string) (sd : params)
    (d : directory) (p f : string) :
  fs !! filepath = Some d ->
  stored (<[filepath := <[file := sd]> d]> fs) p f
  = if decide (filepath = p /\ file = f) then Some sd else stored fs p f.
Proof.
  intros Hd; unfold stored.
  destruct (decide (filepath = p)) as [->|Hp].
  - rewrite lookup_insert_eq, Hd.
    destruct (decide (file = f)) as [->|Hf].
    + rewrite lookup_insert_eq, decide_True by auto. reflexivity.
    + rewrite lookup_insert_ne, decide_False by tauto. reflexivity.
  - rewrite lookup_insert_ne, decide_False by tauto. reflexivity.
Qed.

Lemma torch_load_stored (fs : filesystem) (filepath file : string) :
  torch_load fs filepath file
  = match stored fs filepath file with
    | Some sd => inl sd
    | None => inr FileNotFoundError
    end.
Proof.
  unfold torch_load, stored. destruct (fs !! filepath); reflexivity.
Qed.

(** Saving one state dict, then a second one, into the ensured
    directory: what [save_models] of DDPG and SAC comes to. *)
Lemma save_two_files (a c : params) (fa fc filepath : string)
    (fs : filesystem) :
  fa <> fc ->
  exists fs2 : filesystem,
    match torch_save a filepath fa (ensured fs filepath) with
    | (fs1, None) => torch_save c filepath fc fs1
    | r => r
    end = (fs2, None)
    /\ is_Some (fs2 !! filepath)
    /\ forall p f,
         stored fs2 p f
         = if decide (filepath = p /\ fc = f) then Some c
           else if decide (filepath = p /\ fa = f) then Some a
           else stored fs p f.
Proof.
  intros Hne.
  pose proof (ensured_lookup fs filepath) as He.
  rewrite (torch_save_present _ _ _ _ _ He).
  set (d1 := <[fa := a]> (default ∅ (fs !! filepath))).
  set (fs1 := <[filepath := d1]> (ensured fs filepath)).
  assert (H1 : fs1 !! filepath = Some d1) by apply lookup_insert_eq.
  rewrite (torch_save_present _ _ _ _ _ H1).
  eexists; split; [reflexivity|]. split.
  - rewrite lookup_insert_eq; eauto.
  - intros p f. rewrite (stored_write _ _ _ _ _ _ _ H1).
    destruct (decide (filepath = p /\ fc = f)); [reflexivity|].
    subst fs1 d1. rewrite (stored_write _ _ _ _ _ _ _ He).
    destruct (decide (filepath = p /\ fa = f)); [reflexivity|].
    apply ensured_stored.
Qed.

Lemma dqn_save_spec (Opt : Type) (self : DQN.t Opt)
    (filename filepath : string) (fs : filesystem) :
  exists fs1 : filesystem,
    DQN.save_models self filename filepath fs = (fs1, None)
    /\ is_Some (fs1 !! filepath)
    /\ forall p f,
         stored fs1 p f
         = if decide (filepath = p /\ filename +:+ "_net.pth" = f)
           then Some (DQN.net self) else stored fs p f.
Proof.
  unfold DQN.save_models. fold (ensured fs filepath).
  pose proof (ensured_lookup fs filepath) as He.
  rewrite (torch_save_present _ _ _ _ _ He).
  eexists; split; [reflexivity|]. split.
  - rewrite lookup_insert_eq; eauto.
  - intros p f. rewrite (stored_write _ _ _ _ _ _ _ He).
    destruct (decide _); [reflexivity | apply ensured_stored].
Qed.

Lemma ddpg_load_missing (Opt : Type) (self : DDPG.t Opt)
    (filename filepath : string) (fs : filesystem) :
  stored fs filepath (filename +:+ "_actor.pht") = None
  \/ stored fs filepath (filename +:+ "_critic.pht") = None ->
  let r := DDPG.load_models self filename filepath fs in
  snd r = Some FileNotFoundError
  /\ DDPG.critic_net (fst r) = DDPG.critic_net self
  /\ (DDPG.actor_net (fst r) = DDPG.actor_net self
      \/ stored fs filepath (filename +:+ "_actor.pht")
         = Some (DDPG.actor_net (fst r)))
  /\ DDPG.target_actor_net (fst r) = DDPG.target_actor_net self
  /\ DDPG.target_critic_net (fst r) = DDPG.target_critic_net self.
Proof.
  intros H. unfold DDPG.load_models. rewrite !torch_load_stored.
  destruct (stored fs filepath (filename +:+ "_actor.pht")) as [a|];
    destruct (stored fs filepath (filename +:+ "_critic.pht")) as [c|];
    simpl; try (destruct H; discriminate); auto 10.
Qed.

Lemma sac_load_missing (Opt : Type) (self : SAC.t Opt)
    (filename filepath : string) (fs : filesystem) :
  stored fs filepath (filename +:+ "_actor.pht") = None
  \/ stored fs filepath (filename +:+ "_critic.pht") = None ->
  let r := SAC.load_models self filename filepath fs in
  snd r = Some FileNotFoundError
  /\ SAC.critic_net (fst r) = SAC.critic_net self
  /\ (SAC.actor_net (fst r) = SAC.actor_net self
      \/ stored fs filepath (filename +:+ "_actor.pht")
         = Some (SAC.actor_net (fst r))).
Proof.
  intros H. unfold SAC.load_models. rewrite !torch_load_stored.
  destruct (stored fs filepath (filename +:+ "_actor.pht")) as [a|];
    destruct (stored fs filepath (filename +:+ "_critic.pht")) as [c|];
    simpl; try (destruct H; discriminate); auto 10.
Qed.

(** C9. Restoring raises [FileNotFoundError] whenever a file it expects
    ([{filepath}/{filename}_net.pth] for DQN,
    [{filepath}/{filename}_actor.pht] and [{filepath}/{filename}_critic.pht]
    for DDPG and SAC) is absent, and what the agent then holds has no
    invented parameters: every network is as it was before the call, or
    (the actor, when only the critic file is missing) is the content of
    its file.  Persisting into a directory that does not exist creates
    the directory and writes the files without raising, while the bare
    [torch.save] into the missing directory would raise. *)
Theorem persistence_errors :
  (forall (Opt : Type) (self : DQN.t Opt) (filename filepath : string)
      (fs : filesystem),
      stored fs filepath (filename +:+ "_net.pth") = None ->
      DQN.load_models self filename filepath fs
      = (self, Some FileNotFoundError))
  /\ (forall (Opt : Type) (self : DDPG.t Opt) (filename filepath : string)
        (fs : filesystem),
        stored fs filepath (filename +:+ "_actor.pht") = None
        \/ stored fs filepath (filename +:+ "_critic.pht") = None ->
        let r := DDPG.load_models self filename filepath fs in
        snd r = Some FileNotFoundError
        /\ DDPG.critic_net (fst r) = DDPG.critic_net self
        /\ (DDPG.actor_net (fst r) = DDPG.actor_net self
            \/ stored fs filepath (filename +:+ "_actor.pht")
               = Some (DDPG.actor_net (fst r)))
        /\ DDPG.target_actor_net (fst r) = DDPG.target_actor_net self
        /\ DDPG.target_critic_net (fst r) = DDPG.target_critic_net self)
  /\ (forall (Opt : Type) (self : SAC.t Opt) (filename filepath : string)
        (fs : filesystem),
        stored fs filepath (filename +:+ "_actor.pht") = None
        \/ stored fs filepath (filename +:+ "_critic.pht") = None ->
        let r := SAC.load_models self filename filepath fs in
        snd r = Some FileNotFoundError
        /\ SAC.critic_net (fst r) = SAC.critic_net self
        /\ (SAC.actor_net (fst r) = SAC.actor_net self
            \/ stored fs filepath (filename +:+ "_actor.pht")
               = Some (SAC.actor_net (fst r))))
  /\ (forall (Opt : Type) (self : DQN.t Opt) (filename filepath : string)
        (fs : filesystem),
        os_path_exists fs filepath = false ->
        let r := DQN.save_models self filename filepath fs in
        snd r = None
        /\ os_path_exists (fst r) filepath = true
        /\ stored (fst r) filepath (filename +:+ "_net.pth")
           = Some (DQN.net self)
        /\ snd (torch_save (DQN.net self) filepath (filename +:+ "_net.pth")
                  fs) = Some FileNotFoundError)
  /\ (forall (Opt : Type) (self : DDPG.t Opt) (filename filepath : string)
        (fs : filesystem),
        os_path_exists fs filepath = false ->
        let r := DDPG.save_models self filename filepath fs in
        snd r = None
        /\ os_path_exists (fst r) filepath = true
        /\ stored (fst r) filepath (filename +:+ "_actor.pht")
           = Some (DDPG.actor_net self)
        /\ stored (fst r) filepath (filename +:+ "_critic.pht")
           = Some (DDPG.critic_net self)
        /\ snd (torch_save (DDPG.actor_net self) filepath
                  (filename +:+ "_actor.pht") fs) = Some FileNotFoundError)
  /\ (forall (Opt : Type) (self : SAC.t Opt) (filename filepath : string)
        (fs : filesystem),
        os_path_exists fs filepath = false ->
        let r := SAC.save_models self filename filepath fs in
        snd r = None
        /\ os_path_exists (fst r) filepath = true
        /\ stored (fst r) filepath (filename +:+ "_actor.pht")
           = Some (SAC.actor_net self)
        /\ stored (fst r) filepath (filename +:+ "_critic.pht")
           = Some (SAC.critic_net self)
        /\ snd (torch_save (SAC.actor_net self) filepath
                  (filename +:+ "_actor.pht") fs) = Some FileNotFoundError).
Proof.
  split; [|split; [|split; [|split; [|split]]]].
  - intros Opt self filename filepath fs H.
    unfold DQN.load_models. rewrite torch_load_stored, H. reflexivity.
  - intros; apply ddpg_load_missing; assumption.
  - intros; apply sac_load_missing; assumption.
  - intros Opt self filename filepath fs Hmiss r.
    destruct (dqn_save_spec Opt self filename filepath fs)
      as (fs1 & Hsave & Hdir & Hst).
    subst r; rewrite Hsave; simpl.
    split; [reflexivity|]. split; [apply bool_decide_eq_true_2, Hdir|].
    split; [rewrite Hst, decide_True by auto; reflexivity|].
    rewrite torch_save_missing by assumption. reflexivity.
  - intros Opt self filename filepath fs Hmiss r.
    destruct (save_two_files (DDPG.actor_net self) (DDPG.critic_net self)
                _ _ filepath fs (actor_critic_files_differ filename))
      as (fs2 & Hsave & Hdir & Hst).
    subst r; unfold DDPG.save_models; fold (ensured fs filepath).
    rewrite Hsave; simpl.
    split; [reflexivity|]. split; [apply bool_decide_eq_true_2, Hdir|].
    split; [|split].
    + rewrite Hst, decide_False, decide_True; auto.
      intros [_ H]; symmetry in H; revert H.
      apply actor_critic_files_differ.
    + rewrite Hst, decide_True; auto.
    + rewrite torch_save_missing by assumption. reflexivity.
  - intros Opt self filename filepath fs Hmiss r.
    destruct (save_two_files (SAC.actor_net self) (SAC.critic_net self)
                _ _ filepath fs (actor_critic_files_differ filename))
      as (fs2 & Hsave & Hdir & Hst).
    subst r; unfold SAC.save_models; fold (ensured fs filepath).
    rewrite Hsave; simpl.
    split; [reflexivity|]. split; [apply bool_decide_eq_true_2, Hdir|].
    split; [|split].
    + rewrite Hst, decide_False, decide_True; auto.
      intros [_ H]; symmetry in H; revert H.
      apply actor_critic_files_differ.
    + rewrite Hst, decide_True; auto.
    + rewrite torch_save_missing by assumption. reflexivity.
Qed.

Lemma sac_load_frame (Opt : Type) (self : SAC.t Opt)
    (filename filepath : string) (fs : filesystem) :
  let self' := fst (SAC.load_models self filename filepath fs) in
  SAC.target_critic_net self' = SAC.target_critic_net self
  /\ SAC.log_alpha self' = SAC.log_alpha self
  /\ SAC.log_alpha_optimizer self' = SAC.log_alpha_optimizer self
  /\ SAC.learn_counter self' = SAC.learn_counter self.
Proof.
  unfold SAC.load_models.
  destruct (torch_load fs filepath (filename +:+ "_actor.pht"));
    [destruct (torch_load fs filepath (filename +:+ "_critic.pht"))|];
    simpl; repeat split.
Qed.

Lemma sac_save_then_load (Opt : Type) (self other : SAC.t Opt)
    (filename filepath : string) (fs : filesystem) :
  let fs' := fst (SAC.save_models self filename filepath fs) in
  let r := SAC.load_models other filename filepath fs' in
  snd r = None
  /\ SAC.actor_net (fst r) = SAC.actor_net self
  /\ SAC.critic_net (fst r) = SAC.critic_net self
  /\ SAC.target_critic_net (fst r) = SAC.target_critic_net other
  /\ SAC.log_alpha (fst r) = SAC.log_alpha other.
Proof.
  destruct (save_two_files (SAC.actor_net self) (SAC.critic_net self)
              _ _ filepath fs (actor_critic_files_differ filename))
    as (fs2 & Hsave & Hdir & Hst).
  unfold SAC.save_models; fold (ensured fs filepath).
  rewrite Hsave; simpl.
  unfold SAC.load_models. rewrite !torch_load_stored, !Hst.
  rewrite decide_False, decide_True; auto.
  - rewrite decide_True by auto. simpl. repeat split.
  - intros [_ H]; symmetry in H; revert H.
    apply actor_critic_files_differ.
Qed.

(** C10. SAC's [save_models] writes the actor and the critic and nothing
    else: every other file keeps its content, and the written files do
    not depend on the target critic or on [log_alpha].  [load_models]
    leaves the target critic, [log_alpha], its optimiser and the learning
    counter as they were, however the call ends.  So saving an agent and
    loading the files into another agent gives that agent the saved actor
    and critic next to its own target critic and [log_alpha]: a freshly
    constructed agent does not become the saved one. *)
Theorem sac_persistence_frame :
  (forall (Opt : Type) (self : SAC.t Opt) (filename filepath : string)
      (fs : filesystem),
      let self' := fst (SAC.load_models self filename filepath fs) in
      SAC.target_critic_net self' = SAC.target_critic_net self
      /\ SAC.log_alpha self' = SAC.log_alpha self
      /\ SAC.log_alpha_optimizer self' = SAC.log_alpha_optimizer self
      /\ SAC.learn_counter self' = SAC.learn_counter self)
  /\ (forall (Opt : Type) (self : SAC.t Opt) (filename filepath : string)
        (fs : filesystem) (p f : string),
        let fs' := fst (SAC.save_models self filename filepath fs) in
        stored fs' p f
        = if decide (filepath = p /\ filename +:+ "_critic.pht" = f)
          then Some (SAC.critic_net self)
          else if decide (filepath = p /\ filename +:+ "_actor.pht" = f)
          then Some (SAC.actor_net self)
          else stored fs p f)
  /\ (forall (Opt : Type) (self other : SAC.t Opt)
        (filename filepath : string) (fs : filesystem),
        let fs' := fst (SAC.save_models self filename filepath fs) in
        let r := SAC.load_models other filename filepath fs' in
        snd r = None
        /\ SAC.actor_net (fst r) = SAC.actor_net self
        /\ SAC.critic_net (fst r) = SAC.critic_net self
        /\ SAC.target_critic_net (fst r) = SAC.target_critic_net other
        /\ SAC.log_alpha (fst r) = SAC.log_alpha other)
  /\ (exists (self : SAC.t unit) (fs : filesystem),
        let fresh :=
          SAC.init [0%Q] [0%Q] 1 (99 # 100) (1 # 200) (1 # 1000) (1 # 1000)
            (1 # 1000) tt tt tt in
        let fs' := fst (SAC.save_models self "sac" "models" fs) in
        let r := SAC.load_models fresh "sac" "models" fs' in
        snd r = None
        /\ SAC.target_critic_net (fst r) <> SAC.target_critic_net self
        /\ SAC.log_alpha (fst r) <> SAC.log_alpha self).
Proof.
  split; [|split; [|split]].
  - apply sac_load_frame.
  - intros Opt self filename filepath fs p f.
    destruct (save_two_files (SAC.actor_net self) (SAC.critic_net self)
                _ _ filepath fs (actor_critic_files_differ filename))
      as (fs2 & Hsave & Hdir & Hst).
    unfold SAC.save_models; fold (ensured fs filepath).
    rewrite Hsave; simpl. apply Hst.
  - apply sac_save_then_load.
  - exists (SAC.mk [0%Q] [1%Q] [(1 # 2)%Q] (99 # 100)%Q (1 # 200)%Q
              (1 # 1000)%Q (1 # 1000)%Q (1 # 1000)%Q 1%Q 7 1 (-1)
              (- (1 # 4))%Q tt tt tt), ∅.
    cbv zeta.
    pose proof (sac_save_then_load unit
                  (SAC.mk [0%Q] [1%Q] [(1 # 2)%Q] (99 # 100)%Q (1 # 200)%Q
                     (1 # 1000)%Q (1 # 1000)%Q (1 # 1000)%Q 1%Q 7 1 (-1)
                     (- (1 # 4))%Q tt tt tt)
                  (SAC.init [0%Q] [0%Q] 1 (99 # 100) (1 # 200) (1 # 1000)
                     (1 # 1000) (1 # 1000) tt tt tt)
                  "sac" "models" ∅) as (He & _ & _ & Ht & Hl).
    cbv zeta in *. split; [exact He|]. rewrite Ht, Hl. simpl.
    split; discriminate.
Qed.

(** ** The training loop *)

Import TrainingLoop.

Section LoopProperties.
Variable X : externals.
Variable cfg : config.

Lemma Forall_repeat {A : Type} (P : A -> Prop) (x : A) (n : nat) :
  P x -> Forall P (repeat x n).
Proof. intros H; induction n; simpl; constructor; auto. Qed.

Lemma call_train_policy_spec (s : loop_state X) :
  let r := call_train_policy X cfg s in
  trace (fst r)
  = trace s ++ [TrainPolicy (Z.of_nat (length (memory s)))
                  (Some (batch_size cfg))]
  /\ memory (fst r) = memory s
  /\ exploration_rate (fst r) = exploration_rate s.
Proof.
  unfold call_train_policy; simpl.
  destruct (train_policy X _ _ _ _) as [[a r] e]; simpl. auto.
Qed.

Lemma times_train_spec (n : nat) (s : loop_state X) :
  let r := times X n (call_train_policy X cfg) s in
  exists k : nat,
    trace (fst r)
    = trace s ++ repeat (TrainPolicy (Z.of_nat (length (memory s)))
                           (Some (batch_size cfg))) k
    /\ memory (fst r) = memory s
    /\ exploration_rate (fst r) = exploration_rate s.
Proof.
  revert s; induction n as [|n IH]; intros s; simpl.
  - exists O; simpl. rewrite app_nil_r. auto.
  - unfold andthen.
    pose proof (call_train_policy_spec s) as (Ht & Hm & Hr).
    destruct (call_train_policy X cfg s) as [s1 [e|]]; simpl in *.
    + exists 1%nat; simpl; auto.
    + destruct (IH s1) as (k & Ht' & Hm' & Hr').
      exists (S k). rewrite Ht', Hm', Hr', Ht, Hm, Hr. simpl.
      rewrite <- app_assoc. auto.
Qed.


Lemma train_phase_spec (t : Z) (s : loop_state X) :
  let r := train_phase X cfg t s in
  exists evs : list (event X),
    trace (fst r) = trace s ++ evs
    /\ Forall is_train evs
    /\ exploration_rate (fst r) = exploration_rate s
    /\ (is_ppo cfg = false ->
        memory (fst r) = memory s
        /\ (evs <> [] -> gate cfg t)
        /\ Forall (fun ev => ev = TrainPolicy (Z.of_nat (length (memory s)))
                                    (Some (batch_size cfg))) evs).
Proof.
  unfold train_phase, gate.
  destruct (is_ppo cfg) eqn:Hppo; simpl.
  - destruct (max_steps_per_batch cfg =? 0); simpl.
    { exists []. rewrite app_nil_r. repeat split; auto; discriminate. }
    destruct (_ mod _ =? 0); simpl.
    + unfold call_train_policy_batch.
      destruct (train_policy_batch X _ _ _) as [[[a m] r] e]; simpl.
      eexists; split; [reflexivity|].
      split; [repeat constructor|]. split; [reflexivity|discriminate].
    + assert (is_dqn cfg = false) as ->.
      { unfold is_ppo, is_dqn in *. apply String.eqb_eq in Hppo.
        rewrite Hppo. reflexivity. }
      simpl. exists []. rewrite app_nil_r. repeat split; auto; discriminate.
  - destruct (is_dqn cfg) eqn:Hdqn; simpl.
    + destruct (batch_size cfg <? t) eqn:Hg.
      * destruct (times_train_spec (Z.to_nat (G cfg)) s) as (k & Ht & Hm & Hr).
        eexists; split; [exact Ht|].
        split; [apply Forall_repeat; exact I|].
        split; [assumption|]. intros _. split; [assumption|].
        split; [intros _; lia|].
        apply Forall_repeat; reflexivity.
      * exists []. rewrite app_nil_r. repeat split; auto. congruence.
    + destruct (steps_exploration cfg <=? t) eqn:Hg.
      * destruct (times_train_spec (Z.to_nat (G cfg)) s) as (k & Ht & Hm & Hr).
        eexists; split; [exact Ht|].
        split; [apply Forall_repeat; exact I|].
        split; [assumption|]. intros _. split; [assumption|].
        split; [intros _; lia|].
        apply Forall_repeat; reflexivity.
      * exists []. rewrite app_nil_r. repeat split; auto. congruence.
Qed.

Lemma checkpoint_phase_spec (t : Z) (s : loop_state X) :
  let r := checkpoint_phase X cfg t s in
  exists evs : list (event X),
    trace (fst r) = trace s ++ evs
    /\ Forall is_episode evs
    /\ exploration_rate (fst r) = exploration_rate s
    /\ memory (fst r) = memory s
    /\ env (fst r) = env s.
Proof.
  unfold checkpoint_phase.
  destruct (log_interval cfg =? 0); simpl.
  { exists []. rewrite app_nil_r. auto. }
  destruct (_ mod _ =? 0); simpl.
  - eexists; split; [reflexivity|]. split; [repeat constructor|auto].
  - exists []. rewrite app_nil_r. auto.
Qed.

Lemma episode_phase_spec (t : Z) (s : loop_state X) :
  let r := episode_phase X cfg t s in
  exists evs : list (event X),
    trace (fst r) = trace s ++ evs
    /\ Forall is_episode evs
    /\ exploration_rate (fst r) = exploration_rate s
    /\ memory (fst r) = memory s.
Proof.
  unfold episode_phase, andthen, lift.
  match goal with |- context [checkpoint_phase X cfg t ?s1] =>
    pose proof (checkpoint_phase_spec t s1) as (evs & Ht & Hf & Hr & Hm & He);
    destruct (checkpoint_phase X cfg t s1) as [s2 [e|]]; simpl in *
  end.
  - eexists; split; [rewrite Ht, <- !app_assoc; reflexivity|].
    split; [|auto].
    apply Forall_app; split; [repeat constructor|].
    apply Forall_app; split; [repeat constructor|assumption].
  - destruct (env_reset X (env s2)) as [o e']; simpl.
    eexists; split; [rewrite Ht, <- !app_assoc; reflexivity|].
    split; [|auto].
    apply Forall_app; split; [repeat constructor|].
    apply Forall_app; split; [repeat constructor|assumption].
Qed.

Lemma evaluate_phase_spec (t : Z) (s : loop_state X) :
  let r := evaluate_phase X cfg t s in
  let call :=
    evaluate_policy_loop X (env_evaluation s) (rl_agent s)
      (number_eval_episodes cfg) (logger s) t (Algorithm cfg) in
  exploration_rate (fst r) = exploration_rate s
  /\ memory (fst r) = memory s
  /\ env (fst r) = env s
  /\ match snd r with
     | Some e =>
         e = ZeroDivisionError /\ evaluation_interval cfg = 0
         /\ fst r = s
     | None =>
         evaluation_interval cfg <> 0
         /\ trace (fst r)
            = trace s ++
              (if eval_due cfg t then
                 [EvaluatePolicy (number_eval_episodes cfg) t;
                  UpdatePlotEval (groupby_last (snd call))]
               else [])
         /\ (if eval_due cfg t then env_evaluation (fst r) = fst (fst call)
             else env_evaluation (fst r) = env_evaluation s)
     end.
Proof.
  unfold evaluate_phase, eval_due.
  destruct (evaluation_interval cfg =? 0) eqn:Hi; simpl.
  { apply Z.eqb_eq in Hi. auto 10. }
  apply Z.eqb_neq in Hi.
  destruct (_ mod _ =? 0); simpl.
  - destruct (evaluate_policy_loop X _ _ _ _ _ _) as [[e l] df]; simpl.
    auto 10.
  - rewrite app_nil_r. auto 10.
Qed.



Lemma select_action_spec (t : Z) (s : loop_state X) :
  let s' := snd (select_action X cfg t s) in
  trace s' = trace s
  /\ memory s' = memory s
  /\ exploration_rate s'
     = (if decays cfg t then decay cfg (exploration_rate s)
        else exploration_rate s)
  /\ episode_timesteps s' = episode_timesteps s.
Proof.
  unfold select_action, decays, policy_action, sample_action.
  destruct (is_ppo cfg); simpl.
  { destruct (select_action_from_policy X _ _ _) as [[a lp] r]; simpl; auto. }
  destruct (is_dqn cfg); simpl.
  - destruct (t <? steps_exploration cfg) eqn:Ht.
    + apply Z.ltb_lt in Ht. apply Z.leb_gt in Ht. rewrite Ht.
      destruct (env_sample_action X _) as [a e]; simpl; auto.
    + apply Z.ltb_ge in Ht. apply Z.leb_le in Ht. rewrite Ht.
      destruct (random_random X _) as [u r]; simpl.
      destruct (Qlt_bool _ _).
      * destruct (env_sample_action X _) as [a e]; simpl; auto.
      * destruct (select_action_from_policy X _ _ _) as [[a lp] r'];
          simpl; auto.
  - destruct (t <? steps_exploration cfg).
    + destruct (env_sample_action X _) as [a e]; simpl; auto.
    + destruct (select_action_from_policy X _ _ _) as [[a lp] r']; simpl; auto.
Qed.

Lemma body_spec (t : Z) (s : loop_state X) :
  let r := body X cfg t s in
  exists (tr_evs ep_evs ev_evs fin_evs : list (event X)),
    trace (fst r) = trace s ++ tr_evs ++ ep_evs ++ ev_evs ++ fin_evs
    /\ Forall is_train tr_evs
    /\ Forall is_episode ep_evs
    /\ exploration_rate (fst r)
       = (if decays cfg t then decay cfg (exploration_rate s)
          else exploration_rate s)
    /\ (is_ppo cfg = false ->
        length (memory (fst r)) = S (length (memory s))
        /\ (tr_evs <> [] -> gate cfg t)
        /\ Forall (fun ev =>
                     ev = TrainPolicy (Z.of_nat (S (length (memory s))))
                            (Some (batch_size cfg))) tr_evs)
    /\ match snd r with
       | None =>
           evaluation_interval cfg <> 0
           /\ (exists df : list (Z * Row X),
                 ev_evs
                 = if eval_due cfg t then
                     [EvaluatePolicy (number_eval_episodes cfg) t;
                      UpdatePlotEval (groupby_last df)]
                   else [])
           /\ fin_evs = [UpdateProgress (progress cfg t); UpdateStep (t + 1)]
       | Some _ => ev_evs = [] /\ fin_evs = []
       end.
Proof.
  unfold body.
  pose proof (select_action_spec t
                (set_episode_timesteps X (episode_timesteps s + 1) s))
    as (Hs1 & Hs2 & Hs3 & _).
  destruct (select_action X cfg t _) as [[action log_prob] s2].
  simpl in Hs1, Hs2, Hs3.
  destruct (env_step X (env s2) action)
    as [[[[next_state reward] done] truncated] e].
  set (s5 := set_episode_reward X _ _).
  assert (H5t : trace s5 = trace s) by (subst s5; simpl; assumption).
  assert (H5m : length (memory s5) = S (length (memory s))).
  { subst s5; simpl. rewrite Hs2, length_app. simpl. lia. }
  assert (H5r : exploration_rate s5
                = if decays cfg t then decay cfg (exploration_rate s)
                  else exploration_rate s) by (subst s5; simpl; assumption).
  clearbody s5. clear Hs1 Hs2 Hs3.
  unfold andthen.
  destruct (train_phase_spec t s5) as (tr_evs & Ht1 & Hf1 & Hr1 & Hoff).
  destruct (train_phase X cfg t s5) as [s6 [e1|]]; simpl in Ht1, Hr1, Hoff.
  { exists tr_evs, [], [], []. simpl. rewrite !app_nil_r.
    rewrite Ht1, H5t, Hr1, H5r.
    repeat split; auto.
    - apply Hoff in H as (Hm & _ & _). rewrite Hm; assumption.
    - apply Hoff in H as (_ & Hg & _); auto.
    - apply Hoff in H as (Hm & _ & Hall). rewrite <- H5m. assumption. }
  assert (Hep : exists ep_evs s7 e2,
             (if done || truncated then episode_phase X cfg t else skip X) s6
             = (s7, e2)
             /\ trace s7 = trace s6 ++ ep_evs /\ Forall is_episode ep_evs
             /\ exploration_rate s7 = exploration_rate s6
             /\ memory s7 = memory s6).
  { destruct (done || truncated).
    - destruct (episode_phase_spec t s6) as (evs & H1 & H2 & H3 & H4).
      destruct (episode_phase X cfg t s6) as [s7 e2]; simpl in *.
      exists evs, s7, e2; auto.
    - exists [], s6, None. unfold skip. rewrite app_nil_r. auto. }
  destruct Hep as (ep_evs & s7 & e2 & Heq & Ht2 & Hf2 & Hr2 & Hm2).
  rewrite Heq.
  assert (Hmem : is_ppo cfg = false ->
                 length (memory s7) = S (length (memory s))
                 /\ (tr_evs <> [] -> gate cfg t)
                 /\ Forall (fun ev =>
                      ev = TrainPolicy (Z.of_nat (S (length (memory s))))
                             (Some (batch_size cfg))) tr_evs).
  { intros H. apply Hoff in H as (Hm & Hg & Hall).
    rewrite Hm2, Hm, H5m. rewrite <- H5m. auto. }
  destruct e2 as [e2|].
  { exists tr_evs, ep_evs, [], []. simpl. rewrite !app_nil_r.
    rewrite Ht2, Ht1, H5t, Hr2, Hr1, H5r, <- app_assoc. auto 10. }
  pose proof (evaluate_phase_spec t s7) as (Hr3 & Hm3 & _ & Hev).
  destruct (evaluate_phase X cfg t s7) as [s8 [e3|]]; simpl in Hr3, Hm3, Hev.
  { destruct Hev as (_ & _ & ->).
    exists tr_evs, ep_evs, [], []. simpl. rewrite !app_nil_r.
    rewrite Ht2, Ht1, H5t, Hr2, Hr1, H5r, <- app_assoc. auto 10. }
  destruct Hev as (Hint & Ht3 & _).
  match type of Ht3 with _ = _ ++ ?L => set (ev_evs := L) in * end.
  exists tr_evs, ep_evs, ev_evs,
    [UpdateProgress (progress cfg t); UpdateStep (t + 1)].
  unfold lift; cbn [fst snd emit trace exploration_rate memory].
  split.
  { rewrite Ht3, Ht2, Ht1, H5t, <- !app_assoc. reflexivity. }
  rewrite Hr3, Hr2, Hr1, H5r, Hm3.
  split; [assumption|]. split; [assumption|]. split; [reflexivity|].
  split; [exact Hmem|].
  split; [assumption|]. split; [|reflexivity].
  eexists; subst ev_evs; reflexivity.
Qed.


Lemma train_events_views (evs : list (event X)) :
  Forall is_train evs ->
  steps evs = [] /\ evaluations evs = [] /\ eval_plots evs = []
  /\ finals evs = [] /\ prints evs = [].
Proof.
  induction 1 as [|ev evs Hev _ IH]; [repeat split|].
  destruct IH as (H1 & H2 & H3 & H4 & H5).
  destruct ev; try contradiction; simpl.
  unfold steps, evaluations, eval_plots, finals, prints in *; simpl.
  auto.
Qed.

Lemma episode_events_views (evs : list (event X)) :
  Forall is_episode evs ->
  steps evs = [] /\ evaluations evs = [] /\ eval_plots evs = []
  /\ finals evs = [] /\ prints evs = [] /\ train_calls evs = [].
Proof.
  induction 1 as [|ev evs Hev _ IH]; [repeat split|].
  destruct IH as (H1 & H2 & H3 & H4 & H5 & H6).
  unfold steps, evaluations, eval_plots, finals, prints, train_calls in *.
  destruct ev; try contradiction; simpl; auto 10.
Qed.

Lemma train_calls_all (evs : list (event X)) (n : Z) (b : option Z) :
  Forall (fun ev => ev = TrainPolicy n b) evs ->
  Forall (fun c => c = (n, b)) (train_calls evs).
Proof.
  induction 1 as [|ev evs -> _ IH]; [constructor|].
  unfold train_calls in *; simpl. constructor; auto.
Qed.

(** What one iteration adds to the trace, seen through the views. *)
Lemma body_views (t : Z) (s : loop_state X) :
  let r := body X cfg t s in
  exists evs : list (event X),
    trace (fst r) = trace s ++ evs
    /\ finals evs = [] /\ prints evs = []
    /\ Forall (fun df => exists raw, df = groupby_last raw) (eval_plots evs)
    /\ exploration_rate (fst r)
       = (if decays cfg t then decay cfg (exploration_rate s)
          else exploration_rate s)
    /\ (is_ppo cfg = false ->
        length (memory (fst r)) = S (length (memory s))
        /\ Forall (fun c => gate cfg t
                            /\ c = (Z.of_nat (S (length (memory s))),
                                    Some (batch_size cfg)))
             (train_calls evs))
    /\ match snd r with
       | None =>
           evaluation_interval cfg <> 0
           /\ steps evs = [t + 1]
           /\ evaluations evs
              = (if eval_due cfg t then [(number_eval_episodes cfg, t)]
                 else [])
       | Some _ => steps evs = [] /\ evaluations evs = []
       end.
Proof.
  destruct (body_spec t s)
    as (tr_evs & ep_evs & ev_evs & fin_evs & Ht & Hf1 & Hf2 & Hr & Hoff & Hend).
  cbv zeta.
  exists (tr_evs ++ ep_evs ++ ev_evs ++ fin_evs).
  split; [assumption|].
  destruct (train_events_views _ Hf1) as (A1 & A2 & A3 & A4 & A5).
  destruct (episode_events_views _ Hf2) as (B1 & B2 & B3 & B4 & B5 & B6).
  unfold steps, evaluations, eval_plots, finals, prints, train_calls in *.
  rewrite !flat_map_app, A1, A2, A3, A4, A5, B1, B2, B3, B4, B5, B6.
  cbn [app].
  assert (Htc : is_ppo cfg = false ->
                length (memory (body X cfg t s).1) = S (length (memory s))
                /\ Forall (fun c => gate cfg t
                              /\ c = (Z.of_nat (S (length (memory s))),
                                      Some (batch_size cfg)))
                     (flat_map (fun ev : event X =>
                                  match ev with
                                  | TrainPolicy n b => [(n, b)]
                                  | _ => []
                                  end) tr_evs ++ [])).
  { intros H; apply Hoff in H as (Hm & Hg & Hall).
    split; [assumption|]. rewrite app_nil_r.
    apply train_calls_all in Hall. unfold train_calls in Hall.
    destruct tr_evs as [|ev0 tr_evs]; [constructor|].
    assert (Hgt : gate cfg t) by (apply Hg; discriminate).
    eapply Forall_impl; [exact Hall|]. simpl; intros c ->; auto. }
  destruct (snd (body X cfg t s)) as [e|].
  - destruct Hend as (-> & ->). simpl.
    split; [reflexivity|]. split; [reflexivity|]. split; [constructor|].
    split; [assumption|]. split; [|auto].
    intros H0; apply Htc in H0 as (H1 & H2). split; [assumption|].
    rewrite app_nil_r in H2. rewrite app_nil_r. assumption.
  - destruct Hend as (Hint & (df & ->) & ->).
    destruct (eval_due cfg t); simpl.
    + split; [reflexivity|]. split; [reflexivity|].
      split; [repeat constructor; eexists; reflexivity|].
      split; [assumption|]. split; [|auto].
      intros H; apply Htc in H as (H1 & H2). split; [assumption|].
      rewrite app_nil_r in H2. rewrite app_nil_r. assumption.
    + split; [reflexivity|]. split; [reflexivity|].
      split; [constructor|].
      split; [assumption|]. split; [|auto].
      intros H; apply Htc in H as (H1 & H2). split; [assumption|].
      rewrite app_nil_r in H2. rewrite app_nil_r. assumption.
Qed.


Lemma for_loop_false (ts : list Z) (s : loop_state X) :
  for_loop X cfg false ts s
  = match ts with
    | [] => (s, Exhausted)
    | _ :: _ =>
        (emit [Print "Training loop interrupted. Exiting..."] s, Interrupted)
    end.
Proof. destruct ts; reflexivity. Qed.

Lemma iter_decay_shift (k : nat) (b : bool) (r : Q) :
  Nat.iter k (decay cfg) (if b then decay cfg r else r)
  = Nat.iter (k + (if b then 1 else 0)) (decay cfg) r.
Proof.
  destruct b.
  - rewrite Nat.add_1_r. symmetry. apply Nat.iter_succ_r.
  - rewrite Nat.add_0_r. reflexivity.
Qed.

(** The loop with [is_running] true, seen through the views: [done_ts]
    are the iterations that ran to their end. *)
Lemma for_loop_views (ts : list Z) (s : loop_state X) :
  let r := for_loop X cfg true ts s in
  exists (done_ts rest : list Z) (evs : list (event X)) (k : nat),
    ts = done_ts ++ rest
    /\ trace (fst r) = trace s ++ evs
    /\ finals evs = [] /\ prints evs = []
    /\ Forall (fun df => exists raw, df = groupby_last raw) (eval_plots evs)
    /\ steps evs = map Z.succ done_ts
    /\ evaluations evs
       = map (fun t => (number_eval_episodes cfg, t))
           (List.filter (eval_due cfg) done_ts)
    /\ exploration_rate (fst r) = Nat.iter k (decay cfg) (exploration_rate s)
    /\ (evaluation_interval cfg = 0 -> done_ts = [])
    /\ match snd r with
       | Exhausted =>
           rest = [] /\ k = length (List.filter (decays cfg) ts)
       | Interrupted => False
       | Raised _ => rest <> []
       end.
Proof.
  revert s; induction ts as [|t ts IH]; intros s; simpl.
  - exists [], [], [], O. simpl. rewrite app_nil_r. repeat split; constructor.
  - destruct (body_views t s)
      as (evs1 & Ht1 & Hf1 & Hp1 & Hg1 & Hr1 & _ & Hend).
    destruct (body X cfg t s) as [s1 [e|]]; simpl in Ht1, Hr1, Hend |- *.
    + destruct Hend as (Hs1 & He1).
      exists [], (t :: ts), evs1, (if decays cfg t then 1%nat else 0%nat).
      simpl. rewrite Hr1.
      repeat split; auto; try discriminate.
      destruct (decays cfg t); reflexivity.
    + destruct Hend as (Hint & Hs1 & He1).
      destruct (IH s1)
        as (done_ts & rest & evs2 & k & Hts & Ht2 & Hf2 & Hp2 & Hg2 & Hs2
            & He2 & Hr2 & Hz & Hexit).
      exists (t :: done_ts), rest, (evs1 ++ evs2),
        (k + (if decays cfg t then 1 else 0))%nat.
      split; [simpl; rewrite Hts; reflexivity|].
      split; [rewrite Ht2, Ht1, app_assoc; reflexivity|].
      unfold steps, evaluations, eval_plots, finals, prints in *.
      rewrite !flat_map_app, Hf1, Hf2, Hp1, Hp2, Hs1, Hs2, He1, He2.
      split; [reflexivity|]. split; [reflexivity|].
      split; [apply Forall_app; split; assumption|].
      split; [reflexivity|].
      split; [simpl; destruct (eval_due cfg t); reflexivity|].
      split; [rewrite Hr2, Hr1; apply iter_decay_shift|].
      split; [intros H; contradiction|].
      destruct (snd (for_loop X cfg true ts s1)); auto.
      destruct Hexit as (Hrest & Hk). split; [assumption|].
      simpl. destruct (decays cfg t); simpl; lia.
Qed.

Lemma for_loop_train_calls (Hoff : is_ppo cfg = false) (b : bool) (k a : nat)
    (s : loop_state X) :
  length (memory s) = a ->
  let r := for_loop X cfg b (map Z.of_nat (seq a k)) s in
  exists evs : list (event X),
    trace (fst r) = trace s ++ evs
    /\ Forall (fun c => exists t : Z,
                  Z.of_nat a <= t /\ gate cfg t
                  /\ c = (t + 1, Some (batch_size cfg)))
         (train_calls evs).
Proof.
  revert a s; induction k as [|k IH]; intros a s Hlen; simpl.
  - exists []. rewrite app_nil_r. split; [reflexivity|constructor].
  - destruct b; simpl.
    2:{ eexists; split; [reflexivity|constructor]. }
    destruct (body_views (Z.of_nat a) s)
      as (evs1 & Ht1 & _ & _ & _ & _ & Hm & _).
    destruct (Hm Hoff) as (Hlen1 & Hcalls). clear Hm.
    assert (Hcalls' : Forall (fun c => exists t : Z,
                          Z.of_nat a <= t /\ gate cfg t
                          /\ c = (t + 1, Some (batch_size cfg)))
                        (train_calls evs1)).
    { eapply Forall_impl; [exact Hcalls|].
      intros c (Hg & ->). exists (Z.of_nat a).
      split; [lia|]. split; [assumption|].
      rewrite Hlen. f_equal. lia. }
    destruct (body X cfg (Z.of_nat a) s) as [s1 [e|]]; simpl in *.
    + exists evs1; auto.
    + destruct (IH (S a) s1) as (evs2 & Ht2 & Hc2).
      { rewrite Hlen1, Hlen. reflexivity. }
      exists (evs1 ++ evs2).
      split; [rewrite Ht2, Ht1, app_assoc; reflexivity|].
      unfold train_calls in *. rewrite flat_map_app.
      apply Forall_app; split; [assumption|].
      eapply Forall_impl; [exact Hc2|].
      intros c (t & Ht & Hg & ->). exists t. split; [lia|auto].
Qed.


(** What a successful preamble has done, in the order of the source. *)
Lemma setup_inl (log_folder_path : string) (s0 : loop_state X) :
  setup X cfg log_folder_path = inl s0 ->
  exists (env0 env_eval0 : Env X) (agent0 : Agent X) (logger0 : Logger X),
    import_algorithm_instance X cfg = inl (Algorithm cfg)
    /\ create_environment_instance X cfg "rgb_array" false = inl env0
    /\ create_environment_instance X cfg "rgb_array" true = inl env_eval0
    /\ make_agent X cfg env0 = inl agent0
    /\ make_logger X log_folder_path agent0 = inl logger0
    /\ s0 = mk_state X (snd (env_reset X env0)) env_eval0 agent0 []
              logger0 (set_seed X (Seed cfg)) (fst (env_reset X env0))
              0 0 0 1 [].
Proof.
  unfold setup.
  assert (Himp : forall a, import_algorithm_instance X cfg = inl a ->
                           a = Algorithm cfg).
  { unfold import_algorithm_instance. destruct (import_module X _);
      [|discriminate].
    destruct (existsb _ _); [|discriminate]. intros a [= <-]. reflexivity. }
  destruct (import_algorithm_instance X cfg) as [a|] eqn:Ha; [|discriminate].
  rewrite (Himp a eq_refl) in *. clear Himp.
  destruct (create_environment_instance X cfg "rgb_array" false)
    as [env0|] eqn:He0; [|discriminate].
  destruct (create_environment_instance X cfg "rgb_array" true)
    as [env_eval0|] eqn:He1; [|discriminate].
  destruct (make_agent X cfg env0) as [agent0|] eqn:Hag; [|discriminate].
  destruct (make_memory X cfg env0) eqn:Hmem; [discriminate|].
  destruct (make_logger X log_folder_path agent0) as [logger0|] eqn:Hlog;
    [|discriminate].
  destruct (env_reset X env0) as [o e1] eqn:Hreset.
  intros [= <-]. exists env0, env_eval0, agent0, logger0.
  rewrite Hreset. repeat split; assumption.
Qed.

Lemma setup_initial (log_folder_path : string) (s0 : loop_state X) :
  setup X cfg log_folder_path = inl s0 ->
  trace s0 = [] /\ memory s0 = [] /\ exploration_rate s0 = 1%Q.
Proof.
  intros H. apply setup_inl in H as (? & ? & ? & ? & _ & _ & _ & _ & _ & ->).
  simpl; auto.
Qed.

Lemma dqn_not_ppo : is_dqn cfg = true -> is_ppo cfg = false.
Proof.
  unfold is_dqn, is_ppo. intros H. apply String.eqb_eq in H.
  rewrite H. reflexivity.
Qed.

(** The events of a call of [training_loop] are those of its loop,
    followed by the three final ones when the call returns. *)
Lemma training_loop_events (log_folder_path : string) (is_running : bool) :
  let r := training_loop X cfg log_folder_path is_running in
  (exists e, setup X cfg log_folder_path = inr e
             /\ r = Failed e None /\ events r = [])
  \/ (exists s0 s x,
        setup X cfg log_folder_path = inl s0
        /\ for_loop X cfg is_running (range (steps_training cfg)) s0 = (s, x)
        /\ match x with
           | Exhausted =>
               r = Returned (finalize X true s)
               /\ events r
                  = trace s ++ [SaveLogs; PolicyLoopTest;
                                TrainingCompleted true]
           | Interrupted =>
               r = Returned (finalize X false s)
               /\ events r
                  = trace s ++ [SaveLogs; PolicyLoopTest;
                                TrainingCompleted false]
           | Raised e => r = Failed e (Some s) /\ events r = trace s
           end).
Proof.
  unfold training_loop.
  destruct (setup X cfg log_folder_path) as [s0|e].
  - right.
    destruct (for_loop X cfg is_running (range (steps_training cfg)) s0)
      as [s x] eqn:Hloop.
    exists s0, s, x. split; [reflexivity|]. split; [exact Hloop|].
    destruct x; simpl; auto.
  - left. exists e. auto.
Qed.

End LoopProperties.

(** ** One iteration of the loop, phase by phase *)

Section LoopPhases.
Variable X : externals.
Variable cfg : config.

Lemma select_action_episode (t : Z) (s : loop_state X) :
  same_episode s (snd (select_action X cfg t s)).
Proof.
  unfold select_action, policy_action, sample_action, same_episode.
  destruct (is_ppo cfg); simpl.
  { destruct (select_action_from_policy X _ _ _) as [[a lp] r]; simpl; auto. }
  destruct (is_dqn cfg); simpl.
  - destruct (t <? steps_exploration cfg).
    + destruct (env_sample_action X _) as [a e]; simpl; auto.
    + destruct (random_random X _) as [u r]; simpl.
      destruct (Qlt_bool _ _).
      * destruct (env_sample_action X _) as [a e]; simpl; auto.
      * destruct (select_action_from_policy X _ _ _) as [[a lp] r'];
          simpl; auto.
  - destruct (t <? steps_exploration cfg).
    + destruct (env_sample_action X _) as [a e]; simpl; auto.
    + destruct (select_action_from_policy X _ _ _) as [[a lp] r']; simpl; auto.
Qed.

(** The iteration up to "Train the policy": the state the four phases
    start from, and whether the step ended the episode. *)
Lemma body_unfold (t : Z) (s : loop_state X) :
  exists (s5 : loop_state X) (ended : bool),
    body X cfg t s
    = andthen X (train_phase X cfg t)
        (andthen X (if ended then episode_phase X cfg t else skip X)
           (andthen X (evaluate_phase X cfg t)
              (lift X (emit [UpdateProgress (progress cfg t);
                             UpdateStep (t + 1)])))) s5
    /\ trace s5 = trace s
    /\ length (memory s5) = S (length (memory s))
    /\ episode_num s5 = episode_num s
    /\ episode_timesteps s5 = episode_timesteps s + 1.
Proof.
  unfold body.
  pose proof (select_action_spec X cfg t
                (set_episode_timesteps X (episode_timesteps s + 1) s))
    as (Hs1 & Hs2 & _ & _).
  pose proof (select_action_episode t
                (set_episode_timesteps X (episode_timesteps s + 1) s))
    as (He1 & He2).
  destruct (select_action X cfg t _) as [[action log_prob] s2].
  simpl in Hs1, Hs2, He1, He2.
  destruct (env_step X (env s2) action)
    as [[[[next_state reward] done] truncated] e].
  eexists _, (done || truncated). split; [reflexivity|].
  simpl. rewrite Hs2, length_app. simpl.
  repeat split; auto. lia.
Qed.

Lemma andthen_ok (c1 c2 : cmd X) (s s1 : loop_state X) :
  c1 s = (s1, None) -> andthen X c1 c2 s = c2 s1.
Proof. intros H; unfold andthen; rewrite H; reflexivity. Qed.

Lemma andthen_raise (c1 c2 : cmd X) (s s1 : loop_state X) (e : exn) :
  c1 s = (s1, Some e) -> andthen X c1 c2 s = (s1, Some e).
Proof. intros H; unfold andthen; rewrite H; reflexivity. Qed.

(** [G] successive updates that do not raise are [G] calls, all on the
    same memory. *)
Lemma times_train_exact (n : nat) (s : loop_state X) :
  let r := times X n (call_train_policy X cfg) s in
  snd r = None ->
  trace (fst r)
  = trace s ++ repeat (TrainPolicy (Z.of_nat (length (memory s)))
                         (Some (batch_size cfg))) n.
Proof.
  revert s; induction n as [|n IH]; intros s; simpl.
  - intros _. rewrite app_nil_r. reflexivity.
  - unfold andthen.
    pose proof (call_train_policy_spec X cfg s) as (Ht & Hm & _).
    destruct (call_train_policy X cfg s) as [s1 [e|]]; simpl in *;
      [discriminate|].
    intros Hok. rewrite (IH s1 Hok), Hm, Ht, <- app_assoc. reflexivity.
Qed.

Lemma train_phase_same_episode (t : Z) (s : loop_state X) :
  same_episode s (fst (train_phase X cfg t s)).
Proof.
  assert (Hcall : forall s0, same_episode s0
                               (fst (call_train_policy X cfg s0))).
  { intros s0. unfold call_train_policy, same_episode.
    destruct (train_policy X _ _ _ _) as [[a r] e]; simpl; auto. }
  assert (Htimes : forall n s0,
            same_episode s0 (fst (times X n (call_train_policy X cfg) s0))).
  { induction n as [|n IH]; intros s0; simpl; [split; reflexivity|].
    unfold andthen. specialize (Hcall s0).
    destruct (call_train_policy X cfg s0) as [s1 [e|]]; simpl in *;
      [assumption|].
    destruct (IH s1) as (H1 & H2). destruct Hcall as (H3 & H4).
    split; congruence. }
  unfold train_phase.
  destruct (is_ppo cfg && (max_steps_per_batch cfg =? 0));
    [split; reflexivity|].
  destruct (is_ppo cfg && _).
  { unfold call_train_policy_batch, same_episode.
    destruct (train_policy_batch X _ _ _) as [[[a m] r] e]; simpl; auto. }
  destruct (is_dqn cfg && _); [apply Htimes|].
  destruct (negb (is_ppo cfg) && negb (is_dqn cfg) && _);
    [apply Htimes | split; reflexivity].
Qed.

(** "Train the policy" for an off-policy agent, when it does not raise. *)
Lemma train_phase_exact (t : Z) (s : loop_state X) :
  is_ppo cfg = false ->
  snd (train_phase X cfg t s) = None ->
  trace (fst (train_phase X cfg t s))
  = trace s ++
    (if gateb cfg t then
       repeat (TrainPolicy (Z.of_nat (length (memory s)))
                 (Some (batch_size cfg))) (Z.to_nat (G cfg))
     else []).
Proof.
  intros Hppo. unfold train_phase, gateb. rewrite Hppo. simpl.
  destruct (is_dqn cfg); simpl.
  - destruct (batch_size cfg <? t).
    + apply times_train_exact.
    + intros _. symmetry. apply app_nil_r.
  - destruct (steps_exploration cfg <=? t).
    + apply times_train_exact.
    + intros _. symmetry. apply app_nil_r.
Qed.

(** "Train the policy" for the batch-policy agent, when it does not
    raise: one call at the due steps, none otherwise. *)
Lemma train_phase_batch (t : Z) (s : loop_state X) :
  is_ppo cfg = true ->
  snd (train_phase X cfg t s) = None ->
  max_steps_per_batch cfg <> 0
  /\ trace (fst (train_phase X cfg t s))
     = trace s ++
       (if batch_due cfg t then
          [TrainPolicy (Z.of_nat (length (memory s))) None]
        else []).
Proof.
  intros Hppo. unfold train_phase, batch_due. rewrite Hppo. simpl.
  destruct (max_steps_per_batch cfg =? 0) eqn:Hm; [discriminate|].
  apply Z.eqb_neq in Hm.
  destruct (_ mod _ =? 0).
  - unfold call_train_policy_batch.
    destruct (train_policy_batch X _ _ _) as [[[a m] r] e]; simpl.
    intros _. auto.
  - assert (is_dqn cfg = false) as ->.
    { unfold is_ppo, is_dqn in *. apply String.eqb_eq in Hppo.
      rewrite Hppo. reflexivity. }
    simpl. intros _. split; [assumption|]. symmetry. apply app_nil_r.
Qed.

(** "Handle episode completion": the record it logs and the counters it
    leaves. *)
Lemma episode_phase_exact (t : Z) (s : loop_state X) :
  let r := episode_phase X cfg t s in
  exists evs : list (event X),
    trace (fst r) = trace s ++ evs
    /\ Forall is_episode evs
    /\ logged evs = [(episode_num s + 1, episode_timesteps s, t + 1)]
    /\ (snd r = None ->
        episode_num (fst r) = episode_num s + 1
        /\ episode_timesteps (fst r) = 0).
Proof.
  unfold episode_phase, andthen, lift.
  match goal with |- context [checkpoint_phase X cfg t ?s1] =>
    set (s1' := s1);
    assert (Hck : exists evs,
               trace (fst (checkpoint_phase X cfg t s1')) = trace s1' ++ evs
               /\ (evs = [] \/ evs = [SaveCheckpoint])
               /\ episode_num (fst (checkpoint_phase X cfg t s1'))
                  = episode_num s1'
               /\ env (fst (checkpoint_phase X cfg t s1')) = env s1')
  end.
  { unfold checkpoint_phase.
    destruct (log_interval cfg =? 0); simpl.
    { exists []. rewrite app_nil_r. auto. }
    destruct (_ mod _ =? 0); simpl.
    - eexists; split; [reflexivity|]. auto.
    - exists []. rewrite app_nil_r. auto. }
  destruct Hck as (evs & Ht & Hevs & Hn & _).
  destruct (checkpoint_phase X cfg t s1') as [s2 [e|]]; simpl in *.
  - eexists; split; [rewrite Ht; subst s1'; simpl;
                     rewrite <- !app_assoc; reflexivity|].
    split; [|split; [|discriminate]].
    + apply Forall_app; split; [repeat constructor|].
      apply Forall_app; split; [repeat constructor|].
      destruct Hevs as [-> | ->]; repeat constructor.
    + unfold logged. rewrite !flat_map_app. simpl.
      destruct Hevs as [-> | ->]; reflexivity.
  - destruct (env_reset X (env s2)) as [o e']; simpl.
    eexists; split; [rewrite Ht; subst s1'; simpl;
                     rewrite <- !app_assoc; reflexivity|].
    split; [|split].
    + apply Forall_app; split; [repeat constructor|].
      apply Forall_app; split; [repeat constructor|].
      destruct Hevs as [-> | ->]; repeat constructor.
    + unfold logged. rewrite !flat_map_app. simpl.
      destruct Hevs as [-> | ->]; reflexivity.
    + intros _. rewrite Hn. subst s1'. simpl. auto.
Qed.

Lemma evaluate_phase_same_episode (t : Z) (s : loop_state X) :
  same_episode s (fst (evaluate_phase X cfg t s)).
Proof.
  unfold evaluate_phase, same_episode.
  destruct (evaluation_interval cfg =? 0); simpl; [auto|].
  destruct (_ mod _ =? 0); simpl; [|auto].
  destruct (evaluate_policy_loop X _ _ _ _ _ _) as [[e l] df]; simpl; auto.
Qed.

Lemma evaluate_phase_events (t : Z) (s : loop_state X) :
  exists evs : list (event X),
    trace (fst (evaluate_phase X cfg t s)) = trace s ++ evs
    /\ train_calls evs = [] /\ logged evs = [] /\ progresses evs = [].
Proof.
  pose proof (evaluate_phase_spec X cfg t s) as (_ & _ & _ & H).
  destruct (snd (evaluate_phase X cfg t s)).
  - destruct H as (_ & _ & ->). exists []. rewrite app_nil_r. auto.
  - destruct H as (_ & Ht & _). eexists; split; [exact Ht|].
    destruct (eval_due cfg t); auto.
Qed.

End LoopPhases.

Section LoopIteration.
Variable X : externals.
Variable cfg : config.

Lemma train_events_more_views (evs : list (event X)) :
  Forall is_train evs -> logged evs = [] /\ progresses evs = [].
Proof.
  induction 1 as [|ev evs Hev _ (H1 & H2)]; [split; reflexivity|].
  unfold logged, progresses in *.
  destruct ev; try contradiction; simpl; auto.
Qed.

Lemma episode_events_more_views (evs : list (event X)) :
  Forall is_episode evs -> progresses evs = [].
Proof.
  induction 1 as [|ev evs Hev _ IH]; [reflexivity|].
  unfold progresses in *.
  destruct ev; try contradiction; simpl; auto.
Qed.

Lemma train_calls_repeat (n : nat) (m : Z) (b : option Z) :
  train_calls (repeat (TrainPolicy (X := X) m b) n) = repeat (m, b) n.
Proof.
  induction n as [|n IH]; [reflexivity|].
  unfold train_calls in *. simpl. rewrite IH. reflexivity.
Qed.

(** What one iteration adds to the trace and does to the episode
    counters. *)
Lemma body_detail (t : Z) (s : loop_state X) :
  let r := body X cfg t s in
  exists (evs : list (event X)) (ended : bool),
    trace (fst r) = trace s ++ evs
    /\ logged evs
       = (if ended then
            [(episode_num s + 1, episode_timesteps s + 1, t + 1)]
          else [])
    /\ (snd r = None ->
        progresses evs = [progress cfg t]
        /\ episode_num (fst r)
           = (if ended then episode_num s + 1 else episode_num s)
        /\ episode_timesteps (fst r)
           = (if ended then 0 else episode_timesteps s + 1)
        /\ (is_ppo cfg = false ->
            train_calls evs
            = if gateb cfg t then
                repeat (Z.of_nat (S (length (memory s))),
                        Some (batch_size cfg)) (Z.to_nat (G cfg))
              else [])
        /\ (is_ppo cfg = true ->
            max_steps_per_batch cfg <> 0
            /\ map snd (train_calls evs)
               = if batch_due cfg t then [None] else [])).
Proof.
  destruct (body_unfold X cfg t s)
    as (s5 & ended & Hbody & H5t & H5m & H5n & H5ts).
  cbv zeta. rewrite Hbody. clear Hbody.
  (* Train the policy *)
  destruct (train_phase_spec X cfg t s5) as (tr_evs & Ht1 & Hf1 & _ & _).
  destruct (train_events_views X _ Hf1) as (_ & _ & _ & _ & _).
  destruct (train_events_more_views _ Hf1) as (Hl1 & Hp1).
  destruct (train_phase_same_episode X cfg t s5) as (Hn1 & Hts1).
  pose proof (train_phase_exact X cfg t s5) as Hexact.
  pose proof (train_phase_batch X cfg t s5) as Hbatch.
  destruct (train_phase X cfg t s5) as [s6 [e1|]] eqn:Htrain;
    simpl in Ht1, Hn1, Hts1, Hexact, Hbatch.
  { rewrite (andthen_raise X _ _ _ _ _ Htrain). simpl.
    exists tr_evs, false. rewrite Ht1, H5t.
    split; [reflexivity|]. split; [assumption|discriminate]. }
  rewrite (andthen_ok X _ _ _ _ Htrain).
  (* Handle episode completion *)
  assert (Hep : exists ep_evs s7 e2,
             (if ended then episode_phase X cfg t else skip X) s6 = (s7, e2)
             /\ trace s7 = trace s6 ++ ep_evs
             /\ Forall is_episode ep_evs
             /\ logged ep_evs
                = (if ended then
                     [(episode_num s6 + 1, episode_timesteps s6, t + 1)]
                   else [])
             /\ (e2 = None ->
                 episode_num s7
                 = (if ended then episode_num s6 + 1 else episode_num s6)
                 /\ episode_timesteps s7
                    = (if ended then 0 else episode_timesteps s6))).
  { destruct ended.
    - destruct (episode_phase_exact X cfg t s6) as (evs & H1 & H2 & H3 & H4).
      destruct (episode_phase X cfg t s6) as [s7 e2]; simpl in *.
      exists evs, s7, e2. repeat (split; [auto; fail|]).
      intros ->. auto.
    - exists [], s6, None. unfold skip. rewrite app_nil_r.
      repeat (split; [auto; fail|]). auto. }
  destruct Hep as (ep_evs & s7 & e2 & Heq & Ht2 & Hf2 & Hl2 & Hc2).
  destruct (episode_events_views X _ Hf2) as (_ & _ & _ & _ & _ & Htc2).
  pose proof (episode_events_more_views _ Hf2) as Hp2.
  rewrite Hn1, Hts1, H5n, H5ts in Hl2.
  destruct e2 as [e2|].
  { rewrite (andthen_raise X _ _ _ _ _ Heq). simpl.
    exists (tr_evs ++ ep_evs), ended.
    rewrite Ht2, Ht1, H5t, <- app_assoc.
    split; [reflexivity|]. split; [|discriminate].
    unfold logged in *. rewrite flat_map_app, Hl1, Hl2. reflexivity. }
  rewrite (andthen_ok X _ _ _ _ Heq).
  destruct (Hc2 eq_refl) as (Hn2 & Hts2). clear Hc2.
  rewrite Hn1, H5n in Hn2. rewrite Hts1, H5ts in Hts2.
  (* Evaluate the policy *)
  destruct (evaluate_phase_events X cfg t s7)
    as (ev_evs & Ht3 & Htc3 & Hl3 & Hp3).
  destruct (evaluate_phase_same_episode X cfg t s7) as (Hn3 & Hts3).
  destruct (evaluate_phase X cfg t s7) as [s8 [e3|]] eqn:Heval;
    simpl in Ht3, Hn3, Hts3.
  { rewrite (andthen_raise X _ _ _ _ _ Heval). simpl.
    exists (tr_evs ++ ep_evs ++ ev_evs), ended.
    rewrite Ht3, Ht2, Ht1, H5t, <- !app_assoc.
    split; [reflexivity|]. split; [|discriminate].
    unfold logged in *. rewrite !flat_map_app, Hl1, Hl2, Hl3.
    rewrite app_nil_r. reflexivity. }
  rewrite (andthen_ok X _ _ _ _ Heval). unfold lift. simpl.
  exists (tr_evs ++ ep_evs ++ ev_evs
          ++ [UpdateProgress (progress cfg t); UpdateStep (t + 1)]), ended.
  rewrite Ht3, Ht2, Ht1, H5t, <- !app_assoc.
  split; [reflexivity|].
  split.
  { unfold logged in *. rewrite !flat_map_app, Hl1, Hl2, Hl3.
    simpl. rewrite app_nil_r. reflexivity. }
  intros _.
  split.
  { unfold progresses in *. rewrite !flat_map_app, Hp1, Hp2, Hp3.
    reflexivity. }
  split; [rewrite Hn3; exact Hn2|]. split; [rewrite Hts3; exact Hts2|].
  assert (Htc : train_calls (tr_evs ++ ep_evs ++ ev_evs
                   ++ [UpdateProgress (progress cfg t); UpdateStep (t + 1)])
                = train_calls tr_evs).
  { unfold train_calls in *. rewrite !flat_map_app, Htc2, Htc3.
    simpl. rewrite app_nil_r. reflexivity. }
  rewrite Htc. split.
  - intros Hppo. specialize (Hexact Hppo eq_refl).
    rewrite Ht1 in Hexact. apply app_inv_head in Hexact. rewrite Hexact.
    rewrite H5m. destruct (gateb cfg t); [|reflexivity].
    apply train_calls_repeat.
  - intros Hppo. destruct (Hbatch Hppo eq_refl) as (Hm & Hb).
    split; [assumption|].
    rewrite Ht1 in Hb. apply app_inv_head in Hb. rewrite Hb.
    destruct (batch_due cfg t); reflexivity.
Qed.
End LoopIteration.

(** ** Invocations and the iterations they are made in *)

Section LoopInvocations.
Variable X : externals.
Variable cfg : config.

Lemma by_iteration_app (d : Z) (a b : list (event X)) :
  by_iteration d (a ++ b)
  = by_iteration d a ++ by_iteration (d + Z.of_nat (length (steps a))) b.
Proof.
  revert d. induction a as [|ev a IH]; intros d; simpl.
  - rewrite Z.add_0_r. reflexivity.
  - destruct ev; simpl; rewrite ?IH; try reflexivity.
    f_equal. f_equal. unfold steps. simpl. lia.
Qed.

Lemma by_iteration_no_steps (d : Z) (a : list (event X)) :
  steps a = [] -> by_iteration d a = map (pair d) (invocations a).
Proof.
  induction a as [|ev a IH]; [reflexivity|].
  unfold steps, invocations in *. destruct ev; simpl; intros H;
    try discriminate; rewrite ?IH by assumption; reflexivity.
Qed.

Lemma train_events_invocations (evs : list (event X)) :
  Forall is_train evs ->
  invocations evs = map (fun c => Update (fst c) (snd c)) (train_calls evs).
Proof.
  induction 1 as [|ev evs Hev _ IH]; [reflexivity|].
  unfold invocations, train_calls in *.
  destruct ev; try contradiction. simpl. rewrite IH. reflexivity.
Qed.

Lemma episode_events_invocations (evs : list (event X)) :
  Forall is_episode evs -> invocations evs = [].
Proof.
  induction 1 as [|ev evs Hev _ IH]; [reflexivity|].
  unfold invocations in *. destruct ev; try contradiction; simpl; assumption.
Qed.

(** "Train the policy", raising or not: the calls it has made. *)
Lemma train_phase_shape (t : Z) (s : loop_state X) :
  let r := train_phase X cfg t s in
  let n := Z.of_nat (length (memory s)) in
  exists evs : list (event X),
    trace (fst r) = trace s ++ evs
    /\ Forall is_train evs
    /\ (is_ppo cfg = false ->
        Forall (fun c => c = (n, Some (batch_size cfg))) (train_calls evs)
        /\ (evs <> [] -> gateb cfg t = true))
    /\ (is_ppo cfg = true ->
        evs = []
        \/ (batch_due cfg t = true /\ train_calls evs = [(n, None)])).
Proof.
  cbv zeta.
  destruct (train_phase_spec X cfg t s) as (evs & Ht & Hf & _ & Hoff).
  exists evs. split; [assumption|]. split; [assumption|]. split.
  - intros Hppo. destruct (Hoff Hppo) as (_ & Hg & Hall). split.
    + clear -Hall. induction Hall as [|ev evs -> _ IH]; [constructor|].
      unfold train_calls in *. simpl. constructor; [reflexivity|assumption].
    + intros Hne. specialize (Hg Hne). unfold gate, gateb in *.
      destruct (is_dqn cfg); [apply Z.ltb_lt | apply Z.leb_le]; assumption.
  - intros Hppo. revert Ht. unfold train_phase, batch_due.
    rewrite Hppo. simpl.
    destruct (max_steps_per_batch cfg =? 0); simpl.
    { intros Ht. left. apply (app_inv_head (trace s)).
      rewrite app_nil_r. symmetry. exact Ht. }
    destruct (_ mod _ =? 0).
    + unfold call_train_policy_batch.
      destruct (train_policy_batch X _ _ _) as [[[a m] r] e]; simpl.
      intros Ht. apply app_inv_head in Ht. subst evs. right.
      split; reflexivity.
    + assert (is_dqn cfg = false) as ->.
      { unfold is_ppo, is_dqn in *. apply String.eqb_eq in Hppo.
        rewrite Hppo. reflexivity. }
      simpl. intros Ht. left. apply (app_inv_head (trace s)).
      rewrite app_nil_r. symmetry. exact Ht.
Qed.

(** The invocations of one iteration: they all precede the report of
    the step, and they are those the cadence allows, on a memory of one
    more transition than before. *)
Lemma body_invocations (t : Z) (s : loop_state X) :
  let r := body X cfg t s in
  let n := Z.of_nat (S (length (memory s))) in
  exists (evs : list (event X)) (ups : list (Z * option Z))
         (evals : list invocation),
    trace (fst r) = trace s ++ evs
    /\ (forall d, by_iteration d evs = map (pair d) (invocations evs))
    /\ steps evs = match snd r with None => [t + 1] | Some _ => [] end
    /\ invocations evs = map (fun c => Update (fst c) (snd c)) ups ++ evals
    /\ (is_ppo cfg = false ->
        Forall (fun c => c = (n, Some (batch_size cfg))) ups
        /\ (ups <> [] -> gateb cfg t = true))
    /\ (is_ppo cfg = true ->
        ups = [] \/ (batch_due cfg t = true /\ ups = [(n, None)]))
    /\ (evals = []
        \/ (eval_due cfg t = true
            /\ evals = [Evaluation (number_eval_episodes cfg) t]))
    /\ (snd r = None ->
        (is_ppo cfg = false ->
         ups = if gateb cfg t then
                 repeat (n, Some (batch_size cfg)) (Z.to_nat (G cfg))
               else [])
        /\ (is_ppo cfg = true ->
            ups = if batch_due cfg t then [(n, None)] else [])
        /\ evals = if eval_due cfg t then
                     [Evaluation (number_eval_episodes cfg) t]
                   else []).
Proof.
  destruct (body_unfold X cfg t s)
    as (s5 & ended & Hbody & H5t & H5m & _ & _).
  cbv zeta. rewrite Hbody. clear Hbody.
  (* Train the policy *)
  destruct (train_phase_shape t s5) as (tr_evs & Ht1 & Hf1 & Hoff1 & Hppo1).
  rewrite H5m in Hoff1, Hppo1.
  destruct (train_events_views X _ Hf1) as (Hs1 & _).
  pose proof (train_events_invocations _ Hf1) as Hi1.
  pose proof (train_phase_exact X cfg t s5) as Hexact.
  pose proof (train_phase_batch X cfg t s5) as Hbatch.
  rewrite H5m in Hexact, Hbatch.
  set (ups := train_calls tr_evs) in *.
  assert (Hups_ok :
            snd (train_phase X cfg t s5) = None ->
            (is_ppo cfg = false ->
             ups = if gateb cfg t then
                     repeat (Z.of_nat (S (length (memory s))),
                             Some (batch_size cfg)) (Z.to_nat (G cfg))
                   else [])
            /\ (is_ppo cfg = true ->
                ups = if batch_due cfg t then
                        [(Z.of_nat (S (length (memory s))), None)]
                      else [])).
  { intros Hok. split; intros Hppo.
    - specialize (Hexact Hppo Hok). rewrite Ht1 in Hexact.
      apply app_inv_head in Hexact. subst ups. rewrite Hexact.
      destruct (gateb cfg t); [apply train_calls_repeat | reflexivity].
    - destruct (Hbatch Hppo Hok) as (_ & Hb). rewrite Ht1 in Hb.
      apply app_inv_head in Hb. subst ups. rewrite Hb.
      destruct (batch_due cfg t); reflexivity. }
  assert (Hppo_ups : is_ppo cfg = true ->
            ups = []
            \/ (batch_due cfg t = true
                /\ ups = [(Z.of_nat (S (length (memory s))), None)])).
  { intros Hppo. destruct (Hppo1 Hppo) as [-> | H]; [left; reflexivity|].
    right. exact H. }
  assert (Hoff_ups : is_ppo cfg = false ->
            Forall (fun c => c = (Z.of_nat (S (length (memory s))),
                                  Some (batch_size cfg))) ups
            /\ (ups <> [] -> gateb cfg t = true)).
  { intros Hppo. destruct (Hoff1 Hppo) as (Hall & Hg).
    split; [exact Hall|]. intros Hne. apply Hg. intros ->. apply Hne.
    reflexivity. }
  clear Hoff1 Hppo1 Hexact Hbatch.
  destruct (train_phase X cfg t s5) as [s6 [e1|]] eqn:Htrain;
    simpl in Ht1, Hups_ok.
  { rewrite (andthen_raise X _ _ _ _ _ Htrain). simpl.
    exists tr_evs, ups, []. rewrite Ht1, H5t, app_nil_r.
    split; [reflexivity|].
    split; [intros d; apply by_iteration_no_steps; assumption|].
    split; [assumption|]. split; [assumption|].
    split; [assumption|]. split; [assumption|].
    split; [left; reflexivity | discriminate]. }
  rewrite (andthen_ok X _ _ _ _ Htrain).
  destruct (Hups_ok eq_refl) as (Hu_off & Hu_ppo). clear Hups_ok.
  (* Handle episode completion *)
  assert (Hep : exists ep_evs s7 e2,
             (if ended then episode_phase X cfg t else skip X) s6 = (s7, e2)
             /\ trace s7 = trace s6 ++ ep_evs
             /\ Forall is_episode ep_evs).
  { destruct ended.
    - destruct (episode_phase_exact X cfg t s6) as (evs & H1 & H2 & _).
      destruct (episode_phase X cfg t s6) as [s7 e2]; simpl in *.
      exists evs, s7, e2. auto.
    - exists [], s6, None. unfold skip. rewrite app_nil_r. auto. }
  destruct Hep as (ep_evs & s7 & e2 & Heq & Ht2 & Hf2).
  destruct (episode_events_views X _ Hf2) as (Hs2 & _).
  pose proof (episode_events_invocations _ Hf2) as Hi2.
  assert (Hpre : steps (tr_evs ++ ep_evs) = []
                 /\ invocations (tr_evs ++ ep_evs)
                    = map (fun c => Update (fst c) (snd c)) ups).
  { unfold steps, invocations in *. rewrite !flat_map_app, Hs1, Hs2, Hi1, Hi2.
    split; [reflexivity | apply app_nil_r]. }
  destruct Hpre as (Hs12 & Hi12).
  destruct e2 as [e2|].
  { rewrite (andthen_raise X _ _ _ _ _ Heq). simpl.
    exists (tr_evs ++ ep_evs), ups, [].
    rewrite Ht2, Ht1, H5t, <- app_assoc, app_nil_r.
    split; [reflexivity|].
    split; [intros d; apply by_iteration_no_steps; assumption|].
    split; [assumption|]. split; [assumption|].
    split; [assumption|]. split; [assumption|].
    split; [left; reflexivity | discriminate]. }
  rewrite (andthen_ok X _ _ _ _ Heq).
  (* Evaluate the policy *)
  pose proof (evaluate_phase_spec X cfg t s7) as (_ & _ & _ & Hev).
  destruct (evaluate_phase X cfg t s7) as [s8 [e3|]] eqn:Heval;
    simpl in Hev.
  { destruct Hev as (_ & _ & ->).
    rewrite (andthen_raise X _ _ _ _ _ Heval). simpl.
    exists (tr_evs ++ ep_evs), ups, [].
    rewrite Ht2, Ht1, H5t, <- app_assoc, app_nil_r.
    split; [reflexivity|].
    split; [intros d; apply by_iteration_no_steps; assumption|].
    split; [assumption|]. split; [assumption|].
    split; [assumption|]. split; [assumption|].
    split; [left; reflexivity | discriminate]. }
  destruct Hev as (_ & Ht3 & _).
  rewrite (andthen_ok X _ _ _ _ Heval). unfold lift. simpl.
  set (ev_evs := if eval_due cfg t then
                   [EvaluatePolicy (number_eval_episodes cfg) t;
                    UpdatePlotEval
                      (groupby_last
                         (snd (evaluate_policy_loop X (env_evaluation s7)
                                 (rl_agent s7) (number_eval_episodes cfg)
                                 (logger s7) t (Algorithm cfg))))]
                 else []) in *.
  set (evals := if eval_due cfg t then
                  [Evaluation (number_eval_episodes cfg) t]
                else []).
  assert (Hev3 : steps ev_evs = [] /\ invocations ev_evs = evals).
  { subst ev_evs evals. destruct (eval_due cfg t); split; reflexivity. }
  destruct Hev3 as (Hs3 & Hi3).
  assert (Hpre3 : steps ((tr_evs ++ ep_evs) ++ ev_evs) = []
                  /\ invocations ((tr_evs ++ ep_evs) ++ ev_evs)
                     = map (fun c => Update (fst c) (snd c)) ups ++ evals).
  { unfold steps, invocations in *.
    rewrite (flat_map_app _ (tr_evs ++ ep_evs)).
    rewrite (flat_map_app _ (tr_evs ++ ep_evs)).
    rewrite Hs12, Hs3, Hi12, Hi3. auto. }
  destruct Hpre3 as (Hs123 & Hi123).
  exists (((tr_evs ++ ep_evs) ++ ev_evs)
          ++ [UpdateProgress (progress cfg t); UpdateStep (t + 1)]),
    ups, evals.
  rewrite Ht3, Ht2, Ht1, H5t, <- !app_assoc.
  split; [reflexivity|].
  rewrite !app_assoc.
  assert (Hinv : invocations
                   (((tr_evs ++ ep_evs) ++ ev_evs)
                    ++ [UpdateProgress (progress cfg t); UpdateStep (t + 1)])
                 = map (fun c => Update (fst c) (snd c)) ups ++ evals).
  { unfold invocations in *.
    rewrite (flat_map_app _ ((tr_evs ++ ep_evs) ++ ev_evs)), Hi123.
    simpl. apply app_nil_r. }
  split.
  { intros d. rewrite by_iteration_app, Hs123. simpl.
    rewrite app_nil_r, Hinv, <- Hi123.
    apply by_iteration_no_steps; assumption. }
  split.
  { unfold steps in *.
    rewrite (flat_map_app _ ((tr_evs ++ ep_evs) ++ ev_evs)), Hs123.
    reflexivity. }
  split; [exact Hinv|]. split; [assumption|]. split; [assumption|].
  split.
  { subst evals. destruct (eval_due cfg t); [right|left]; auto. }
  intros _. auto.
Qed.

Lemma body_memory (t : Z) (s : loop_state X) :
  is_ppo cfg = false ->
  length (memory (fst (body X cfg t s))) = S (length (memory s)).
Proof.
  intros Hppo.
  destruct (body_views X cfg t s) as (evs0 & _ & _ & _ & _ & _ & Hm & _).
  destruct (Hm Hppo) as (Hlen & _). exact Hlen.
Qed.

Lemma iteration_marks (t : Z) (ups : list (Z * option Z))
    (evals : list invocation) (e : Z) :
  evals = [] \/ evals = [Evaluation e t] ->
  let l := map (pair t) (map (fun c => Update (fst c) (snd c)) ups ++ evals) in
  List.filter is_evaluation l = map (pair t) evals
  /\ map update_batch (List.filter is_update l)
     = map (fun c => (t, snd c)) ups.
Proof.
  intros Hev. cbv zeta. induction ups as [|c ups (IH1 & IH2)]; simpl.
  - destruct Hev as [-> | ->]; split; reflexivity.
  - unfold is_evaluation, is_update in *. simpl. rewrite IH1.
    split; [reflexivity|]. simpl. rewrite IH2. reflexivity.
Qed.

Lemma off_policy_updates_scheduled (t lo hi : Z)
    (ups : list (Z * option Z)) :
  is_ppo cfg = false ->
  Forall (fun c => c = (t + 1, Some (batch_size cfg))) ups ->
  (ups <> [] -> gateb cfg t = true) ->
  lo <= t < hi ->
  Forall (fun c => lo <= fst c < hi /\ scheduled cfg c)
    (map (pair t) (map (fun c => Update (fst c) (snd c)) ups)).
Proof.
  intros Hppo Hall Hg Ht.
  assert (Hgate : ups = [] \/ gateb cfg t = true).
  { destruct ups; [left; reflexivity|]. right. apply Hg. discriminate. }
  destruct Hgate as [-> | Hgate]; [constructor|]. clear Hg.
  induction Hall as [|c ups -> _ IH]; [constructor|].
  simpl. constructor; [|exact IH].
  simpl. split; [assumption|]. unfold scheduled. simpl. rewrite Hppo. auto.
Qed.

(** The invocations of a loop: every one of them is made in an
    iteration of the loop where the cadence allows it; a loop that runs
    out has made, in each iteration, all that the cadence asks for. *)
Lemma for_loop_invocations (k a : nat) (s : loop_state X) :
  (is_ppo cfg = false -> length (memory s) = a) ->
  let ts := map Z.of_nat (seq a k) in
  let r := for_loop X cfg true ts s in
  exists evs : list (event X),
    trace (fst r) = trace s ++ evs
    /\ Forall (fun c => Z.of_nat a <= fst c < Z.of_nat (a + k)
                        /\ scheduled cfg c)
         (by_iteration (Z.of_nat a) evs)
    /\ (snd r = Exhausted ->
        List.filter is_evaluation (by_iteration (Z.of_nat a) evs)
        = map (fun t => (t, Evaluation (number_eval_episodes cfg) t))
            (List.filter (eval_due cfg) ts)
        /\ map update_batch
             (List.filter is_update (by_iteration (Z.of_nat a) evs))
           = flat_map (updates_due cfg) ts).
Proof.
  revert a s; induction k as [|k IH]; intros a s Hmem; simpl.
  - exists []. rewrite app_nil_r. split; [reflexivity|].
    split; [constructor|]. intros _. split; reflexivity.
  - destruct (body_invocations (Z.of_nat a) s)
      as (evs1 & ups & evals & Ht1 & Hby1 & Hst1 & Hi1 & Hoff1 & Hppo1
          & Hev1 & Hok1).
    pose proof (body_memory (Z.of_nat a) s) as Hlen1.
    (* what the iteration has invoked is allowed in it *)
    assert (Hsched : Forall (fun c => Z.of_nat a <= fst c < Z.of_nat (a + S k)
                                      /\ scheduled cfg c)
                       (by_iteration (Z.of_nat a) evs1)).
    { rewrite Hby1, Hi1, map_app. apply Forall_app. split.
      - destruct (is_ppo cfg) eqn:Hppo.
        + destruct (Hppo1 eq_refl) as [-> | (Hdue & ->)]; [constructor|].
          repeat constructor; simpl; try lia.
          unfold scheduled. simpl. rewrite Hppo. auto.
        + destruct (Hoff1 eq_refl) as (Hall & Hg).
          apply off_policy_updates_scheduled; try assumption; [|lia].
          rewrite (Hmem eq_refl) in Hall.
          replace (Z.of_nat a + 1) with (Z.of_nat (S a)) by lia.
          exact Hall.
      - destruct Hev1 as [-> | (Hdue & ->)]; [constructor|].
        repeat constructor; simpl; try lia.
        unfold scheduled. simpl. auto. }
    destruct (body X cfg (Z.of_nat a) s) as [s1 [e|]]; simpl in *.
    + exists evs1. split; [assumption|]. split; [assumption | discriminate].
    + destruct (IH (S a) s1) as (evs2 & Ht2 & Hsched2 & Hex2).
      { intros Hppo. rewrite (Hlen1 Hppo), (Hmem Hppo). reflexivity. }
      exists (evs1 ++ evs2).
      split; [rewrite Ht2, Ht1, app_assoc; reflexivity|].
      assert (Hby : by_iteration (Z.of_nat a) (evs1 ++ evs2)
                    = by_iteration (Z.of_nat a) evs1
                      ++ by_iteration (Z.of_nat (S a)) evs2).
      { rewrite by_iteration_app, Hst1. simpl. f_equal. f_equal. lia. }
      rewrite Hby. split.
      { apply Forall_app. split; [assumption|].
        eapply Forall_impl; [exact Hsched2|].
        intros c (Hc & Hs). split; [lia | assumption]. }
      intros Hexit. destruct (Hex2 Hexit) as (He2 & Hu2).
      destruct (Hok1 eq_refl) as (Hu_off & Hu_ppo & Hevals).
      assert (Hcases : evals = []
                       \/ evals = [Evaluation (number_eval_episodes cfg)
                                     (Z.of_nat a)]).
      { rewrite Hevals. destruct (eval_due cfg (Z.of_nat a)); auto. }
      destruct (iteration_marks (Z.of_nat a) ups evals _ Hcases)
        as (Hm1 & Hm2).
      rewrite !List.filter_app, map_app, He2, Hu2.
      rewrite Hby1, Hi1, Hm1, Hm2. split.
      * rewrite Hevals. destruct (eval_due cfg (Z.of_nat a)); reflexivity.
      * f_equal. unfold updates_due. destruct (is_ppo cfg) eqn:Hppo.
        -- rewrite (Hu_ppo eq_refl).
           destruct (batch_due cfg (Z.of_nat a)); reflexivity.
        -- rewrite (Hu_off eq_refl).
           destruct (gateb cfg (Z.of_nat a)); [|reflexivity].
           generalize (Z.to_nat (G cfg)). intros g.
           induction g as [|g IHg]; simpl; [reflexivity|].
           rewrite IHg. reflexivity.
Qed.

Lemma by_iteration_train_calls (d : Z) (tr : list (event X)) :
  flat_map (fun c => match snd c with
                     | Update n b => [(n, b)]
                     | Evaluation _ _ => []
                     end) (by_iteration d tr)
  = train_calls tr.
Proof.
  revert d. induction tr as [|ev tr IH]; intros d; [reflexivity|].
  unfold train_calls in *. destruct ev; simpl; rewrite ?IH; reflexivity.
Qed.

Lemma gateb_gate (t : Z) : gateb cfg t = true -> gate cfg t.
Proof.
  unfold gateb, gate. destruct (is_dqn cfg); [apply Z.ltb_lt | apply Z.leb_le].
Qed.

(** The same for a call of the function, whichever way it ends. *)
Lemma run_invocations (log_folder_path : string) (is_running : bool) :
  let r := training_loop X cfg log_folder_path is_running in
  Forall (fun c => 0 <= fst c < steps_training cfg /\ scheduled cfg c)
    (by_iteration 0 (events r))
  /\ (forall s : loop_state X,
        is_running = true -> r = Returned s ->
        List.filter is_evaluation (by_iteration 0 (trace s))
        = map (fun t => (t, Evaluation (number_eval_episodes cfg) t))
            (List.filter (eval_due cfg) (range (steps_training cfg)))
        /\ map update_batch (List.filter is_update (by_iteration 0 (trace s)))
           = flat_map (updates_due cfg) (range (steps_training cfg))).
Proof.
  cbv zeta.
  assert (Hfin : forall (tr : list (event X)) (b : bool),
            by_iteration 0 (tr ++ [SaveLogs; PolicyLoopTest;
                                   TrainingCompleted b])
            = by_iteration 0 tr).
  { intros tr b. rewrite by_iteration_app. simpl. apply app_nil_r. }
  destruct (training_loop_events X cfg log_folder_path is_running)
    as [(e & _ & Hr & Hev)|(s0 & s & x & Hs0 & Hloop & Hx)].
  { rewrite Hev, Hr. split; [constructor | discriminate]. }
  apply setup_initial in Hs0 as (Htr & Hmem & _).
  destruct is_running.
  - destruct (for_loop_invocations (Z.to_nat (steps_training cfg)) 0 s0)
      as (evs & Ht & Hsched & Hex).
    { intros _. rewrite Hmem. reflexivity. }
    fold (range (steps_training cfg)) in *. rewrite Hloop in Ht, Hex.
    cbn [fst snd] in Ht, Hex. rewrite Htr in Ht. simpl in Ht, Hsched.
    assert (Hsched' : Forall (fun c => 0 <= fst c < steps_training cfg
                                       /\ scheduled cfg c)
                        (by_iteration 0 (trace s))).
    { rewrite Ht. eapply Forall_impl; [exact Hsched|].
      intros c (Hc & Hs). split; [lia | assumption]. }
    destruct x; destruct Hx as (Hr & Hev); rewrite Hev, ?Hfin.
    + split; [assumption|]. intros s' _ Hs'. rewrite Hr in Hs'.
      injection Hs' as <-. simpl. rewrite Hfin, Ht. apply Hex. reflexivity.
    + split; [assumption|]. intros s' _ Hs'. rewrite Hr in Hs'.
      exfalso. pose proof (for_loop_views X cfg (range (steps_training cfg))
                             s0) as Hv.
      rewrite Hloop in Hv. simpl in Hv.
      destruct Hv as (? & ? & ? & ? & _ & _ & _ & _ & _ & _ & _ & _ & _ & []).
    + split; [assumption|]. intros s' _ Hs'. rewrite Hr in Hs'. discriminate.
  - rewrite for_loop_false in Hloop.
    assert (Hnone : by_iteration 0 (trace s) = []).
    { destruct (range (steps_training cfg)); injection Hloop as <- <-;
        simpl; rewrite Htr; reflexivity. }
    split; [|discriminate].
    destruct x; destruct Hx as (_ & ->); rewrite ?Hfin, Hnone; constructor.
Qed.

End LoopInvocations.

(** C1, as it holds on the code.  Every training update of an off-policy
    agent is made in an iteration [t] of the loop ([0 <= t <
    steps_training], located by the steps reported before it) in which
    the gate of the family is open, with the memory holding [t + 1]
    transitions: one per step taken so far, the current one included.
    For DQN, whose updates are gated by [total_step_counter > batch_size],
    the memory then holds at least [batch_size + 2] transitions, whatever
    the configuration.  For the other off-policy agents, whose updates
    are gated by [total_step_counter >= steps_exploration], it holds at
    least [steps_exploration + 1] transitions (and at least one), hence
    at least [batch_size] of them whenever
    [batch_size <= steps_exploration + 1]. *)
Theorem training_updates_wait_for_memory :
  forall (X : externals) (cfg : config) (log_folder_path : string)
    (is_running : bool),
    let tr := events (training_loop X cfg log_folder_path is_running) in
    let calls := train_calls tr in
    calls = flat_map (fun c => match snd c with
                               | Update n b => [(n, b)]
                               | Evaluation _ _ => []
                               end) (by_iteration 0 tr)
    /\ (is_ppo cfg = false ->
        Forall (fun c => match snd c with
                         | Update n b =>
                             0 <= fst c < steps_training cfg
                             /\ gate cfg (fst c)
                             /\ n = fst c + 1
                             /\ b = Some (batch_size cfg)
                         | Evaluation _ _ => True
                         end) (by_iteration 0 tr))
    /\ (is_dqn cfg = true ->
        Forall (fun c => batch_size cfg + 2 <= fst c
                         /\ snd c = Some (batch_size cfg)) calls)
    /\ (is_ppo cfg = false -> is_dqn cfg = false ->
        Forall (fun c => steps_exploration cfg + 1 <= fst c
                         /\ 1 <= fst c
                         /\ snd c = Some (batch_size cfg)
                         /\ (batch_size cfg <= steps_exploration cfg + 1 ->
                             batch_size cfg <= fst c)) calls).
Proof.
  intros X cfg log_folder_path is_running tr calls.
  split; [symmetry; apply by_iteration_train_calls|].
  split.
  { intros Hoff.
    destruct (run_invocations X cfg log_folder_path is_running) as (H & _).
    eapply Forall_impl; [exact H|].
    intros [t [n b|e t']] (Ht & Hs); [|exact I].
    unfold scheduled in Hs. simpl in Hs. rewrite Hoff in Hs.
    destruct Hs as (Hg & Hn & Hb). simpl.
    split; [assumption|]. split; [apply gateb_gate; assumption | auto]. }
  assert (Hcalls : is_ppo cfg = false ->
            Forall (fun c => exists t : Z,
                      0 <= t /\ gate cfg t
                      /\ c = (t + 1, Some (batch_size cfg))) calls).
  { intros Hoff. subst calls tr.
    destruct (training_loop_events X cfg log_folder_path is_running)
      as [(e & _ & _ & ->)|(s0 & s & x & Hs0 & Hloop & Hx)];
      [constructor|].
    apply setup_initial in Hs0 as (Htr & Hmem & _).
    pose proof (for_loop_train_calls X cfg Hoff is_running
                  (Z.to_nat (steps_training cfg)) 0 s0) as H.
    rewrite Hmem in H. specialize (H eq_refl).
    fold (range (steps_training cfg)) in H. rewrite Hloop in H.
    destruct H as (evs & Ht & Hc). simpl in Ht, Hc.
    rewrite Htr in Ht; simpl in Ht.
    assert (Hfin : forall b,
              train_calls (trace s ++ [SaveLogs; PolicyLoopTest;
                                       TrainingCompleted b])
              = train_calls evs).
    { intros b. unfold train_calls. rewrite flat_map_app, Ht. simpl.
      apply app_nil_r. }
    destruct x; destruct Hx as (_ & ->); rewrite ?Hfin, ?Ht; exact Hc. }
  split.
  - intros Hdqn. specialize (Hcalls (dqn_not_ppo cfg Hdqn)).
    eapply Forall_impl; [exact Hcalls|].
    intros c (t & Ht & Hg & ->). unfold gate in Hg. rewrite Hdqn in Hg.
    simpl. split; [lia|reflexivity].
  - intros Hppo Hdqn. specialize (Hcalls Hppo).
    eapply Forall_impl; [exact Hcalls|].
    intros c (t & Ht & Hg & ->). unfold gate in Hg. rewrite Hdqn in Hg.
    simpl. repeat split; lia.
Qed.


(** ** Deduplication of the evaluation records *)

Section GroupBy.
Variable R : Type.



Lemma assoc_absent (k : Z) (l : list (Z * R)) :
  Forall (Z.lt k) (map fst l) -> assoc k l = None.
Proof.
  induction l as [|[k' v'] l IH]; simpl; intros Hall; [reflexivity|].
  inversion Hall as [|? ? Hk Hrest]; subst.
  destruct (k =? k') eqn:Heq; [apply Z.eqb_eq in Heq; lia | auto].
Qed.




End GroupBy.

(** ** The loop as a whole *)

Section LoopOutcome.
Variable X : externals.
Variable cfg : config.

Lemma range_nonempty (n : Z) : range n <> [] -> 0 < n.
Proof.
  unfold range. destruct (Z.to_nat n) eqn:Hn; simpl; [congruence|].
  intros _. lia.
Qed.

(** Whatever [is_running] is, from a state with an empty trace. *)
Lemma for_loop_outcome (is_running : bool) (s0 : loop_state X) :
  trace s0 = [] ->
  let r := for_loop X cfg is_running (range (steps_training cfg)) s0 in
  exists done_ts rest : list Z,
    range (steps_training cfg) = done_ts ++ rest
    /\ finals (trace (fst r)) = []
    /\ Forall (fun df => exists raw, df = groupby_last raw)
         (eval_plots (trace (fst r)))
    /\ steps (trace (fst r)) = map Z.succ done_ts
    /\ evaluations (trace (fst r))
       = map (fun t => (number_eval_episodes cfg, t))
           (List.filter (eval_due cfg) done_ts)
    /\ (evaluation_interval cfg = 0 -> done_ts = [])
    /\ (exists k : nat, exploration_rate (fst r)
                        = Nat.iter k (decay cfg) (exploration_rate s0))
    /\ match snd r with
       | Exhausted => rest = [] /\ prints (trace (fst r)) = []
       | Interrupted =>
           is_running = false /\ 0 < steps_training cfg /\ done_ts = []
           /\ prints (trace (fst r))
              = ["Training loop interrupted. Exiting..."]
       | Raised _ => is_running = true
       end.
Proof.
  intros Htr. destruct is_running.
  - destruct (for_loop_views X cfg (range (steps_training cfg)) s0)
      as (done_ts & rest & evs & k & Hts & Ht & Hf & Hp & Hg & Hs & He & Hr
          & Hz & Hexit).
    cbv zeta. rewrite Htr in Ht; simpl in Ht. rewrite Ht.
    exists done_ts, rest. repeat (split; [assumption|]).
    split; [exists k; assumption|].
    destruct (snd (for_loop X cfg true _ s0)); tauto.
  - cbv zeta. rewrite for_loop_false.
    destruct (range (steps_training cfg)) as [|t ts] eqn:Hrange; simpl.
    + exists [], []. rewrite Htr. simpl.
      repeat split; try constructor. exists O; reflexivity.
    + exists [], (t :: ts). rewrite Htr. simpl.
      repeat split; try constructor; try (exists O; reflexivity).
      apply range_nonempty. rewrite Hrange. discriminate.
Qed.

Lemma finals_finalize (b : bool) (pre : list (event X)) :
  finals pre = [] ->
  finals (pre ++ [SaveLogs; PolicyLoopTest; TrainingCompleted b])
  = [SaveLogs; PolicyLoopTest; TrainingCompleted b].
Proof.
  intros H. unfold finals in *. rewrite flat_map_app, H. reflexivity.
Qed.


End LoopOutcome.

(** C2. When [training_loop] returns, the last three things it has done
    are the log flush, the policy-verification run and the emission of the
    completion flag, in this order and once each; this holds on both ways
    out of the loop.  The flag is [True] exactly when every step of the
    budget was completed (steps 1 to [steps_training] were reported, and
    nothing was interrupted), and [False] exactly when the loop was left
    through the [is_running] check, before any step.  A call that is
    cancelled always returns once the statements before the loop have
    succeeded; a call that an exception leaves emits no flag. *)
Theorem completion_flag :
  forall (X : externals) (cfg : config) (log_folder_path : string)
    (is_running : bool),
    let r := training_loop X cfg log_folder_path is_running in
    match r with
    | Returned s =>
        exists (pre : list (event X)) (b : bool),
          trace s = pre ++ [SaveLogs; PolicyLoopTest; TrainingCompleted b]
          /\ finals pre = []
          /\ (b = true <->
              steps pre = map Z.succ (range (steps_training cfg))
              /\ prints pre = [])
          /\ (b = false <->
              is_running = false /\ 0 < steps_training cfg
              /\ steps pre = []
              /\ prints pre = ["Training loop interrupted. Exiting..."])
    | Failed e _ => finals (events r) = []
    end
    /\ (is_running = false ->
        forall s0, setup X cfg log_folder_path = inl s0 ->
        exists s, r = Returned s).
Proof.
  intros X cfg log_folder_path is_running r. subst r.
  destruct (training_loop_events X cfg log_folder_path is_running)
    as [(e & Hs0 & Hr & Hev)|(s0 & s & x & Hs0 & Hloop & Hx)].
  { rewrite Hr in *. split; [exact Hev|].
    intros _ s0 H; rewrite Hs0 in H; discriminate. }
  apply setup_initial in Hs0 as Hinit. destruct Hinit as (Htr & _ & _).
  destruct (for_loop_outcome X cfg is_running s0 Htr)
    as (done_ts & rest & Hts & Hf & _ & Hs & _ & _ & _ & Hexit).
  rewrite Hloop in Hf, Hs, Hexit. simpl in Hf, Hs, Hexit.
  destruct x.
  - destruct Hx as (Hr & _). destruct Hexit as (-> & Hp).
    rewrite app_nil_r in Hts. rewrite Hr. split.
    + exists (trace s), true. split; [reflexivity|]. split; [assumption|].
      split.
      * split; [intros _|reflexivity]. rewrite Hts. auto.
      * split; [discriminate|]. intros (_ & _ & _ & H).
        rewrite Hp in H; discriminate.
    + intros _ s1 _. eexists; reflexivity.
  - destruct Hx as (Hr & _). destruct Hexit as (Hrun & Hpos & -> & Hp).
    rewrite Hr. split.
    + exists (trace s), false. split; [reflexivity|]. split; [assumption|].
      split.
      * split; [discriminate|]. intros (_ & H).
        rewrite Hp in H; discriminate.
      * split; [intros _|reflexivity]. auto.
    + intros _ s1 _. eexists; reflexivity.
  - destruct Hx as (Hr & Hev). rewrite Hr in *. split.
    + rewrite Hev. assumption.
    + intros Hrun. rewrite Hrun in Hexit. discriminate.
Qed.


(** ** The exploration schedule of the epsilon-greedy family *)

Lemma decay_floor (cfg : config) (r : Q) :
  (epsilon_min cfg <= decay cfg r)%Q.
Proof. unfold decay. apply Q.le_max_l. Qed.

Lemma Qlt_bool_spec (a b : Q) : Qlt_bool a b = true <-> (a < b)%Q.
Proof.
  unfold Qlt_bool. rewrite negb_true_iff. split.
  - intros H. apply Qnot_le_lt. intros Hle.
    apply Qle_bool_iff in Hle. congruence.
  - intros H. destruct (Qle_bool b a) eqn:Hb; [|reflexivity].
    apply Qle_bool_iff in Hb. lra.
Qed.

Lemma rate_after_succ (cfg : config) (k : nat) :
  rate_after cfg (S k) = decay cfg (rate_after cfg k).
Proof. reflexivity. Qed.

Lemma decay_power (d : Q) (k : nat) :
  (0 <= d)%Q ->
  (0 <= d ^ Z.of_nat k
   /\ (d <= 1 -> d ^ Z.of_nat k <= 1)
   /\ (1 <= d -> 1 <= d ^ Z.of_nat k)
   /\ d ^ Z.of_nat (S k) == d ^ Z.of_nat k * d)%Q.
Proof.
  intros Hd.
  assert (Hstep : forall j : nat,
            (d ^ Z.of_nat (S j) == d ^ Z.of_nat j * d)%Q).
  { intros j. rewrite Nat2Z.inj_succ. unfold Z.succ.
    rewrite Qpower_plus' by lia. reflexivity. }
  split; [|split; [|split; [|apply Hstep]]].
  - induction k as [|k IH]; [change (0 <= 1)%Q; lra | rewrite Hstep; nra].
  - intros H1. induction k as [|k IH]; [change (1 <= 1)%Q; lra|].
    assert (H0 : (0 <= d ^ Z.of_nat k)%Q).
    { clear IH. induction k as [|k IH]; [change (0 <= 1)%Q; lra | rewrite Hstep; nra]. }
    rewrite Hstep. nra.
  - intros H1. induction k as [|k IH]; [change (1 <= 1)%Q; lra|].
    rewrite Hstep. nra.
Qed.

Lemma rate_after_closed_form (cfg : config) (k : nat) :
  (0 <= epsilon_decay cfg)%Q -> (epsilon_min cfg <= 1)%Q ->
  (rate_after cfg k
   == Qmax (epsilon_min cfg) (1 * epsilon_decay cfg ^ Z.of_nat k))%Q.
Proof.
  intros Hd Hm. induction k as [|k IH].
  - unfold rate_after; simpl.
    destruct (Q.max_spec (epsilon_min cfg) (1 * 1)) as [[_ ->]|[H ->]]; lra.
  - rewrite rate_after_succ. unfold decay.
    destruct (decay_power (epsilon_decay cfg) k Hd) as (Hp & Hle & Hge & Hs).
    set (m := epsilon_min cfg) in *. set (d := epsilon_decay cfg) in *.
    set (r := rate_after cfg k) in *.
    set (p := (d ^ Z.of_nat k)%Q) in *.
    set (p' := (d ^ Z.of_nat (S k))%Q) in *.
    destruct (Qlt_le_dec d 1) as [Hd1|Hd1].
    + assert (Hp1 : (p <= 1)%Q) by (apply Hle; lra). clear Hle Hge.
      destruct (Q.max_spec m (1 * p)) as [[H1 E1]|[H1 E1]];
        rewrite E1 in IH;
        destruct (Q.max_spec m (r * d)) as [[H2 ->]|[H2 ->]];
        destruct (Q.max_spec m (1 * p')) as [[H3 ->]|[H3 ->]];
        rewrite ?IH in *; nra.
    + assert (Hp1 : (1 <= p)%Q) by (apply Hge; lra). clear Hle Hge.
      destruct (Q.max_spec m (1 * p)) as [[H1 E1]|[H1 E1]];
        rewrite E1 in IH;
        destruct (Q.max_spec m (r * d)) as [[H2 ->]|[H2 ->]];
        destruct (Q.max_spec m (1 * p')) as [[H3 ->]|[H3 ->]];
        rewrite ?IH in *; nra.
Qed.

(** C4, as it holds on the code.  Every decay application leaves the
    exploration rate at or above [epsilon_min]: so does the rate after
    [k >= 1] applications.  When [0 <= epsilon_decay] and
    [epsilon_min <= 1], the rate after [k] applications is
    [max(epsilon_min, 1 * epsilon_decay^k)] for every [k >= 0]; the
    second condition cannot be dropped, being what the formula says at
    [k = 0].  In the loop, DQN's action selection leaves the rate alone
    and samples during the first [steps_exploration] steps; from then on
    it applies the decay once at each step, and the number it compares
    [random.random()] with is the rate it has just decayed: it samples
    when the draw is below that rate and asks the policy otherwise.  The
    rate a returning call ends with is the rate after some number of
    applications, starting from 1. *)
Theorem exploration_schedule :
  forall cfg : config,
    (forall r : Q, (epsilon_min cfg <= decay cfg r)%Q)
    /\ (forall k : nat,
          (1 <= k)%nat -> (epsilon_min cfg <= rate_after cfg k)%Q)
    /\ ((0 <= epsilon_decay cfg)%Q -> (epsilon_min cfg <= 1)%Q ->
        forall k : nat,
          (rate_after cfg k
           == Qmax (epsilon_min cfg)
                (1 * epsilon_decay cfg ^ Z.of_nat k))%Q)
    /\ ((rate_after cfg 0
         == Qmax (epsilon_min cfg) (1 * epsilon_decay cfg ^ Z.of_nat 0))%Q ->
        (epsilon_min cfg <= 1)%Q)
    /\ (forall (X : externals) (t : Z) (s : loop_state X),
          is_dqn cfg = true -> steps_exploration cfg <= t ->
          exploration_rate (snd (select_action X cfg t s))
          = decay cfg (exploration_rate s))
    /\ (forall (X : externals) (t : Z) (s : loop_state X),
          is_dqn cfg = true -> steps_exploration cfg <= t ->
          let rate := decay cfg (exploration_rate s) in
          let u := fst (random_random X (rng s)) in
          let s2 :=
            set_rng X (snd (random_random X (rng s)))
              (set_exploration_rate X rate s) in
          ((u < rate)%Q -> select_action X cfg t s = sample_action X s2)
          /\ (~ (u < rate)%Q ->
              select_action X cfg t s = policy_action X false s2))
    /\ (forall (X : externals) (t : Z) (s : loop_state X),
          is_dqn cfg = true -> t < steps_exploration cfg ->
          select_action X cfg t s = sample_action X s)
    /\ (forall (X : externals) (log_folder_path : string)
          (is_running : bool) (s : loop_state X),
          training_loop X cfg log_folder_path is_running = Returned s ->
          exists k : nat, exploration_rate s = rate_after cfg k).
Proof.
  intros cfg. split; [apply decay_floor|].
  split; [|split; [|split; [|split; [|split; [|split]]]]].
  - intros [|k] Hk; [lia|]. rewrite rate_after_succ. apply decay_floor.
  - intros Hd Hm k. apply rate_after_closed_form; assumption.
  - unfold rate_after. simpl.
    destruct (Q.max_spec (epsilon_min cfg) (1 * 1)) as [[H ->]|[H ->]]; lra.
  - intros X t s Hdqn Ht.
    pose proof (select_action_spec X cfg t s) as (_ & _ & Hr & _).
    rewrite Hr. unfold decays. rewrite (dqn_not_ppo cfg Hdqn), Hdqn.
    apply Z.leb_le in Ht. rewrite Ht. reflexivity.
  - intros X t s Hdqn Ht rate u s2. subst rate u s2.
    unfold select_action. rewrite (dqn_not_ppo cfg Hdqn), Hdqn.
    apply Z.ltb_ge in Ht. rewrite Ht. simpl.
    destruct (random_random X (rng s)) as [u r]. simpl.
    split; intros Hu.
    + apply Qlt_bool_spec in Hu. rewrite Hu. reflexivity.
    + destruct (Qlt_bool u (decay cfg (exploration_rate s))) eqn:Hb;
        [|reflexivity].
      apply Qlt_bool_spec in Hb. contradiction.
  - intros X t s Hdqn Ht.
    unfold select_action. rewrite (dqn_not_ppo cfg Hdqn), Hdqn.
    apply Z.ltb_lt in Ht. rewrite Ht. reflexivity.
  - intros X log_folder_path is_running s Hret.
    destruct (training_loop_events X cfg log_folder_path is_running)
      as [(e & _ & Hr & _)|(s0 & s1 & x & Hs0 & Hloop & Hx)].
    { rewrite Hret in Hr; discriminate. }
    apply setup_initial in Hs0 as (Htr & _ & Hrate).
    destruct (for_loop_outcome X cfg is_running s0 Htr)
      as (_ & _ & _ & _ & _ & _ & _ & _ & (k & Hk) & _).
    rewrite Hloop, Hrate in Hk. simpl in Hk.
    exists k.
    destruct x; destruct Hx as (Hr & _); rewrite Hret in Hr;
      try discriminate; injection Hr as ->; simpl; exact Hk.
Qed.

(** The two conditions of the closed form are needed.  With
    [epsilon_min = 3] and [epsilon_decay = 2] the rate after two
    applications is 6, not [max(3, 1 * 2^2) = 4]; with
    [epsilon_min = 1/10] and [epsilon_decay = -1] it is 1/10, not
    [max(1/10, 1 * (-1)^2) = 1]. *)
Lemma steep_decay_leaves_closed_form :
  ~ (rate_after Stub.cfg_steep 2
     == Qmax (epsilon_min Stub.cfg_steep)
          (1 * epsilon_decay Stub.cfg_steep ^ 2))%Q
  /\ (epsilon_min Stub.cfg_negative_decay <= 1)%Q
  /\ ~ (rate_after Stub.cfg_negative_decay 2
        == Qmax (epsilon_min Stub.cfg_negative_decay)
             (1 * epsilon_decay Stub.cfg_negative_decay ^ 2))%Q.
Proof.
  split; [vm_compute; discriminate|].
  split; vm_compute; discriminate.
Qed.

(** With no exploration steps and batches of two, the first update of an
    off-policy agent other than DQN runs at the first step, with one
    transition in the memory. *)
Lemma eager_update_with_one_transition :
  is_ppo Stub.cfg_eager = false /\ is_dqn Stub.cfg_eager = false
  /\ In (1, Some 2)
       (train_calls
          (events (training_loop Stub.world Stub.cfg_eager "log" true)))
  /\ 1 < batch_size Stub.cfg_eager.
Proof. vm_compute. repeat split; auto. Qed.

(** ** Cancellation through the training thread *)

Lemma for_loop_shared_loop (X : externals) (cfg : config)
    (stops : Z -> bool) (self : UI.TrainingThread) (is_running : bool)
    (ts : list Z) (s : loop_state X) :
  snd (UI.for_loop_shared X cfg stops self is_running ts s)
  = for_loop X cfg is_running ts s.
Proof.
  revert self s; induction ts as [|t ts IH]; intros self s; simpl.
  - reflexivity.
  - destruct is_running; simpl; [|reflexivity].
    destruct (body X cfg t s) as [s' [e|]]; [reflexivity|apply IH].
Qed.

(** Whatever the controller does to the thread object while [run]
    executes, [run] behaves as if it did nothing. *)
Lemma run_shared_run (X : externals) (stops : Z -> bool)
    (self : UI.TrainingThread) :
  snd (UI.run_shared X stops self) = UI.run X self.
Proof.
  unfold UI.run_shared, UI.run, training_loop.
  destruct (setup X _ _) as [s0|e]; [|reflexivity].
  pose proof (for_loop_shared_loop X (UI.config_data self) stops self
                (UI._is_running self)
                (range (steps_training (UI.config_data self))) s0) as H.
  destruct (UI.for_loop_shared X _ stops self _ _ s0) as [self' r].
  simpl in *. rewrite H. reflexivity.
Qed.

(** C3, on the code: a thread is started on the ten-step configuration
    and the controller calls [stop()] once six steps are done.  The call
    clears [_is_running] on the thread object, yet the loop goes on for
    the four remaining steps, prints no interruption message and reports
    the run as completed; in general the outcome of [run] does not depend
    on the controller's calls of [stop()] at all. *)
Theorem stop_request_not_polled :
  (let r :=
     UI.run_shared Stub.world (fun t => t =? 6)
       (UI.init (Stub.cfg_for "DDPG") "log") in
   UI._is_running (fst r) = false
   /\ steps (events (snd r)) = [1; 2; 3; 4; 5; 6; 7; 8; 9; 10]
   /\ prints (events (snd r)) = []
   /\ finals (events (snd r))
      = [SaveLogs; PolicyLoopTest; TrainingCompleted true])
  /\ (forall (X : externals) (stops : Z -> bool)
        (self : UI.TrainingThread),
        snd (UI.run_shared X stops self) = UI.run X self).
Proof.
  split; [vm_compute; repeat split | apply run_shared_run].
Qed.

(** ** The end-to-end run of the specification's test list

    Ten steps, three exploration steps, evaluation every five steps,
    batches of two, episodes ending at steps 4 and 9. *)

Example end_to_end_ddpg :
  let tr :=
    events (training_loop Stub.world (Stub.cfg_for "DDPG") "log" true) in
  steps tr = [1; 2; 3; 4; 5; 6; 7; 8; 9; 10]
  /\ evaluations tr = [(2, 4); (2, 9)]
  /\ train_calls tr
     = [(4, Some 2); (5, Some 2); (6, Some 2); (7, Some 2); (8, Some 2);
        (9, Some 2); (10, Some 2)]
  /\ finals tr = [SaveLogs; PolicyLoopTest; TrainingCompleted true].
Proof. vm_compute. repeat split. Qed.

Example end_to_end_dqn :
  let tr :=
    events (training_loop Stub.world (Stub.cfg_for "DQN") "log" true) in
  evaluations tr = [(2, 4); (2, 9)]
  /\ train_calls tr
     = [(4, Some 2); (5, Some 2); (6, Some 2); (7, Some 2); (8, Some 2);
        (9, Some 2); (10, Some 2)].
Proof. vm_compute. repeat split. Qed.

Example cancelled_from_the_start :
  events (training_loop Stub.world (Stub.cfg_for "DDPG") "log" false)
  = [Print "Training loop interrupted. Exiting..."; SaveLogs;
     PolicyLoopTest; TrainingCompleted false].
Proof. reflexivity. Qed.

Example groupby_last_example :
  groupby_last [(3, "a"); (1, "b"); (3, "c"); (2, "d"); (1, "e")]
  = [(1, "e"); (2, "d"); (3, "c")].
Proof. reflexivity. Qed.

(** ** The agents on concrete numbers *)

Example soft_update_example :
  params_eq (soft_update (1 # 4) [4; 8]%Q [0; 4; 7]%Q) [1; 5; 7]%Q.
Proof. repeat constructor; vm_compute; reflexivity. Qed.

(** A DQN agent with one parameter whose gradient step adds one, with a
    hard synchronisation every three learning steps. *)
Example dqn_three_updates :
  let step (opt : unit) (net target : params) (gamma : Q) (b : unit)
        (n : Z) := (opt, map (Qplus 1) net) in
  let train k :=
    fst (DQN.train_policy_times (fun (_ : unit) _ => tt) step k
           (DQN.init [0%Q] 2 (99 # 100) (1 # 1000) 3 tt) tt 32) in
  DQN.target_net (train 2%nat) = [0%Q]
  /\ DQN.net (train 2%nat) = [2%Q]
  /\ DQN.target_net (train 3%nat) = [3%Q]
  /\ DQN.learn_counter (train 3%nat) = 3
  /\ DQN.target_net (train 5%nat) = [3%Q]
  /\ DQN.target_net (train 6%nat) = [6%Q].
Proof. vm_compute. repeat split. Qed.

(** One transition with reward 2, not terminal, a target critic that
    answers (3, 5) and an actor whose log-probability is 1/2:
    2 * 1 + 9/10 * (1 - 0) * (min(3, 5) - 1 * 1/2) = 17/4. *)
Example sac_q_target_example :
  let self :=
    SAC.init ([] : params) [] 1 (9 # 10) (1 # 200) (1 # 1000) (1 # 1000)
      (1 # 1000) tt tt tt in
  let b := SAC.mk_batch [tt] [tt] [2%Q] [tt] [0%Q] in
  Forall2 Qeq
    (SAC.q_target (fun _ _ (_ : unit) => (tt, (1 # 2)%Q, tt))
       (fun _ _ _ => (3%Q, 5%Q)) (fun x => (1 + x)%Q) self b [tt])
    [(17 # 4)%Q].
Proof. repeat constructor; vm_compute; reflexivity. Qed.

(** ** The conditional statements at concrete configurations *)

(** The DQN run of the end-to-end configuration: every update finds at
    least [batch_size + 2 = 4] transitions. *)
Lemma training_updates_wait_for_memory_dqn :
  is_dqn (Stub.cfg_for "DQN") = true
  /\ Forall (fun c => batch_size (Stub.cfg_for "DQN") + 2 <= fst c
                      /\ snd c = Some (batch_size (Stub.cfg_for "DQN")))
       (train_calls
          (events (training_loop Stub.world (Stub.cfg_for "DQN") "log"
                     true))).
Proof.
  split; [reflexivity|].
  apply (proj1 (proj2 (proj2 (training_updates_wait_for_memory Stub.world
                                (Stub.cfg_for "DQN") "log" true)))).
  reflexivity.
Defined.

(** With [epsilon_min = 1/10] and [epsilon_decay = 1/2] the rate after
    five applications is [max(1/10, (1/2)^5) = 1/10]. *)
Lemma exploration_schedule_half :
  (0 <= epsilon_decay (Stub.cfg_for "DQN"))%Q
  /\ (epsilon_min (Stub.cfg_for "DQN") <= 1)%Q
  /\ (rate_after (Stub.cfg_for "DQN") 5
      == Qmax (epsilon_min (Stub.cfg_for "DQN"))
           (1 * epsilon_decay (Stub.cfg_for "DQN") ^ Z.of_nat 5))%Q.
Proof.
  assert (Hd : (0 <= epsilon_decay (Stub.cfg_for "DQN"))%Q)
    by (simpl; lra).
  assert (Hm : (epsilon_min (Stub.cfg_for "DQN") <= 1)%Q) by (simpl; lra).
  split; [exact Hd|]. split; [exact Hm|].
  exact (proj1 (proj2 (proj2 (exploration_schedule (Stub.cfg_for "DQN"))))
           Hd Hm 5%nat).
Defined.

(** * Further properties of the code *)

(** ** Soft synchronisation, entry by entry *)

(** X1. With a rate between 0 and 1 the synchronised entry lies between the
    source entry and the old target entry, and its distance to the source
    is the old distance scaled by [1 - tau]. *)
Theorem soft_update_between (tau : Q) (source target : params) (i : nat)
    (p t : Q) :
  (0 <= tau <= 1)%Q ->
  source !! i = Some p -> target !! i = Some t ->
  exists v : Q,
    soft_update tau source target !! i = Some v
    /\ (Qmin p t <= v <= Qmax p t)%Q
    /\ (v - p == (1 - tau) * (t - p))%Q.
Proof.
  intros Htau Hp Ht.
  exists (tau * p + (1 - tau) * t)%Q.
  split; [apply soft_update_lookup; assumption|].
  split; [|ring].
  destruct (Q.min_spec p t) as [[H1 ->]|[H1 ->]];
    destruct (Q.max_spec p t) as [[H2 ->]|[H2 ->]]; nra.
Qed.

Lemma soft_update_between_witness :
  exists v : Q,
    soft_update (1 # 4) [4; 8]%Q [0; 4; 7]%Q !! 1%nat = Some v
    /\ (Qmin 8 4 <= v <= Qmax 8 4)%Q
    /\ (v - 8 == (1 - (1 # 4)) * (4 - 8))%Q.
Proof.
  apply (soft_update_between (1 # 4) [4; 8]%Q [0; 4; 7]%Q 1 8 4);
    [lra | reflexivity | reflexivity].
Defined.

(** X2. Synchronising [n] times with the same source leaves each entry at the
    source entry plus the original gap scaled by [(1 - tau)^n]. *)
Theorem soft_update_iterated (tau : Q) (source target : params)
    (n i : nat) (p t : Q) :
  source !! i = Some p -> target !! i = Some t ->
  exists v : Q,
    Nat.iter n (soft_update tau source) target !! i = Some v
    /\ (v - p == (1 - tau) ^ Z.of_nat n * (t - p))%Q.
Proof.
  intros Hp Ht. induction n as [|n (v & Hv & Hgap)].
  - exists t. split; [assumption|]. simpl. ring.
  - exists (tau * p + (1 - tau) * v)%Q.
    split; [simpl; apply soft_update_lookup; assumption|].
    rewrite Nat2Z.inj_succ. unfold Z.succ.
    rewrite Qpower_plus' by lia.
    change ((1 - tau) ^ 1)%Q with (1 - tau)%Q.
    assert (Hstep : (tau * p + (1 - tau) * v - p == (1 - tau) * (v - p))%Q)
      by ring.
    rewrite Hstep, Hgap. ring.
Qed.

Lemma soft_update_iterated_witness :
  exists v : Q,
    Nat.iter 3 (soft_update (1 # 2) [8%Q]) [0%Q] !! 0%nat = Some v
    /\ (v - 8 == (1 - (1 # 2)) ^ Z.of_nat 3 * (0 - 8))%Q.
Proof.
  apply (soft_update_iterated (1 # 2) [8%Q] [0%Q] 3 0 8 0); reflexivity.
Defined.

(** X3. The synchronisation keeps the number of target entries; target
    entries beyond the end of the source keep their values, and source
    entries beyond the end of the target are ignored. *)
Theorem soft_update_shape (tau : Q) (source target : params) :
  length (soft_update tau source target) = length target
  /\ drop (length source) (soft_update tau source target)
     = drop (length source) target
  /\ soft_update tau source target
     = soft_update tau (take (length target) source) target.
Proof.
  split; [apply soft_update_length|].
  revert target; induction source as [|p source IH]; intros [|t target];
    simpl; auto.
  destruct (IH target) as (H1 & H2). split; [assumption|].
  f_equal. assumption.
Qed.

(** ** DDPG over a sequence of training calls *)

Lemma params_eq_refl (a : params) : params_eq a a.
Proof. induction a; constructor; [reflexivity|assumption]. Qed.

Lemma params_eq_trans (a b c : params) :
  params_eq a b -> params_eq b c -> params_eq a c.
Proof.
  intros Hab; revert c; induction Hab as [|x y a b Hxy _ IH]; intros c Hbc.
  - inversion Hbc; constructor.
  - inversion Hbc as [|? z ? c' Hyz Hbc']; subst.
    constructor; [rewrite Hxy; assumption | apply IH; assumption].
Qed.

Section DDPGSequence.
Variables (Memory Batch States Opt : Type).
Variable sample_experience : Memory -> Z -> Batch.
Variable batch_states : Batch -> States.
Variable critic_step :
  Opt -> params -> params -> params -> Q -> Batch -> Opt * params * Q.
Variable actor_step : Opt -> params -> params -> States -> Opt * params * Q.

Let train :=
  DDPG.train_policy sample_experience batch_states critic_step actor_step.

Lemma ddpg_train_frame (self : DDPG.t Opt) (memory : Memory) (b : Z) :
  let self' := train self memory b in
  DDPG.gamma self' = DDPG.gamma self
  /\ DDPG.tau self' = DDPG.tau self
  /\ DDPG.actor_lr self' = DDPG.actor_lr self
  /\ DDPG.critic_lr self' = DDPG.critic_lr self
  /\ DDPG.target_critic_net self'
     = soft_update (DDPG.tau self) (DDPG.critic_net self')
         (DDPG.target_critic_net self)
  /\ DDPG.target_actor_net self'
     = soft_update (DDPG.tau self) (DDPG.actor_net self')
         (DDPG.target_actor_net self).
Proof.
  unfold train, DDPG.train_policy, DDPG._update_actor, DDPG._update_critic.
  destruct (critic_step _ _ _ _ _ _) as [[opt_c critic'] loss_c]; simpl.
  destruct (actor_step _ _ _ _) as [[opt_a actor'] loss_a]; simpl.
  repeat split.
Qed.

(** X4. Training never changes DDPG's hyperparameters nor the number of
    parameters of its two target networks, whatever the memories the
    successive calls sample from. *)
Theorem ddpg_training_invariants (self : DDPG.t Opt) (memories : list Memory)
    (batch_size : Z) :
  let self' :=
    fold_left (fun a m => train a m batch_size) memories self in
  DDPG.gamma self' = DDPG.gamma self
  /\ DDPG.tau self' = DDPG.tau self
  /\ DDPG.actor_lr self' = DDPG.actor_lr self
  /\ DDPG.critic_lr self' = DDPG.critic_lr self
  /\ length (DDPG.target_critic_net self')
     = length (DDPG.target_critic_net self)
  /\ length (DDPG.target_actor_net self')
     = length (DDPG.target_actor_net self).
Proof.
  revert self; induction memories as [|m memories IH]; intros self; simpl.
  - repeat split.
  - destruct (IH (train self m batch_size)) as (H1 & H2 & H3 & H4 & H5 & H6).
    destruct (ddpg_train_frame self m batch_size)
      as (F1 & F2 & F3 & F4 & F5 & F6).
    rewrite H1, H2, H3, H4, H5, H6, F1, F2, F3, F4, F5, F6.
    rewrite !soft_update_length. repeat split.
Qed.

(** X5. With [tau = 0] no amount of training moves the target networks:
    after any sequence of calls both are, entry by entry, what they were. *)
Theorem ddpg_targets_frozen (self : DDPG.t Opt) (memories : list Memory)
    (batch_size : Z) :
  (DDPG.tau self == 0)%Q ->
  let self' :=
    fold_left (fun a m => train a m batch_size) memories self in
  params_eq (DDPG.target_critic_net self') (DDPG.target_critic_net self)
  /\ params_eq (DDPG.target_actor_net self') (DDPG.target_actor_net self).
Proof.
  revert self; induction memories as [|m memories IH]; intros self Htau;
    simpl.
  - split; apply params_eq_refl.
  - destruct (ddpg_train_frame self m batch_size)
      as (_ & F2 & _ & _ & F5 & F6).
    destruct (IH (train self m batch_size)) as (H1 & H2).
    { rewrite F2; assumption. }
    split.
    + eapply params_eq_trans; [exact H1|].
      rewrite F5. apply soft_update_zero; assumption.
    + eapply params_eq_trans; [exact H2|].
      rewrite F6. apply soft_update_zero; assumption.
Qed.
End DDPGSequence.

Lemma ddpg_targets_frozen_witness :
  let self :=
    DDPG.init [1%Q] [2%Q] (99 # 100) 0 (1 # 1000) (1 # 1000) tt tt in
  let self' :=
    fold_left
      (fun a m =>
         DDPG.train_policy (fun (_ : unit) _ => tt) (fun _ => tt)
           (fun opt c _ _ _ _ => (opt, map (Qplus 1) c, 0%Q))
           (fun opt a _ _ => (opt, map (Qplus 1) a, 0%Q)) a m 32)
      [tt; tt; tt] self in
  params_eq (DDPG.target_critic_net self') (DDPG.target_critic_net self)
  /\ params_eq (DDPG.target_actor_net self') (DDPG.target_actor_net self).
Proof.
  apply (ddpg_targets_frozen unit unit unit unit (fun _ _ => tt)
           (fun _ => tt)
           (fun opt c _ _ _ _ => (opt, map (Qplus 1) c, 0%Q))
           (fun opt a _ _ => (opt, map (Qplus 1) a, 0%Q))).
  reflexivity.
Defined.

(** ** DQN over a sequence of training calls *)

Section DQNSequence.
Variables (Memory Batch Opt : Type).
Variable sample_experience : Memory -> Z -> Batch.
Variable gradient_step :
  Opt -> params -> params -> Q -> Batch -> Z -> Opt * params.
Variable memory : Memory.
Variable batch_size : Z.

Let train (self : DQN.t Opt) :=
  DQN.train_policy sample_experience gradient_step self memory batch_size.
Let train_times (n : nat) (self : DQN.t Opt) :=
  DQN.train_policy_times sample_experience gradient_step n self memory
    batch_size.

Lemma dqn_train_times_snoc (n : nat) (self : DQN.t Opt) :
  snd (train_times n self) = None ->
  train_times (S n) self = train (fst (train_times n self)).
Proof.
  revert self; induction n as [|n IH]; intros self.
  - intros _. unfold train_times. simpl. fold (train self).
    destruct (train self) as [self' [e|]]; reflexivity.
  - intros Hok.
    change (train_times (S (S n)) self)
      with (match train self with
            | (self', None) => train_times (S n) self'
            | r => r
            end).
    change (train_times (S n) self)
      with (match train self with
            | (self', None) => train_times n self'
            | r => r
            end) in Hok |- *.
    destruct (train self) as [self' [e|]]; [discriminate|].
    apply IH; assumption.
Qed.

Lemma dqn_train_times_freq (n : nat) (self : DQN.t Opt) :
  DQN.target_update_freq (fst (train_times n self))
  = DQN.target_update_freq self.
Proof.
  revert self; induction n as [|n IH]; intros self; [reflexivity|].
  change (train_times (S n) self)
    with (match train self with
          | (self', None) => train_times n self'
          | r => r
          end).
  pose proof (dqn_train_freq _ _ _ sample_experience gradient_step self
                memory batch_size) as Hf.
  fold (train self) in Hf.
  destruct (train self) as [self' [e|]]; simpl in *; [assumption|].
  rewrite IH; assumption.
Qed.

(** One call, when the frequency is not zero. *)
Lemma dqn_train_step (self : DQN.t Opt) :
  DQN.target_update_freq self <> 0 ->
  snd (train self) = None
  /\ DQN.learn_counter (fst (train self)) = DQN.learn_counter self + 1
  /\ DQN.target_net (fst (train self))
     = if (DQN.learn_counter self + 1) mod DQN.target_update_freq self =? 0
       then DQN.net (fst (train self)) else DQN.target_net self.
Proof.
  intros Hf. unfold train, DQN.train_policy.
  destruct (gradient_step _ _ _ _ _ _) as [opt' net'].
  apply Z.eqb_neq in Hf. rewrite Hf.
  destruct (_ mod _ =? 0); simpl; auto.
Qed.

(** X6. From a fresh agent with a positive [target_update_freq], after [n]
    training calls the target network is the online network as it was
    after the last call whose number was a multiple of the frequency; in
    particular it is still the initial network while [n] is below the
    frequency. *)
Theorem dqn_target_is_last_sync (net0 : params) (action_num : Z)
    (gamma lr : Q) (freq : Z) (opt0 : Opt) (n : nat) :
  0 < freq ->
  let agent k :=
    fst (train_times k (DQN.init net0 action_num gamma lr freq opt0)) in
  DQN.learn_counter (agent n) = Z.of_nat n
  /\ DQN.target_net (agent n)
     = DQN.net (agent (Z.to_nat (Z.of_nat n - Z.of_nat n mod freq)))
  /\ (Z.of_nat n < freq -> DQN.target_net (agent n) = net0).
Proof.
  intros Hfreq agent.
  set (self0 := DQN.init net0 action_num gamma lr freq opt0) in *.
  assert (Hok : forall k, snd (train_times k self0) = None).
  { intros k. apply dqn_train_times_total. simpl. lia. }
  assert (Hcount : forall k, DQN.learn_counter (agent k) = Z.of_nat k).
  { intros k. subst agent. simpl.
    unfold train_times. rewrite dqn_train_times_counter by apply Hok.
    simpl. lia. }
  assert (Hmain : forall k,
            DQN.target_net (agent k)
            = DQN.net (agent (Z.to_nat (Z.of_nat k - Z.of_nat k mod freq)))).
  { induction k as [|k IH].
    - rewrite Z.mod_0_l by lia. reflexivity.
    - assert (Hstep : agent (S k) = fst (train (agent k))).
      { subst agent. simpl. rewrite dqn_train_times_snoc by apply Hok.
        reflexivity. }
      assert (Hf : DQN.target_update_freq (agent k) = freq).
      { subst agent. simpl. rewrite dqn_train_times_freq. reflexivity. }
      destruct (dqn_train_step (agent k)) as (_ & _ & Ht); [lia|].
      rewrite Hf, Hcount in Ht.
      replace (Z.of_nat k + 1) with (Z.of_nat (S k)) in Ht by lia.
      rewrite Hstep, Ht.
      pose proof (Z.mod_pos_bound (Z.of_nat k) freq Hfreq) as Hb.
      pose proof (Z.mod_pos_bound (Z.of_nat (S k)) freq Hfreq) as Hb'.
      destruct (Z.of_nat (S k) mod freq =? 0) eqn:Hm.
      + apply Z.eqb_eq in Hm. rewrite Hm, Z.sub_0_r, Nat2Z.id.
        rewrite <- Hstep. reflexivity.
      + apply Z.eqb_neq in Hm. rewrite IH. f_equal. f_equal. f_equal.
        assert (Z.of_nat (S k) mod freq = Z.of_nat k mod freq + 1).
        { symmetry. apply (Z.mod_unique_pos _ _ (Z.of_nat k / freq)).
          - assert (Z.of_nat k mod freq + 1 <> freq).
            { intros Heq. apply Hm.
              rewrite Nat2Z.inj_succ. unfold Z.succ.
              rewrite <- Zplus_mod_idemp_l, Heq.
              apply Z_mod_same_full. }
            lia.
          - pose proof (Z.div_mod (Z.of_nat k) freq). lia. }
        lia. }
  split; [apply Hcount|]. split; [apply Hmain|].
  intros Hlt. rewrite Hmain, Z.mod_small by lia.
  rewrite Z.sub_diag. reflexivity.
Qed.

(** X7. With [target_update_freq = 0] every training call raises
    [ZeroDivisionError], after the gradient step and the increment of the
    counter have taken place; of several calls in a row only the first
    one runs, and the target network is never touched. *)
Theorem dqn_zero_frequency (self : DQN.t Opt) (n : nat) :
  DQN.target_update_freq self = 0 -> (1 <= n)%nat ->
  let r := train_times n self in
  snd r = Some ZeroDivisionError
  /\ DQN.learn_counter (fst r) = DQN.learn_counter self + 1
  /\ DQN.net (fst r)
     = snd (gradient_step (DQN.optimiser self) (DQN.net self)
              (DQN.target_net self) (DQN.gamma self)
              (sample_experience memory batch_size) batch_size)
  /\ DQN.target_net (fst r) = DQN.target_net self.
Proof.
  intros Hf Hn. destruct n as [|n]; [lia|].
  unfold train_times. simpl. unfold DQN.train_policy.
  destruct (gradient_step _ _ _ _ _ _) as [opt' net'].
  rewrite Hf. simpl. repeat split.
Qed.
End DQNSequence.

Lemma dqn_target_is_last_sync_witness :
  let agent k :=
    fst (DQN.train_policy_times (fun (_ : unit) _ => tt)
           (fun (opt : unit) net _ _ (_ : unit) _ => (opt, map (Qplus 1) net))
           k (DQN.init [0%Q] 2 (99 # 100) (1 # 1000) 3 tt) tt 32) in
  DQN.learn_counter (agent 5%nat) = Z.of_nat 5
  /\ DQN.target_net (agent 5%nat)
     = DQN.net (agent (Z.to_nat (Z.of_nat 5 - Z.of_nat 5 mod 3)))
  /\ (Z.of_nat 5 < 3 -> DQN.target_net (agent 5%nat) = [0%Q]).
Proof.
  apply (dqn_target_is_last_sync unit unit unit (fun _ _ => tt)
           (fun opt net _ _ _ _ => (opt, map (Qplus 1) net)) tt 32
           [0%Q] 2 (99 # 100) (1 # 1000) 3 tt 5).
  lia.
Defined.

Lemma dqn_zero_frequency_witness :
  let r :=
    DQN.train_policy_times (fun (_ : unit) _ => tt)
      (fun (opt : unit) net _ _ (_ : unit) _ => (opt, map (Qplus 1) net))
      2 (DQN.init [0%Q] 2 (99 # 100) (1 # 1000) 0 tt) tt 32 in
  snd r = Some ZeroDivisionError
  /\ DQN.learn_counter (fst r) = 0 + 1
  /\ DQN.net (fst r) = [1%Q]
  /\ DQN.target_net (fst r) = [0%Q].
Proof.
  apply (dqn_zero_frequency unit unit unit (fun _ _ => tt)
           (fun opt net _ _ _ _ => (opt, map (Qplus 1) net)) tt 32
           (DQN.init [0%Q] 2 (99 # 100) (1 # 1000) 0 tt) 2);
    [reflexivity | lia].
Defined.

(** ** DQN's greedy action *)

Lemma argmax_from_spec (l pre : list Q) (best_i : nat) (best : Q) :
  pre !! best_i = Some best ->
  (forall j w, pre !! j = Some w -> (w <= best)%Q) ->
  (forall j w, (j < best_i)%nat -> pre !! j = Some w -> (w < best)%Q) ->
  let i := argmax_from best_i best (length pre) l in
  exists v : Q,
    (pre ++ l) !! i = Some v
    /\ (forall j w, (pre ++ l) !! j = Some w -> (w <= v)%Q)
    /\ (forall j w, (j < i)%nat -> (pre ++ l) !! j = Some w -> (w < v)%Q).
Proof.
  revert pre best_i best; induction l as [|x l IH];
    intros pre best_i best Hbest Hmax Hfirst; simpl.
  - exists best. rewrite app_nil_r. auto.
  - assert (Hlen : length (pre ++ [x]) = S (length pre))
      by (rewrite length_app; simpl; lia).
    assert (Hbi : (best_i < length pre)%nat)
      by (apply lookup_lt_Some in Hbest; assumption).
    replace (pre ++ x :: l) with ((pre ++ [x]) ++ l)
      by (rewrite <- app_assoc; reflexivity).
    rewrite <- Hlen.
    destruct (Qle_bool x best) eqn:Hx.
    + apply Qle_bool_iff in Hx. apply IH.
      * rewrite lookup_app_l by assumption. assumption.
      * intros j w Hj. apply lookup_app_Some in Hj as [Hj|[_ Hj]].
        -- eapply Hmax; eassumption.
        -- destruct (j - length pre)%nat; simpl in Hj; [|discriminate].
           injection Hj as <-. assumption.
      * intros j w Hlt Hj. rewrite lookup_app_l in Hj by lia.
        eapply Hfirst; eassumption.
    + assert (Hgt : (best < x)%Q).
      { apply Qnot_le_lt. intros H. apply Qle_bool_iff in H. congruence. }
      apply IH.
      * rewrite lookup_app_r by lia. rewrite Nat.sub_diag. reflexivity.
      * intros j w Hj. apply lookup_app_Some in Hj as [Hj|[_ Hj]].
        -- apply Hmax in Hj. lra.
        -- destruct (j - length pre)%nat; simpl in Hj; [|discriminate].
           injection Hj as <-. lra.
      * intros j w Hlt Hj. rewrite lookup_app_l in Hj by lia.
        apply Hmax in Hj. lra.
Qed.

(** X8. [select_action_from_policy] returns the position of a largest
    Q-value of the network's output, the first one if several are equal,
    whatever the [evaluation] flag; on an empty output it raises
    [ValueError]. *)
Theorem dqn_greedy_action (State Opt : Type)
    (forward : params -> State -> list Q) (self : DQN.t Opt) (state : State)
    (evaluation : bool) :
  let q_values := forward (DQN.net self) state in
  match DQN.select_action_from_policy forward self state evaluation with
  | inl action =>
      exists v : Q,
        q_values !! action = Some v
        /\ (forall j w, q_values !! j = Some w -> (w <= v)%Q)
        /\ (forall j w, (j < action)%nat -> q_values !! j = Some w ->
                        (w < v)%Q)
  | inr e =>
      q_values = []
      /\ e = ValueError "attempt to get argmax of an empty sequence"
  end
  /\ DQN.select_action_from_policy forward self state evaluation
     = DQN.select_action_from_policy forward self state (negb evaluation).
Proof.
  unfold DQN.select_action_from_policy. cbv zeta.
  split; [|reflexivity].
  destruct (forward (DQN.net self) state) as [|x l]; simpl; [auto|].
  apply (argmax_from_spec l [x] 0 x).
  - reflexivity.
  - intros [|j] w Hj; simpl in Hj; [|discriminate].
    injection Hj as <-. lra.
  - intros j w Hlt. lia.
Qed.

(** ** Restoring a checkpoint *)

Section DQNCheckpoint.
Variables (Memory Batch Opt : Type).
Variable sample_experience : Memory -> Z -> Batch.
Variable gradient_step :
  Opt -> params -> params -> Q -> Batch -> Z -> Opt * params.

(** X9. Restoring a checkpoint of a DQN agent.  When an agent saves its
    network, goes through any number of training calls and then loads
    the file again (its own file, which fits its network), the online
    network is back to the saved one and nothing else is: the target
    network, the learning counter and the optimiser are those the
    training has left, so the target is not brought in line with the
    restored network. *)
Theorem dqn_checkpoint_restore (self : DQN.t Opt) (memory : Memory)
    (batch_size : Z) (n : nat) (filename filepath : string)
    (fs : filesystem) :
  let fs' := fst (DQN.save_models self filename filepath fs) in
  let later :=
    fst (DQN.train_policy_times sample_experience gradient_step n self
           memory batch_size) in
  DQN.load_models later filename filepath fs'
  = (DQN.mk (DQN.gamma later) (DQN.lr later) (DQN.net self)
       (DQN.target_net later) (DQN.learn_counter later)
       (DQN.target_update_freq later) (DQN.action_num later)
       (DQN.optimiser later), None).
Proof.
  destruct (dqn_save_spec Opt self filename filepath fs)
    as (fs1 & Hsave & _ & Hst).
  cbv zeta. rewrite Hsave. simpl.
  unfold DQN.load_models. rewrite torch_load_stored, Hst.
  rewrite decide_True by auto. reflexivity.
Qed.
End DQNCheckpoint.

(** Three training calls with a synchronisation every third call, then
    the restore: the online network is the saved [[0]] again, the target
    network stays the [[3]] of the synchronisation. *)
Lemma dqn_checkpoint_restore_witness :
  let self := DQN.init [0%Q] 2 (99 # 100) (1 # 1000) 3 tt in
  let fs' := fst (DQN.save_models self "dqn" "models" ∅) in
  let later :=
    fst (DQN.train_policy_times (fun (_ : unit) _ => tt)
           (fun (opt : unit) net _ _ (_ : unit) _ => (opt, map (Qplus 1) net))
           3 self tt 32) in
  let r := DQN.load_models later "dqn" "models" fs' in
  snd r = None
  /\ DQN.net (fst r) = [0%Q]
  /\ DQN.target_net (fst r) = [3%Q]
  /\ DQN.learn_counter (fst r) = 3.
Proof.
  cbv zeta.
  rewrite (dqn_checkpoint_restore unit unit unit (fun _ _ => tt)
             (fun opt net _ _ _ _ => (opt, map (Qplus 1) net))
             (DQN.init [0%Q] 2 (99 # 100) (1 # 1000) 3 tt) tt 32 3
             "dqn" "models" ∅).
  vm_compute. repeat split.
Defined.

Section DDPGCheckpoint.
Variables (Memory Batch States Opt : Type).
Variable sample_experience : Memory -> Z -> Batch.
Variable batch_states : Batch -> States.
Variable critic_step :
  Opt -> params -> params -> params -> Q -> Batch -> Opt * params * Q.
Variable actor_step : Opt -> params -> params -> States -> Opt * params * Q.

(** X10. Restoring a checkpoint of a DDPG agent.  When an agent saves its
    networks, goes through any sequence of training calls and then loads
    the files again (its own files, which fit its networks), the actor
    and the critic are back to the saved ones; the two target networks
    and the optimisers are those the training has left. *)
Theorem ddpg_checkpoint_restore (self : DDPG.t Opt)
    (memories : list Memory) (batch_size : Z)
    (filename filepath : string) (fs : filesystem) :
  let fs' := fst (DDPG.save_models self filename filepath fs) in
  let later :=
    fold_left
      (fun a m =>
         DDPG.train_policy sample_experience batch_states critic_step
           actor_step a m batch_size) memories self in
  DDPG.load_models later filename filepath fs'
  = (DDPG.mk (DDPG.actor_net self) (DDPG.critic_net self)
       (DDPG.target_actor_net later) (DDPG.target_critic_net later)
       (DDPG.gamma later) (DDPG.tau later) (DDPG.actor_lr later)
       (DDPG.critic_lr later) (DDPG.actor_net_optimiser later)
       (DDPG.critic_net_optimiser later), None).
Proof.
  destruct (save_two_files (DDPG.actor_net self) (DDPG.critic_net self)
              _ _ filepath fs (actor_critic_files_differ filename))
    as (fs2 & Hsave & _ & Hst).
  cbv zeta. unfold DDPG.save_models; fold (ensured fs filepath).
  rewrite Hsave; simpl.
  unfold DDPG.load_models. rewrite !torch_load_stored, !Hst.
  rewrite decide_False, decide_True; auto.
  - rewrite decide_True by auto. reflexivity.
  - intros [_ H]; symmetry in H; revert H.
    apply actor_critic_files_differ.
Qed.
End DDPGCheckpoint.

(** Two training calls with [tau = 1/2], then the restore: actor and
    critic are the saved ones again, the target networks have moved. *)
Lemma ddpg_checkpoint_restore_witness :
  let self :=
    DDPG.init [0%Q] [0%Q] (99 # 100) (1 # 2) (1 # 1000) (1 # 1000) tt tt in
  let fs' := fst (DDPG.save_models self "ddpg" "models" ∅) in
  let later :=
    fold_left
      (fun a m =>
         DDPG.train_policy (fun (_ : unit) _ => tt) (fun _ => tt)
           (fun opt c _ _ _ _ => (opt, map (Qplus 4) c, 0%Q))
           (fun opt a _ _ => (opt, map (Qplus 4) a, 0%Q)) a m 32)
      [tt; tt] self in
  let r := DDPG.load_models later "ddpg" "models" fs' in
  snd r = None
  /\ DDPG.actor_net (fst r) = [0%Q]
  /\ DDPG.critic_net (fst r) = [0%Q]
  /\ params_eq (DDPG.target_actor_net (fst r)) [5%Q]
  /\ params_eq (DDPG.target_critic_net (fst r)) [5%Q].
Proof.
  cbv zeta.
  rewrite (ddpg_checkpoint_restore unit unit unit unit (fun _ _ => tt)
             (fun _ => tt)
             (fun opt c _ _ _ _ => (opt, map (Qplus 4) c, 0%Q))
             (fun opt a _ _ => (opt, map (Qplus 4) a, 0%Q))
             (DDPG.init [0%Q] [0%Q] (99 # 100) (1 # 2) (1 # 1000)
                (1 # 1000) tt tt)
             [tt; tt] 32 "ddpg" "models" ∅).
  simpl fst. simpl snd.
  split; [reflexivity|]. split; [reflexivity|]. split; [reflexivity|].
  split; repeat constructor; vm_compute; reflexivity.
Defined.

(** X11. DDPG and SAC write the same two file names, DQN another one.
    Under one name and directory a save of a SAC agent therefore replaces
    the files a DDPG agent has saved, while saving a DQN agent leaves the
    actor and critic files as they were. *)
Theorem persisted_file_names :
  (forall (Opt Opt' : Type) (ddpg : DDPG.t Opt) (sac : SAC.t Opt')
      (filename filepath : string) (fs : filesystem),
      let fs' :=
        fst (SAC.save_models sac filename filepath
               (fst (DDPG.save_models ddpg filename filepath fs))) in
      stored fs' filepath (filename +:+ "_actor.pht")
      = Some (SAC.actor_net sac)
      /\ stored fs' filepath (filename +:+ "_critic.pht")
         = Some (SAC.critic_net sac))
  /\ (forall (Opt : Type) (dqn : DQN.t Opt) (filename filepath : string)
        (fs : filesystem),
        let fs' := fst (DQN.save_models dqn filename filepath fs) in
        stored fs' filepath (filename +:+ "_actor.pht")
        = stored fs filepath (filename +:+ "_actor.pht")
        /\ stored fs' filepath (filename +:+ "_critic.pht")
           = stored fs filepath (filename +:+ "_critic.pht")).
Proof.
  assert (Hswap : forall filename,
            filename +:+ "_critic.pht" <> filename +:+ "_actor.pht").
  { intros filename H; symmetry in H; revert H.
    apply actor_critic_files_differ. }
  split.
  - intros Opt Opt' ddpg sac filename filepath fs.
    set (fs1 := fst (DDPG.save_models ddpg filename filepath fs)).
    destruct (save_two_files (SAC.actor_net sac) (SAC.critic_net sac)
                _ _ filepath fs1 (actor_critic_files_differ filename))
      as (fs2 & Hsave & _ & Hst).
    cbv zeta. unfold SAC.save_models; fold (ensured fs1 filepath).
    rewrite Hsave; simpl. rewrite !Hst. split.
    + rewrite decide_False, decide_True; auto.
      intros [_ H]; revert H; apply Hswap.
    + rewrite decide_True; auto.
  - intros Opt dqn filename filepath fs.
    destruct (dqn_save_spec Opt dqn filename filepath fs)
      as (fs1 & Hsave & _ & Hst).
    cbv zeta. rewrite Hsave; simpl. rewrite !Hst.
    split; rewrite decide_False; auto;
      intros [_ H]; apply append_inj_r in H; discriminate.
Qed.

(** ** SAC: what the bootstrap target does not depend on *)

(** X12. For a terminal transition ([done = 1]) the bootstrap target is the
    scaled reward alone: neither the target critics, nor the actor, nor
    the temperature, nor [gamma] enter it.  The same holds when [gamma]
    is 0. *)
Theorem sac_terminal_target (Obs Act Noise Opt : Type)
    (actor_forward : params -> Obs -> Noise -> Act * Q * Act)
    (critic_forward : params -> Obs -> Act -> Q * Q) (exp : Q -> Q)
    (self : SAC.t Opt) (b : SAC.batch Obs Act) (eps : list Noise)
    (i : nat) (r d : Q) (s' : Obs) (e : Noise) :
  SAC.rewards b !! i = Some r -> SAC.dones b !! i = Some d ->
  SAC.next_states b !! i = Some s' -> eps !! i = Some e ->
  (d == 1 \/ SAC.gamma self == 0)%Q ->
  exists v : Q,
    SAC.q_target actor_forward critic_forward exp self b eps !! i = Some v
    /\ (v == r * SAC.reward_scale self)%Q.
Proof.
  intros Hr Hd Hs He Hterm.
  pose proof (sac_q_target_lookup Obs Act Noise Opt actor_forward
                critic_forward exp self b eps i r d s' e Hr Hd Hs He) as H.
  cbv zeta in H. eexists; split; [exact H|].
  unfold SAC.bootstrap_target.
  destruct Hterm as [-> | ->]; ring.
Qed.

Lemma sac_terminal_target_witness :
  exists v : Q,
    SAC.q_target (fun _ _ (_ : unit) => (tt, (1 # 2)%Q, tt))
      (fun _ _ _ => (3%Q, 5%Q)) (fun x => (1 + x)%Q)
      (SAC.init ([] : params) [] 1 (9 # 10) (1 # 200) (1 # 1000) (1 # 1000)
         (1 # 1000) tt tt tt)
      (SAC.mk_batch [tt] [tt] [2%Q] [tt] [1%Q]) [tt] !! 0%nat = Some v
    /\ (v == 2 * 1)%Q.
Proof.
  apply (sac_terminal_target unit unit unit unit
           (fun _ _ _ => (tt, (1 # 2)%Q, tt)) (fun _ _ _ => (3%Q, 5%Q))
           (fun x => (1 + x)%Q)
           (SAC.init ([] : params) [] 1 (9 # 10) (1 # 200) (1 # 1000)
              (1 # 1000) (1 # 1000) tt tt tt)
           (SAC.mk_batch [tt] [tt] [2%Q] [tt] [1%Q]) [tt] 0 2 1 tt tt);
    try reflexivity.
  left; reflexivity.
Defined.

(** ** Complete runs *)

Section LoopRuns.
Variable X : externals.
Variable cfg : config.

Lemma accounted_shift (e T T' : Z) (l : list (Z * Z * Z)) :
  T = T' -> accounted e T l -> accounted e T' l.
Proof. intros ->; auto. Qed.

(** The loop over the steps [a], [a + 1], ..., with [is_running] true. *)
Lemma for_loop_detail (k a : nat) (s : loop_state X) :
  0 <= episode_timesteps s ->
  (is_ppo cfg = false -> length (memory s) = a) ->
  let ts := map Z.of_nat (seq a k) in
  let r := for_loop X cfg true ts s in
  exists evs : list (event X),
    trace (fst r) = trace s ++ evs
    /\ accounted (episode_num s) (Z.of_nat a - episode_timesteps s)
         (logged evs)
    /\ (snd r = Exhausted ->
        progresses evs = map (progress cfg) ts
        /\ (is_ppo cfg = false ->
            length (memory (fst r)) = (a + k)%nat
            /\ train_calls evs
               = flat_map
                   (fun t =>
                      if gateb cfg t then
                        repeat (t + 1, Some (batch_size cfg))
                          (Z.to_nat (G cfg))
                      else []) ts)
        /\ (is_ppo cfg = true ->
            (k <> O -> max_steps_per_batch cfg <> 0)
            /\ map snd (train_calls evs)
               = map (fun _ => None) (List.filter (batch_due cfg) ts))).
Proof.
  revert a s; induction k as [|k IH]; intros a s Hts Hmem; simpl.
  - exists []. rewrite app_nil_r. split; [reflexivity|].
    split; [exact I|]. intros _. split; [reflexivity|].
    split; intros Hppo.
    + split; [rewrite Nat.add_0_r; auto | reflexivity].
    + split; [congruence | reflexivity].
  - destruct (body_detail X cfg (Z.of_nat a) s)
      as (evs1 & ended & Ht1 & Hl1 & Hok).
    destruct (body_views X cfg (Z.of_nat a) s)
      as (evs0 & _ & _ & _ & _ & _ & Hm1 & _).
    assert (Hacc1 : forall rest,
              accounted
                (if ended then episode_num s + 1 else episode_num s)
                (Z.of_nat (S a)
                 - (if ended then 0 else episode_timesteps s + 1)) rest ->
              accounted (episode_num s) (Z.of_nat a - episode_timesteps s)
                (logged evs1 ++ rest)).
    { intros rest Hrest. rewrite Hl1. destruct ended; simpl.
      - split; [reflexivity|]. split; [lia|]. split; [lia|].
        eapply accounted_shift; [|exact Hrest]. lia.
      - eapply accounted_shift; [|exact Hrest]. lia. }
    destruct (body X cfg (Z.of_nat a) s) as [s1 [e|]]; simpl in *.
    + exists evs1. split; [assumption|].
      split; [|discriminate].
      specialize (Hacc1 [] I). rewrite app_nil_r in Hacc1. exact Hacc1.
    + destruct (Hok eq_refl) as (Hp1 & Hn1 & Hts1 & Hoff1 & Hppo1).
      destruct (IH (S a) s1) as (evs2 & Ht2 & Hacc2 & Hex2).
      { rewrite Hts1. destruct ended; lia. }
      { intros Hppo. destruct (Hm1 Hppo) as (Hlen & _).
        rewrite Hlen, (Hmem Hppo). reflexivity. }
      exists (evs1 ++ evs2).
      split; [rewrite Ht2, Ht1, app_assoc; reflexivity|].
      split.
      { unfold logged. rewrite flat_map_app. apply Hacc1.
        rewrite Hn1, Hts1 in Hacc2. exact Hacc2. }
      intros Hexit. destruct (Hex2 Hexit) as (Hp2 & Hoff2 & Hppo2).
      split.
      { unfold progresses in *. rewrite flat_map_app, Hp1, Hp2.
        reflexivity. }
      split; intros Hppo.
      * destruct (Hoff2 Hppo) as (Hlen2 & Htc2).
        split; [rewrite Hlen2; lia|].
        unfold train_calls in *. rewrite flat_map_app, Htc2.
        f_equal. rewrite (Hoff1 Hppo), (Hmem Hppo).
        replace (Z.of_nat (S a)) with (Z.of_nat a + 1) by lia.
        reflexivity.
      * destruct (Hppo1 Hppo) as (Hm & Hb1).
        destruct (Hppo2 Hppo) as (_ & Hb2).
        split; [intros _; assumption|].
        unfold train_calls in *. rewrite flat_map_app, map_app, Hb1, Hb2.
        destruct (batch_due cfg (Z.of_nat a)); reflexivity.
Qed.

Lemma setup_counters (log_folder_path : string) (s0 : loop_state X) :
  setup X cfg log_folder_path = inl s0 ->
  episode_num s0 = 0 /\ episode_timesteps s0 = 0.
Proof.
  intros H. apply setup_inl in H as (? & ? & ? & ? & _ & _ & _ & _ & _ & ->).
  simpl; auto.
Qed.

(** A call that was started with [is_running] true and returned: the
    state it ended the loop with. *)
Lemma returned_run (log_folder_path : string) (s : loop_state X) :
  training_loop X cfg log_folder_path true = Returned s ->
  exists s0 s1 : loop_state X,
    setup X cfg log_folder_path = inl s0
    /\ for_loop X cfg true (range (steps_training cfg)) s0 = (s1, Exhausted)
    /\ s = finalize X true s1.
Proof.
  intros Hret.
  destruct (training_loop_events X cfg log_folder_path true)
    as [(e & _ & Hr & _)|(s0 & s1 & x & Hs0 & Hloop & Hx)].
  { rewrite Hret in Hr; discriminate. }
  exists s0, s1. split; [assumption|].
  apply setup_initial in Hs0 as (Htr & _ & _).
  destruct (for_loop_outcome X cfg true s0 Htr)
    as (done_ts & rest & _ & _ & _ & _ & _ & _ & _ & Hexit).
  rewrite Hloop in Hexit. simpl in Hexit.
  destruct x; destruct Hx as (Hr & _); rewrite Hret in Hr.
  - injection Hr as ->. auto.
  - destruct Hexit as (H & _); discriminate.
  - discriminate.
Qed.
End LoopRuns.

Lemma logged_finalize (X : externals) (b : bool) (tr : list (event X)) :
  logged (tr ++ [SaveLogs; PolicyLoopTest; TrainingCompleted b]) = logged tr.
Proof. unfold logged. rewrite flat_map_app. simpl. apply app_nil_r. Qed.

(** The loop of a call, from the state [setup] made, with [is_running]
    true. *)
Lemma started_loop (X : externals) (cfg : config) (log_folder_path : string)
    (s0 : loop_state X) :
  setup X cfg log_folder_path = inl s0 ->
  let r := for_loop X cfg true (range (steps_training cfg)) s0 in
  let ts := range (steps_training cfg) in
  accounted 0 0 (logged (trace (fst r)))
  /\ (snd r = Exhausted ->
      progresses (trace (fst r)) = map (progress cfg) ts
      /\ (is_ppo cfg = false ->
          length (memory (fst r)) = Z.to_nat (steps_training cfg)
          /\ train_calls (trace (fst r))
             = flat_map
                 (fun t =>
                    if gateb cfg t then
                      repeat (t + 1, Some (batch_size cfg))
                        (Z.to_nat (G cfg))
                    else []) ts)
      /\ (is_ppo cfg = true ->
          (0 < steps_training cfg -> max_steps_per_batch cfg <> 0)
          /\ map snd (train_calls (trace (fst r)))
             = map (fun _ => None) (List.filter (batch_due cfg) ts))).
Proof.
  intros Hs0.
  destruct (setup_initial X cfg _ _ Hs0) as (Htr & Hmem & _).
  destruct (setup_counters X cfg _ _ Hs0) as (Hn & Hts).
  destruct (for_loop_detail X cfg (Z.to_nat (steps_training cfg)) 0 s0)
    as (evs & Ht & Hacc & Hex).
  { rewrite Hts. lia. }
  { intros _. rewrite Hmem. reflexivity. }
  fold (range (steps_training cfg)) in *. cbv zeta.
  rewrite Htr in Ht. simpl in Ht. rewrite Ht.
  rewrite Hn, Hts in Hacc. split; [exact Hacc|].
  intros Hexit. destruct (Hex Hexit) as (Hp & Hoff & Hppo).
  split; [assumption|]. split; [exact Hoff|].
  intros H. destruct (Hppo H) as (Hm & Hb). split; [|assumption].
  intros Hpos. apply Hm. lia.
Qed.

(** X13. Episode accounting.  In every run the records handed to
    [log_training] are numbered 1, 2, 3, ..., each episode has at least
    one step (so the floor division by [episode_timesteps] in the
    remaining-time estimate has a non-zero divisor), and the total each
    record reports is the sum of the steps of all the episodes up to and
    including it. *)
Theorem episode_accounting (X : externals) (cfg : config)
    (log_folder_path : string) (is_running : bool) :
  accounted 0 0
    (logged (events (training_loop X cfg log_folder_path is_running))).
Proof.
  destruct (training_loop_events X cfg log_folder_path is_running)
    as [(e & _ & _ & ->)|(s0 & s & x & Hs0 & Hloop & Hx)]; [exact I|].
  assert (Hacc : accounted 0 0 (logged (trace s))).
  { destruct is_running.
    - pose proof (started_loop X cfg log_folder_path s0 Hs0) as (H & _).
      rewrite Hloop in H. exact H.
    - rewrite for_loop_false in Hloop.
      apply setup_initial in Hs0 as (Htr & _ & _).
      destruct (range (steps_training cfg)); injection Hloop as <- <-;
        simpl; rewrite Htr; exact I. }
  destruct x; destruct Hx as (_ & ->); rewrite ?logged_finalize; exact Hacc.
Qed.

(** X14. Update multiplicity.  In a run of an off-policy agent that went
    through its whole budget, every step that passes the family's gate
    (step counter above [batch_size] for DQN, at or above
    [steps_exploration] otherwise) is followed by exactly [G] training
    updates, each on the memory of that step ([t + 1] transitions), and
    the other steps by none. *)
Theorem update_multiplicity (X : externals) (cfg : config)
    (log_folder_path : string) (s : loop_state X) :
  is_ppo cfg = false ->
  training_loop X cfg log_folder_path true = Returned s ->
  train_calls (trace s)
  = flat_map
      (fun t =>
         if gateb cfg t then
           repeat (t + 1, Some (batch_size cfg)) (Z.to_nat (G cfg))
         else []) (range (steps_training cfg)).
Proof.
  intros Hppo Hret.
  destruct (returned_run X cfg _ _ Hret) as (s0 & s1 & Hs0 & Hloop & ->).
  pose proof (started_loop X cfg log_folder_path s0 Hs0) as (_ & H).
  rewrite Hloop in H. cbn [fst snd] in H. destruct (H eq_refl) as (_ & Hoff & _).
  destruct (Hoff Hppo) as (_ & Htc).
  simpl. unfold train_calls in *. rewrite flat_map_app, Htc. simpl.
  apply app_nil_r.
Qed.

Lemma updates_due_batch_policy (cfg : config) (ts : list Z) :
  is_ppo cfg = true ->
  flat_map (updates_due cfg) ts
  = map (fun t => (t, None)) (List.filter (batch_due cfg) ts).
Proof.
  intros Hppo. induction ts as [|t ts IH]; [reflexivity|].
  simpl. unfold updates_due at 1. rewrite Hppo, IH.
  destruct (batch_due cfg t); reflexivity.
Qed.

(** X15. The batch-policy cadence.  In a run of the batch-policy agent that
    went through its whole budget, the training update was called once,
    without a batch size, in each iteration [t] whose step count [t + 1]
    is a multiple of [max_steps_per_batch], and in no other iteration: the
    updates, each with the iteration it was made in (located by the steps
    reported before it), are those of the due iterations, in order.  A
    budget that is not empty makes [max_steps_per_batch] non-zero, the
    remainder being taken at every step. *)
Theorem batch_policy_cadence (X : externals) (cfg : config)
    (log_folder_path : string) (s : loop_state X) :
  is_ppo cfg = true ->
  training_loop X cfg log_folder_path true = Returned s ->
  map update_batch (List.filter is_update (by_iteration 0 (trace s)))
  = map (fun t => (t, None))
      (List.filter (batch_due cfg) (range (steps_training cfg)))
  /\ train_calls (trace s)
     = flat_map (fun c => match snd c with
                          | Update n b => [(n, b)]
                          | Evaluation _ _ => []
                          end) (by_iteration 0 (trace s))
  /\ map snd (train_calls (trace s))
     = map (fun _ => None)
         (List.filter (batch_due cfg) (range (steps_training cfg)))
  /\ (0 < steps_training cfg -> max_steps_per_batch cfg <> 0).
Proof.
  intros Hppo Hret.
  split.
  { destruct (run_invocations X cfg log_folder_path true) as (_ & H).
    destruct (H s eq_refl Hret) as (_ & Hup).
    rewrite Hup. apply updates_due_batch_policy. assumption. }
  split; [symmetry; apply by_iteration_train_calls|].
  destruct (returned_run X cfg _ _ Hret) as (s0 & s1 & Hs0 & Hloop & ->).
  pose proof (started_loop X cfg log_folder_path s0 Hs0) as (_ & H).
  rewrite Hloop in H. cbn [fst snd] in H. destruct (H eq_refl) as (_ & _ & Hb).
  destruct (Hb Hppo) as (Hm & Htc). split; [|assumption].
  simpl. unfold train_calls in *. rewrite flat_map_app, map_app, Htc.
  simpl. apply app_nil_r.
Qed.

(** X16. One transition per step.  When a run of an off-policy agent returns,
    its memory holds exactly one transition for each step of the budget,
    or none at all if the run was cancelled. *)
Theorem memory_one_per_step (X : externals) (cfg : config)
    (log_folder_path : string) (is_running : bool) (s : loop_state X) :
  is_ppo cfg = false ->
  training_loop X cfg log_folder_path is_running = Returned s ->
  length (memory s)
  = if is_running then Z.to_nat (steps_training cfg) else 0%nat.
Proof.
  intros Hppo Hret. destruct is_running.
  - destruct (returned_run X cfg _ _ Hret) as (s0 & s1 & Hs0 & Hloop & ->).
    pose proof (started_loop X cfg log_folder_path s0 Hs0) as (_ & H).
    rewrite Hloop in H. cbn [fst snd] in H. destruct (H eq_refl) as (_ & Hoff & _).
    destruct (Hoff Hppo) as (Hlen & _). exact Hlen.
  - unfold training_loop in Hret.
    destruct (setup X cfg log_folder_path) as [s0|e] eqn:Hs0;
      [|discriminate].
    rewrite for_loop_false in Hret.
    apply setup_initial in Hs0 as (_ & Hmem & _).
    destruct (range (steps_training cfg)); simpl in Hret;
      injection Hret as <-; simpl; rewrite Hmem; reflexivity.
Qed.

(** The steps of [range n] from [e] on. *)
Lemma count_from (e n : Z) :
  length (List.filter (fun t => e <=? t) (range n))
  = Z.to_nat (n - Z.max 0 e).
Proof.
  unfold range.
  assert (H : forall k : nat,
             length (List.filter (fun t => e <=? t) (map Z.of_nat (seq 0 k)))
             = Z.to_nat (Z.of_nat k - Z.max 0 e)).
  { induction k as [|k IH]; [simpl; lia|].
    rewrite seq_S, map_app, List.filter_app, length_app, IH. simpl.
    destruct (e <=? Z.of_nat k) eqn:He; simpl;
      [apply Z.leb_le in He | apply Z.leb_gt in He]; lia. }
  rewrite H. destruct (Z.le_gt_cases 0 n); [rewrite Z2Nat.id by lia; lia|].
  rewrite Z2Nat.nonpos by lia. simpl. lia.
Qed.

Lemma filter_const_false {A : Type} (l : list A) :
  List.filter (fun _ => false) l = [].
Proof. induction l; simpl; auto. Qed.

Lemma decays_count (cfg : config) :
  length (List.filter (decays cfg) (range (steps_training cfg)))
  = if is_dqn cfg then
      Z.to_nat (steps_training cfg - Z.max 0 (steps_exploration cfg))
    else 0%nat.
Proof.
  unfold decays. destruct (is_dqn cfg) eqn:Hdqn.
  - rewrite (dqn_not_ppo cfg Hdqn). simpl. apply count_from.
  - rewrite andb_false_r. simpl. rewrite filter_const_false. reflexivity.
Qed.

(** X17. The exploration rate at the end of a run.  A DQN run that went
    through its whole budget applied the decay once at each step from
    [steps_exploration] on, so it ends with the rate after
    [steps_training - max(0, steps_exploration)] applications; under the
    usual ranges of the two parameters this is
    [max(epsilon_min, epsilon_decay ^ that number)].  The other families
    never touch the rate. *)
Theorem final_exploration_rate (X : externals) (cfg : config)
    (log_folder_path : string) (s : loop_state X) :
  training_loop X cfg log_folder_path true = Returned s ->
  let k := Z.to_nat (steps_training cfg - Z.max 0 (steps_exploration cfg)) in
  (is_dqn cfg = true ->
   exploration_rate s = rate_after cfg k
   /\ ((0 <= epsilon_decay cfg <= 1)%Q -> (epsilon_min cfg <= 1)%Q ->
       (exploration_rate s
        == Qmax (epsilon_min cfg) (epsilon_decay cfg ^ Z.of_nat k))%Q))
  /\ (is_dqn cfg = false -> exploration_rate s = 1%Q).
Proof.
  intros Hret k.
  destruct (returned_run X cfg _ _ Hret) as (s0 & s1 & Hs0 & Hloop & ->).
  destruct (setup_initial X cfg _ _ Hs0) as (_ & _ & Hr0).
  destruct (for_loop_views X cfg (range (steps_training cfg)) s0)
    as (done_ts & rest & evs & j & _ & _ & _ & _ & _ & _ & _ & Hr & _ & Hx).
  rewrite Hloop in Hr, Hx. cbn [fst snd] in Hr, Hx.
  destruct Hx as (_ & ->). rewrite decays_count, Hr0 in Hr.
  simpl. split; intros Hdqn; rewrite Hdqn in Hr.
  - fold k in Hr. split; [exact Hr|]. intros Hd Hm. rewrite Hr.
    change (Nat.iter k (decay cfg) 1%Q) with (rate_after cfg k).
    rewrite (rate_after_closed_form cfg k (proj1 Hd) Hm).
    apply Q.max_compat; [reflexivity | ring].
  - exact Hr.
Qed.

(** ** Rounding to the binary format *)

Lemma round_half_even_bounds (q : Q) :
  Qfloor q <= round_half_even q <= Qfloor q + 1.
Proof.
  unfold round_half_even.
  destruct (_ ?= _)%Q; [destruct (Z.even _)| |]; lia.
Qed.

Lemma round_half_even_mono (q q' : Q) :
  (q <= q')%Q -> round_half_even q <= round_half_even q'.
Proof.
  intros Hle. pose proof (Qfloor_resp_le _ _ Hle) as Hf.
  pose proof (round_half_even_bounds q) as Hb.
  pose proof (round_half_even_bounds q') as Hb'.
  destruct (Z.eq_dec (Qfloor q) (Qfloor q')) as [Heq|Hne]; [|lia].
  unfold round_half_even. rewrite <- Heq.
  assert (Hfrac : (q - inject_Z (Qfloor q) <= q' - inject_Z (Qfloor q))%Q)
    by lra.
  destruct (q - inject_Z (Qfloor q) ?= 1 # 2)%Q eqn:Hc;
    destruct (q' - inject_Z (Qfloor q) ?= 1 # 2)%Q eqn:Hc';
    try (destruct (Z.even (Qfloor q))); try lia;
    repeat match goal with
           | H : (_ ?= _)%Q = Eq |- _ => apply (proj2 (Qeq_alt _ _)) in H
           | H : (_ ?= _)%Q = Lt |- _ => apply (proj2 (Qlt_alt _ _)) in H
           | H : (_ ?= _)%Q = Gt |- _ => apply (proj2 (Qgt_alt _ _)) in H
           end; lra.
Qed.

Lemma round_half_even_Z (z : Z) : round_half_even (inject_Z z) = z.
Proof.
  unfold round_half_even. rewrite Qfloor_Z.
  assert (H : (inject_Z z - inject_Z z ?= 1 # 2)%Q = Lt).
  { apply (proj1 (Qlt_alt _ _)). generalize (inject_Z z). intros x. lra. }
  rewrite H. reflexivity.
Qed.

Lemma pow2_pos (e : Z) : (0 < 2 ^ e)%Q.
Proof. apply Qpower_0_lt. reflexivity. Qed.

Lemma pow2_plus (a b : Z) : (2 ^ (a + b) == 2 ^ a * 2 ^ b)%Q.
Proof. apply Qpower_plus. discriminate. Qed.

Lemma pow2_le (a b : Z) : a <= b -> (2 ^ a <= 2 ^ b)%Q.
Proof. intros H. apply Qpower_le_compat_l; [assumption | discriminate]. Qed.

Lemma pow2_Z (a : Z) : 0 <= a -> (inject_Z (2 ^ a) == 2 ^ a)%Q.
Proof. intros H. rewrite Zpower_Qpower by assumption. reflexivity. Qed.

Lemma Qlog2_spec (q : Q) :
  (0 < q)%Q -> (2 ^ Qlog2 q <= q < 2 ^ (Qlog2 q + 1))%Q.
Proof.
  intros Hq. destruct q as [a b].
  assert (Ha : 0 < a).
  { unfold Qlt in Hq. simpl in Hq. lia. }
  unfold Qlog2. cbn [Qnum Qden].
  set (la := Z.log2 a). set (lb := Z.log2 (Z.pos b)).
  destruct (Z.log2_spec a Ha) as (Ha1 & Ha2). fold la in Ha1, Ha2.
  destruct (Z.log2_spec (Z.pos b) (Pos2Z.is_pos b)) as (Hb1 & Hb2).
  fold lb in Hb1, Hb2.
  assert (Hla : 0 <= la) by apply Z.log2_nonneg.
  assert (Hlb : 0 <= lb) by apply Z.log2_nonneg.
  assert (Hq' : (a # b == inject_Z a / inject_Z (Z.pos b))%Q)
    by apply Qmake_Qdiv.
  assert (Hbpos : (0 < inject_Z (Z.pos b))%Q).
  { change 0%Q with (inject_Z 0). rewrite <- Zlt_Qlt. lia. }
  assert (Ha1q : (2 ^ la <= inject_Z a)%Q).
  { rewrite <- pow2_Z by assumption. rewrite <- Zle_Qle. assumption. }
  assert (Ha2q : (inject_Z a < 2 ^ (la + 1))%Q).
  { rewrite <- pow2_Z by lia. rewrite <- Zlt_Qlt.
    replace (la + 1) with (Z.succ la) by lia. assumption. }
  assert (Hb1q : (2 ^ lb <= inject_Z (Z.pos b))%Q).
  { rewrite <- pow2_Z by assumption. rewrite <- Zle_Qle. assumption. }
  assert (Hb2q : (inject_Z (Z.pos b) < 2 ^ (lb + 1))%Q).
  { rewrite <- pow2_Z by lia. rewrite <- Zlt_Qlt.
    replace (lb + 1) with (Z.succ lb) by lia. assumption. }
  pose proof (pow2_pos lb) as Hplb. pose proof (pow2_pos (lb + 1)) as Hplb1.
  destruct (Qle_bool (2 ^ (la - lb)) (a # b)) eqn:Hc.
  - apply Qle_bool_iff in Hc. split; [assumption|].
    rewrite Hq'. apply Qlt_shift_div_r; [assumption|].
    replace (la - lb + 1) with ((la + 1) + - lb) by lia.
    rewrite pow2_plus, Qpower_opp.
    assert (H : (2 ^ (la + 1) <= 2 ^ (la + 1) * / 2 ^ lb
                               * inject_Z (Z.pos b))%Q).
    { assert (H1 : (1 <= / 2 ^ lb * inject_Z (Z.pos b))%Q).
      { apply (Qmult_le_l _ _ (2 ^ lb)); [assumption|].
        rewrite Qmult_assoc, Qmult_inv_r by lra. lra. }
      pose proof (pow2_pos (la + 1)). nra. }
    lra.
  - assert (Hlt : (a # b < 2 ^ (la - lb))%Q).
    { apply Qnot_le_lt. intros H. apply Qle_bool_iff in H. congruence. }
    replace (la - lb - 1 + 1) with (la - lb) by lia.
    split; [|assumption].
    rewrite Hq'. apply Qle_shift_div_l; [assumption|].
    replace (la - lb - 1) with (la + - (lb + 1)) by lia.
    rewrite pow2_plus, Qpower_opp.
    assert (H1 : (/ 2 ^ (lb + 1) * inject_Z (Z.pos b) <= 1)%Q).
    { apply (Qmult_le_l _ _ (2 ^ (lb + 1))); [assumption|].
      rewrite Qmult_assoc, Qmult_inv_r by lra. lra. }
    pose proof (pow2_pos la). nra.
Qed.

Lemma Qlog2_mono (q q' : Q) :
  (0 < q)%Q -> (q <= q')%Q -> Qlog2 q <= Qlog2 q'.
Proof.
  intros Hq Hle.
  destruct (Qlog2_spec q Hq) as (H1 & _).
  destruct (Qlog2_spec q') as (_ & H2); [lra|].
  assert (H : (2 ^ Qlog2 q < 2 ^ (Qlog2 q' + 1))%Q) by lra.
  apply Qpower_lt_compat_l_inv in H; [lia | reflexivity].
Qed.

Lemma float_pos_nonneg (q : Q) : (0 < q)%Q -> (0 <= float_pos q)%Q.
Proof.
  intros Hq. unfold float_pos.
  set (e := Z.max (Qlog2 q - 52) (-1074)).
  pose proof (pow2_pos e) as He.
  assert (Hx : (0 <= q / 2 ^ e)%Q).
  { apply Qle_shift_div_l; [assumption | lra]. }
  pose proof (round_half_even_mono _ _ Hx) as Hr.
  change 0%Q with (inject_Z 0) in Hr. rewrite round_half_even_Z in Hr.
  apply Qmult_le_0_compat; [|lra].
  change 0%Q with (inject_Z 0). rewrite <- Zle_Qle. assumption.
Qed.

Lemma float_pos_mono (q q' : Q) :
  (0 < q)%Q -> (q <= q')%Q -> (float_pos q <= float_pos q')%Q.
Proof.
  intros Hq Hle. assert (Hq' : (0 < q')%Q) by lra.
  pose proof (Qlog2_mono q q' Hq Hle) as Hl.
  unfold float_pos.
  set (e := Z.max (Qlog2 q - 52) (-1074)).
  set (e' := Z.max (Qlog2 q' - 52) (-1074)).
  pose proof (pow2_pos e) as He. pose proof (pow2_pos e') as He'.
  destruct (Z.eq_dec e e') as [Heq|Hne].
  - rewrite <- Heq. apply Qmult_le_compat_r; [|lra].
    rewrite <- Zle_Qle. apply round_half_even_mono.
    apply Qmult_le_compat_r; [assumption|].
    apply Qlt_le_weak, Qinv_lt_0_compat, He.
  - assert (Hee : e < e') by lia.
    assert (He'eq : e' = Qlog2 q' - 52) by lia.
    destruct (Qlog2_spec q Hq) as (_ & Hup).
    destruct (Qlog2_spec q' Hq') as (Hlow & _).
    (* the smaller number rounds to at most 2^(e'+52) *)
    assert (H1 : (inject_Z (round_half_even (q / 2 ^ e)) * 2 ^ e
                  <= 2 ^ (e' + 52))%Q).
    { assert (Hx : (q / 2 ^ e <= inject_Z (2 ^ (e' + 52 - e)))%Q).
      { rewrite pow2_Z by lia. apply Qle_shift_div_r; [assumption|].
        rewrite <- pow2_plus. replace (e' + 52 - e + e) with (e' + 52) by lia.
        assert (H : (2 ^ (Qlog2 q + 1) <= 2 ^ (e' + 52))%Q)
          by (apply pow2_le; lia).
        lra. }
      apply round_half_even_mono in Hx. rewrite round_half_even_Z in Hx.
      rewrite Zle_Qle, pow2_Z in Hx by lia.
      assert (Hp : (2 ^ (e' + 52) == 2 ^ (e' + 52 - e) * 2 ^ e)%Q).
      { rewrite <- pow2_plus. replace (e' + 52 - e + e) with (e' + 52) by lia.
        reflexivity. }
      rewrite Hp. apply Qmult_le_compat_r; [assumption | lra]. }
    (* the larger one to at least 2^(e'+52) *)
    assert (H2 : (2 ^ (e' + 52)
                  <= inject_Z (round_half_even (q' / 2 ^ e')) * 2 ^ e')%Q).
    { assert (Hx : (inject_Z (2 ^ 52) <= q' / 2 ^ e')%Q).
      { rewrite pow2_Z by lia. apply Qle_shift_div_l; [assumption|].
        rewrite <- pow2_plus. replace (52 + e') with (Qlog2 q') by lia.
        assumption. }
      apply round_half_even_mono in Hx. rewrite round_half_even_Z in Hx.
      rewrite Zle_Qle, pow2_Z in Hx by lia.
      assert (Hp : (2 ^ (e' + 52) == 2 ^ 52 * 2 ^ e')%Q).
      { rewrite <- pow2_plus. replace (52 + e') with (e' + 52) by lia.
        reflexivity. }
      rewrite Hp. apply Qmult_le_compat_r; [assumption | lra]. }
    lra.
Qed.

Lemma Qnum_sign (q : Q) :
  match Qnum q with
  | Z0 => (q == 0)%Q
  | Zpos _ => (0 < q)%Q
  | Zneg _ => (q < 0)%Q
  end.
Proof.
  destruct q as [[|a|a] b]; unfold Qeq, Qlt; simpl; lia.
Qed.

(** Rounding keeps the order of the numbers that are not negative. *)
Lemma float_mono (q q' : Q) :
  (0 <= q)%Q -> (q <= q')%Q -> (float q <= float q')%Q.
Proof.
  intros Hq Hle. unfold float.
  pose proof (Qnum_sign q) as Hs. pose proof (Qnum_sign q') as Hs'.
  destruct (Qnum q); destruct (Qnum q'); try lra.
  - apply float_pos_nonneg; assumption.
  - apply float_pos_mono; assumption.
Qed.

Lemma float_nonneg (q : Q) : (0 <= q)%Q -> (0 <= float q)%Q.
Proof.
  intros Hq. change 0%Q with (float 0) at 1. apply float_mono; lra.
Qed.

Lemma float_comp (q q' : Q) :
  (0 <= q)%Q -> (q == q')%Q -> (float q == float q')%Q.
Proof.
  intros Hq Heq. apply Qle_antisym; apply float_mono; lra.
Qed.

Lemma int_floor (q : Q) : (0 <= q)%Q -> int q = Qfloor q.
Proof.
  intros Hq. destruct q as [a b]. unfold int, Qfloor. simpl.
  apply Z.quot_div_nonneg; [|lia].
  unfold Qle in Hq. simpl in Hq. lia.
Qed.

(** ** The progress value *)

Lemma progress_quotient (cfg : config) (t t' : Z) :
  0 < steps_training cfg -> 0 <= t -> t <= t' ->
  (0 <= inject_Z (t + 1) / inject_Z (steps_training cfg)
   <= inject_Z (t' + 1) / inject_Z (steps_training cfg))%Q.
Proof.
  intros Hn Ht Htt.
  assert (Hpos : (0 < inject_Z (steps_training cfg))%Q).
  { change 0%Q with (inject_Z 0). rewrite <- Zlt_Qlt. exact Hn. }
  assert (Hinv : (0 <= / inject_Z (steps_training cfg))%Q)
    by apply Qlt_le_weak, Qinv_lt_0_compat, Hpos.
  assert (H0 : (0 <= inject_Z (t + 1))%Q).
  { change 0%Q with (inject_Z 0). rewrite <- Zle_Qle. lia. }
  assert (Hle : (inject_Z (t + 1) <= inject_Z (t' + 1))%Q).
  { rewrite <- Zle_Qle. lia. }
  unfold Qdiv. split.
  - apply Qmult_le_0_compat; assumption.
  - apply Qmult_le_compat_r; assumption.
Qed.

Lemma progress_monotone (cfg : config) (t t' : Z) :
  0 < steps_training cfg -> 0 <= t -> t <= t' ->
  progress cfg t <= progress cfg t'.
Proof.
  intros Hn Ht Htt. unfold progress.
  destruct (progress_quotient cfg t t' Hn Ht Htt) as (H0 & Hle).
  set (x := (inject_Z (t + 1) / inject_Z (steps_training cfg))%Q) in *.
  set (x' := (inject_Z (t' + 1) / inject_Z (steps_training cfg))%Q) in *.
  pose proof (float_nonneg x H0) as Hf0.
  pose proof (float_mono x x' H0 Hle) as Hf.
  assert (Hp0 : (0 <= float x * 100)%Q) by lra.
  assert (Hp : (float x * 100 <= float x' * 100)%Q) by lra.
  pose proof (float_nonneg _ Hp0) as Hg0.
  pose proof (float_mono _ _ Hp0 Hp) as Hg.
  rewrite !int_floor by lra. apply Qfloor_resp_le, Hg.
Qed.

Lemma progress_first (cfg : config) (t : Z) :
  0 < steps_training cfg -> 0 <= t -> 0 <= progress cfg t.
Proof.
  intros Hn Ht. unfold progress.
  destruct (progress_quotient cfg t t Hn Ht (Z.le_refl t)) as (H0 & _).
  set (x := (inject_Z (t + 1) / inject_Z (steps_training cfg))%Q) in *.
  pose proof (float_nonneg x H0) as Hf0.
  assert (Hp0 : (0 <= float x * 100)%Q) by lra.
  pose proof (float_nonneg _ Hp0) as Hg0.
  rewrite int_floor by assumption.
  change 0 with (Qfloor 0). apply Qfloor_resp_le, Hg0.
Qed.

Lemma progress_last (cfg : config) :
  0 < steps_training cfg -> progress cfg (steps_training cfg - 1) = 100.
Proof.
  intros Hn. unfold progress.
  replace (steps_training cfg - 1 + 1) with (steps_training cfg) by lia.
  assert (Hne : ~ (inject_Z (steps_training cfg) == 0)%Q).
  { change 0%Q with (inject_Z 0). rewrite inject_Z_injective. lia. }
  assert (Hq : (inject_Z (steps_training cfg) / inject_Z (steps_training cfg)
                == 1)%Q) by (field; exact Hne).
  set (x := (inject_Z (steps_training cfg)
             / inject_Z (steps_training cfg))%Q) in *.
  assert (H1 : (float 1 == 1)%Q) by (vm_compute; reflexivity).
  assert (H100 : (float 100 == 100)%Q) by (vm_compute; reflexivity).
  assert (Hf : (float x == 1)%Q).
  { apply Qeq_trans with (float 1); [apply float_comp; lra | exact H1]. }
  assert (Hg : (float (float x * 100) == 100)%Q).
  { apply Qeq_trans with (float 100); [apply float_comp; lra | exact H100]. }
  rewrite int_floor by lra. rewrite (Qfloor_comp _ _ Hg). reflexivity.
Qed.

(** X18. Progress reports.  A run that went through its whole budget
    reported one progress value per step, the integer part of the float
    [(t + 1) / steps_training * 100]; these values never decrease, lie
    between 0 and 100, and the last one is 100. *)
Theorem progress_reports (X : externals) (cfg : config)
    (log_folder_path : string) (s : loop_state X) :
  training_loop X cfg log_folder_path true = Returned s ->
  progresses (trace s) = map (progress cfg) (range (steps_training cfg))
  /\ Forall (fun p => 0 <= p <= 100) (progresses (trace s))
  /\ (forall (i j : nat) (p q : Z),
        (i <= j)%nat -> progresses (trace s) !! i = Some p ->
        progresses (trace s) !! j = Some q -> p <= q)
  /\ (0 < steps_training cfg -> List.last (progresses (trace s)) 0 = 100).
Proof.
  intros Hret.
  destruct (returned_run X cfg _ _ Hret) as (s0 & s1 & Hs0 & Hloop & ->).
  pose proof (started_loop X cfg log_folder_path s0 Hs0) as (_ & H).
  rewrite Hloop in H. cbn [fst snd] in H. destruct (H eq_refl) as (Hp & _).
  assert (Hfin : progresses (trace (finalize X true s1))
                 = map (progress cfg) (range (steps_training cfg))).
  { simpl. unfold progresses in *. rewrite flat_map_app, Hp. simpl.
    apply app_nil_r. }
  rewrite Hfin. clear Hp H Hloop Hret Hs0.
  assert (Hlk : forall (i : nat) (p : Z),
             map (progress cfg) (range (steps_training cfg)) !! i = Some p ->
             p = progress cfg (Z.of_nat i)
             /\ Z.of_nat i < steps_training cfg).
  { intros i p Hi. unfold range in Hi. rewrite !list_lookup_fmap in Hi.
    destruct (seq 0 (Z.to_nat (steps_training cfg)) !! i) as [m|] eqn:Hm;
      [|discriminate].
    apply lookup_seq in Hm as (-> & Hlt). simpl in Hi.
    injection Hi as <-. split; [reflexivity | lia]. }
  split; [reflexivity|]. split; [|split].
  - apply Forall_lookup_2. intros i p Hi.
    destruct (Hlk i p Hi) as (-> & Hlt). split.
    + apply progress_first; lia.
    + rewrite <- (progress_last cfg) by lia.
      apply progress_monotone; lia.
  - intros i j p q Hij Hi Hj.
    destruct (Hlk i p Hi) as (-> & _). destruct (Hlk j q Hj) as (-> & Hlt).
    apply progress_monotone; lia.
  - intros Hn. unfold range.
    replace (Z.to_nat (steps_training cfg))
      with (S (Z.to_nat (steps_training cfg - 1))) by lia.
    rewrite seq_S, !map_app. simpl. rewrite List.last_last.
    rewrite Z2Nat.id by lia. apply progress_last, Hn.
Qed.

(** X19. A zero evaluation interval.  With [evaluation_interval = 0] and a
    positive budget, a started run never returns: the first iteration
    raises at the latest at the interval test, so no step is reported,
    no evaluation takes place and the logs are not flushed. *)
Theorem zero_evaluation_interval (X : externals) (cfg : config)
    (log_folder_path : string) (s0 : loop_state X) :
  evaluation_interval cfg = 0 -> 0 < steps_training cfg ->
  setup X cfg log_folder_path = inl s0 ->
  exists (e : exn) (s : loop_state X),
    training_loop X cfg log_folder_path true = Failed e (Some s)
    /\ steps (trace s) = [] /\ evaluations (trace s) = []
    /\ finals (trace s) = [].
Proof.
  intros Hz Hn Hs0.
  destruct (setup_initial X cfg _ _ Hs0) as (Htr & _ & _).
  destruct (for_loop_views X cfg (range (steps_training cfg)) s0)
    as (done_ts & rest & evs & j & Hts & Ht & Hf & _ & _ & Hst & Hev & _
        & Hdone & Hx).
  specialize (Hdone Hz). subst done_ts. simpl in Hts, Hst, Hev.
  unfold training_loop. rewrite Hs0.
  destruct (for_loop X cfg true (range (steps_training cfg)) s0)
    as [s [| |e]]; cbn [fst snd] in *.
  - destruct Hx as (-> & _). exfalso.
    unfold range in Hts.
    replace (Z.to_nat (steps_training cfg))
      with (S (Z.to_nat (steps_training cfg - 1))) in Hts by lia.
    discriminate.
  - contradiction.
  - exists e, s. simpl. rewrite Ht, Htr. simpl. auto.
Qed.

(** X20. The order of the preamble.  The algorithm is imported before
    anything else is made: when the package of the configured name
    cannot be imported, or does not define the class, the call fails
    with that error, whatever the platform.  When the import succeeds
    and the platform is not Gymnasium, MuJoCo or DMCS, the call fails
    with the "Unsupported platform" error, before any constructor is
    called.  In both cases nothing is reported.  A preamble that
    succeeds has imported the algorithm on one of the three platforms
    and made the training environment from [Seed] and the evaluation
    environment from [Seed + 1], both on the backend of the platform. *)
Theorem platform_check (X : externals) (cfg : config)
    (log_folder_path : string) (is_running : bool) :
  let r := training_loop X cfg log_folder_path is_running in
  (forall e : exn,
      import_algorithm_instance X cfg = inr e ->
      r = Failed e None
      /\ (e = ModuleNotFoundError ("RL_algorithms." +:+ Algorithm cfg)
          \/ e = AttributeError (Algorithm cfg)))
  /\ (forall a : string,
        import_algorithm_instance X cfg = inl a ->
        supported_platform (selected_platform cfg) = false ->
        r = Failed (ValueError
                      ("Unsupported platform: " +:+ selected_platform cfg))
              None)
  /\ (forall s0 : loop_state X,
        setup X cfg log_folder_path = inl s0 ->
        import_algorithm_instance X cfg = inl (Algorithm cfg)
        /\ supported_platform (selected_platform cfg) = true
        /\ let b := if String.eqb (selected_platform cfg) "DMCS"
                    then DMControlEnvironment else GymEnvironment in
           exists env0 : Env X,
             make_env X b (selected_environment cfg) (Seed cfg) "rgb_array"
             = inl env0
             /\ env s0 = snd (env_reset X env0)
             /\ make_env X b (selected_environment cfg) (Seed cfg + 1)
                  "rgb_array"
                = inl (env_evaluation s0)).
Proof.
  cbv zeta. split; [|split].
  - intros e He. unfold training_loop, setup. rewrite He.
    split; [reflexivity|]. revert He. unfold import_algorithm_instance.
    destruct (import_module X _); [|intros [= <-]; auto].
    destruct (existsb _ _); [discriminate | intros [= <-]; auto].
  - intros a Ha. unfold supported_platform, training_loop, setup.
    rewrite Ha. unfold create_environment_instance. simpl.
    destruct (String.eqb (selected_platform cfg) "Gymnasium");
      [discriminate|].
    destruct (String.eqb (selected_platform cfg) "MuJoCo"); [discriminate|].
    destruct (String.eqb (selected_platform cfg) "DMCS"); [discriminate|].
    reflexivity.
  - intros s0 Hs0.
    apply setup_inl in Hs0
      as (env0 & env_eval0 & agent0 & logger0 & Himp & He0 & He1 & _ & _
          & ->).
    split; [exact Himp|]. revert He0 He1.
    unfold supported_platform, create_environment_instance. simpl.
    destruct (String.eqb (selected_platform cfg) "Gymnasium") eqn:Hg.
    { apply String.eqb_eq in Hg. rewrite Hg. simpl. eauto. }
    destruct (String.eqb (selected_platform cfg) "MuJoCo") eqn:Hm.
    { apply String.eqb_eq in Hm. rewrite Hm. simpl. eauto. }
    destruct (String.eqb (selected_platform cfg) "DMCS"); simpl;
      [eauto | discriminate].
Qed.

(** X21. A thread stopped before it is started.  [stop()] before [run()] is
    the one cancellation that takes effect: when the preamble of the
    loop succeeds, the loop returns without taking a step, and all it
    does is print the interruption message, flush the logs, run the
    policy test and emit the flag [False]; with an empty budget there is
    no message and the flag is [True].  The standard output holds the
    thread's own line and, after it, the interruption message. *)
Theorem stop_before_start (X : externals) (cfg : config) (folder : string)
    (s0 : loop_state X) :
  setup X cfg folder = inl s0 ->
  let self := UI.stop (UI.init cfg folder) in
  events (UI.run X self)
  = (if 0 <? steps_training cfg then
       [Print "Training loop interrupted. Exiting..."; SaveLogs;
        PolicyLoopTest; TrainingCompleted false]
     else [SaveLogs; PolicyLoopTest; TrainingCompleted true])
  /\ UI.stdout X self
     = "Training thread started"
       :: (if 0 <? steps_training cfg then
             ["Training loop interrupted. Exiting..."]
           else []).
Proof.
  intros Hs0. cbv zeta.
  assert (Hev : events (UI.run X (UI.stop (UI.init cfg folder)))
                = if 0 <? steps_training cfg then
                    [Print "Training loop interrupted. Exiting..."; SaveLogs;
                     PolicyLoopTest; TrainingCompleted false]
                  else [SaveLogs; PolicyLoopTest; TrainingCompleted true]).
  { unfold UI.run, UI.stop, UI.init. simpl.
    destruct (training_loop_events X cfg folder false)
      as [(e & He & _)|(s0' & s & x & Hs0' & Hloop & Hx)]; [congruence|].
    apply setup_initial in Hs0' as (Htr & _ & _).
    rewrite for_loop_false in Hloop. unfold range in Hloop.
    destruct (0 <? steps_training cfg) eqn:Hn;
      [apply Z.ltb_lt in Hn | apply Z.ltb_ge in Hn].
    - replace (Z.to_nat (steps_training cfg))
        with (S (Z.to_nat (steps_training cfg - 1))) in Hloop by lia.
      rewrite seq_S, map_app in Hloop.
      destruct (map Z.of_nat (seq 0 _) ++ _) eqn:Hl in Hloop;
        [apply app_eq_nil in Hl as (_ & Hl); discriminate|].
      injection Hloop as <- <-. destruct Hx as (_ & ->). simpl.
      rewrite Htr. reflexivity.
    - rewrite Z2Nat.nonpos in Hloop by lia. simpl in Hloop.
      injection Hloop as <- <-. destruct Hx as (_ & ->).
      rewrite Htr. reflexivity. }
  split; [exact Hev|]. unfold UI.stdout. rewrite Hev.
  destruct (0 <? steps_training cfg); reflexivity.
Qed.

(** ** Runs of the stub world *)

(** Two updates per step from step 3 on: fourteen updates in ten steps,
    the first two on a memory of four transitions. *)
Lemma update_multiplicity_two :
  exists s,
    training_loop Stub.world Stub.cfg_two_updates "log" true = Returned s
    /\ length (train_calls (trace s)) = 14%nat
    /\ firstn 2 (train_calls (trace s)) = [(4, Some 2); (4, Some 2)].
Proof.
  destruct (training_loop Stub.world Stub.cfg_two_updates "log" true)
    as [s|e o] eqn:Hrun; [|vm_compute in Hrun; discriminate].
  exists s. split; [reflexivity|].
  rewrite (update_multiplicity Stub.world Stub.cfg_two_updates "log" s
             eq_refl Hrun).
  split; reflexivity.
Defined.

(** The batch-policy agent with batches of four steps, over ten steps:
    two updates, in iterations 3 and 7 (steps 4 and 8). *)
Lemma batch_policy_cadence_ten :
  exists s,
    training_loop Stub.world (Stub.cfg_for "PPO") "log" true = Returned s
    /\ map update_batch (List.filter is_update (by_iteration 0 (trace s)))
       = [(3, None); (7, None)].
Proof.
  destruct (training_loop Stub.world (Stub.cfg_for "PPO") "log" true)
    as [s|e o] eqn:Hrun; [|vm_compute in Hrun; discriminate].
  exists s. split; [reflexivity|].
  rewrite (proj1 (batch_policy_cadence Stub.world (Stub.cfg_for "PPO")
                    "log" s eq_refl Hrun)).
  reflexivity.
Defined.

(** Ten steps leave ten transitions. *)
Lemma memory_one_per_step_ten :
  exists s,
    training_loop Stub.world (Stub.cfg_for "DDPG") "log" true = Returned s
    /\ length (memory s) = 10%nat.
Proof.
  destruct (training_loop Stub.world (Stub.cfg_for "DDPG") "log" true)
    as [s|e o] eqn:Hrun; [|vm_compute in Hrun; discriminate].
  exists s. split; [reflexivity|].
  exact (memory_one_per_step Stub.world (Stub.cfg_for "DDPG") "log" true s
           eq_refl Hrun).
Defined.

(** Ten steps, three of them exploration steps: seven decay
    applications. *)
Lemma final_exploration_rate_ten :
  exists s,
    training_loop Stub.world (Stub.cfg_for "DQN") "log" true = Returned s
    /\ exploration_rate s = rate_after (Stub.cfg_for "DQN") 7.
Proof.
  destruct (training_loop Stub.world (Stub.cfg_for "DQN") "log" true)
    as [s|e o] eqn:Hrun; [|vm_compute in Hrun; discriminate].
  exists s. split; [reflexivity|].
  exact (proj1 (proj1 (final_exploration_rate Stub.world
                         (Stub.cfg_for "DQN") "log" s Hrun) eq_refl)).
Defined.

(** With a budget of a hundred steps the reports are not the step counts:
    [29 / 100 * 100] is the float just below 29, so steps 28 and 29 both
    report 28 and no step reports 29; likewise 57 and 58. *)
Lemma progress_hundred :
  map (progress Stub.cfg_hundred) [27; 28; 29; 55; 56; 57; 58; 99]
  = [28; 28; 30; 56; 56; 57; 59; 100].
Proof. vm_compute. reflexivity. Qed.

(** An algorithm that has no package fails at the import; a platform the
    loop does not know fails after it. *)
Lemma platform_check_stub :
  training_loop Stub.world (Stub.cfg_for "TD3") "log" true
  = Failed (ModuleNotFoundError "RL_algorithms.TD3") None
  /\ training_loop Stub.world Stub.cfg_unknown_platform "log" true
     = Failed (ValueError "Unsupported platform: Unity") None.
Proof.
  split.
  - exact (proj1 (proj1 (platform_check Stub.world (Stub.cfg_for "TD3")
                           "log" true)
                    (ModuleNotFoundError "RL_algorithms.TD3") eq_refl)).
  - exact (proj1 (proj2 (platform_check Stub.world
                           Stub.cfg_unknown_platform "log" true))
             "DDPG" eq_refl eq_refl).
Defined.

(** Ten steps report 10, 20, ..., 100. *)
Lemma progress_reports_ten :
  exists s,
    training_loop Stub.world (Stub.cfg_for "DDPG") "log" true = Returned s
    /\ progresses (trace s) = [10; 20; 30; 40; 50; 60; 70; 80; 90; 100].
Proof.
  destruct (training_loop Stub.world (Stub.cfg_for "DDPG") "log" true)
    as [s|e o] eqn:Hrun; [|vm_compute in Hrun; discriminate].
  exists s. split; [reflexivity|].
  rewrite (proj1 (progress_reports Stub.world (Stub.cfg_for "DDPG") "log" s
                    Hrun)).
  reflexivity.
Defined.

(** The end-to-end configuration with the interval set to zero. *)
Lemma zero_evaluation_interval_stub :
  exists (e : exn) (s : loop_state Stub.world),
    training_loop Stub.world Stub.cfg_no_interval "log" true
    = Failed e (Some s)
    /\ steps (trace s) = [] /\ evaluations (trace s) = []
    /\ finals (trace s) = [].
Proof.
  destruct (setup Stub.world Stub.cfg_no_interval "log") as [s0|e] eqn:Hs0;
    [|vm_compute in Hs0; discriminate].
  exact (zero_evaluation_interval Stub.world Stub.cfg_no_interval "log" s0
           eq_refl eq_refl Hs0).
Defined.

(** The end-to-end configuration, stopped before the start. *)
Lemma stop_before_start_stub :
  events (UI.run Stub.world (UI.stop (UI.init (Stub.cfg_for "DDPG") "log")))
  = [Print "Training loop interrupted. Exiting..."; SaveLogs;
     PolicyLoopTest; TrainingCompleted false]
  /\ UI.stdout Stub.world (UI.stop (UI.init (Stub.cfg_for "DDPG") "log"))
     = ["Training thread started"; "Training loop interrupted. Exiting..."].
Proof.
  destruct (setup Stub.world (Stub.cfg_for "DDPG") "log") as [s0|e] eqn:Hs0;
    [|vm_compute in Hs0; discriminate].
  exact (stop_before_start Stub.world (Stub.cfg_for "DDPG") "log" s0 Hs0).
Defined.

(** ** The algorithm selection window *)

Section SelectionWindow.
Import SelectMultipleAlgorithmWindow.
Context {Value : Type}.
Implicit Types (self : t Value) (rows : list row) (r : row).

Lemma mark_row_widgets (w : nat) (v : bool) rows :
  map widget (mark_row w v rows) = map widget rows
  /\ map combo (mark_row w v rows) = map combo rows
  /\ map remove_button (mark_row w v rows) = map remove_button rows.
Proof.
  induction rows as [|r rows (IH1 & IH2 & IH3)]; simpl; [auto|].
  destruct (Nat.eqb (widget r) w); simpl; [auto|].
  rewrite IH1, IH2, IH3. auto.
Qed.

Lemma choose_row_widgets (w : nat) (text : string) rows :
  map widget (choose_row w text rows) = map widget rows
  /\ map remove_button (choose_row w text rows) = map remove_button rows.
Proof.
  induction rows as [|r rows (IH1 & IH2)]; simpl; [auto|].
  destruct (Nat.eqb (widget r) w); simpl; [auto|].
  rewrite IH1, IH2. auto.
Qed.

Lemma choose_row_shown (items : list string) (w : nat) (text : string) rows :
  shown items text ->
  Forall (fun r => shown items (combo r)) rows ->
  Forall (fun r => shown items (combo r)) (choose_row w text rows).
Proof.
  intros Ht. induction 1 as [|r rows Hr Hrows IH]; simpl; [constructor|].
  destruct (Nat.eqb (widget r) w); constructor; auto.
Qed.

Lemma remove_row_sublist (w : nat) rows : sublist (remove_row w rows) rows.
Proof.
  induction rows as [|r rows IH]; simpl; [constructor|].
  destruct (Nat.eqb (widget r) w); [apply sublist_cons | apply sublist_skip];
    auto.
Qed.

Lemma remove_row_Forall (P : row -> Prop) (w : nat) rows :
  Forall P rows -> Forall P (remove_row w rows).
Proof.
  induction 1 as [|r rows Hr Hrows IH]; simpl; [constructor|].
  destruct (Nat.eqb (widget r) w); [assumption | constructor; assumption].
Qed.

(** The first two rows cannot be removed. *)
Lemma possible_remove_keeps_head (w : nat) self r0 r1 (rest : list row) :
  selection_rows self = r0 :: r1 :: rest ->
  remove_button r0 = false -> remove_button r1 = false ->
  possible self (Remove w) = true ->
  remove_row w (r0 :: r1 :: rest) = r0 :: r1 :: remove_row w rest.
Proof.
  intros Hrows H0 H1. unfold possible, find_row. rewrite Hrows. simpl.
  destruct (Nat.eqb (widget r0) w); [congruence|].
  destruct (Nat.eqb (widget r1) w); [congruence|]. reflexivity.
Qed.

Lemma map_fields_Forall {B : Type} (f : row -> B) (P : B -> Prop)
    (l l' : list row) :
  map f l' = map f l -> Forall (fun r => P (f r)) l ->
  Forall (fun r => P (f r)) l'.
Proof.
  revert l'. induction l as [|r l IH]; intros [|r' l'] Hmap H;
    try discriminate; [constructor|].
  injection Hmap as Hr Hl. inversion H; subst.
  constructor; [rewrite Hr; assumption | apply IH; assumption].
Qed.

Lemma consistent_init (file : option (yaml Value)) self :
  init file = inl self ->
  consistent self
  /\ load_algorithms file = inl (available_algorithms self).
Proof.
  unfold init. destruct (load_algorithms file) as [available|e];
    [|discriminate].
  intros [= <-]. split; [|reflexivity].
  unfold consistent, add_algorithm_selection; simpl. split; [|split; [|split]].
  - eexists _, _, _. repeat split.
  - simpl. apply NoDup_cons_2; [|apply NoDup_singleton].
    intros H. apply list_elem_of_singleton in H. discriminate.
  - repeat constructor.
  - assert (Hs : shown available (hd "" available)).
    { destruct available; simpl; auto. }
    repeat constructor; exact Hs.
Qed.

Lemma consistent_act self (a : action Value) :
  consistent self ->
  consistent (act self a)
  /\ available_algorithms (act self a) = available_algorithms self.
Proof.
  intros (Hhead & Hnd & Hlt & Hshown).
  unfold act. destruct (possible self a) eqn:Hposs;
    [|split; [repeat split; assumption | reflexivity]].
  destruct Hhead as (r0 & r1 & rest & Hrows & H0 & H1).
  destruct a as [|w|w|w|w text|hp]; simpl.
  - (* Add Algorithm *)
    split; [|reflexivity]. unfold consistent; simpl. rewrite Hrows.
    split; [|split; [|split]].
    + eexists _, _, _. simpl. repeat split; assumption.
    + rewrite <- Hrows, map_app. simpl. apply NoDup_app. split; [assumption|].
      split; [|apply NoDup_singleton].
      intros x Hx Hx'. apply list_elem_of_singleton in Hx'. subst x.
      apply (list_elem_of_fmap (A := row)) in Hx as (r & Hr & Hin).
      rewrite Forall_forall in Hlt. specialize (Hlt r Hin). lia.
    + rewrite <- Hrows. apply Forall_app. split.
      * eapply Forall_impl; [exact Hlt|]. simpl. intros; lia.
      * repeat constructor.
    + rewrite <- Hrows. apply Forall_app. split; [assumption|].
      repeat constructor. simpl.
      destruct (available_algorithms self); simpl; auto.
  - (* Yes *)
    split; [|reflexivity].
    destruct (mark_row_widgets w true (selection_rows self))
      as (Hw & Hc & Hb).
    unfold consistent; simpl. split; [|split; [|split]].
    + rewrite Hrows in Hb |- *. simpl in Hb |- *.
      destruct (Nat.eqb (widget r0) w); simpl;
        [eexists _, _, _; repeat split; assumption|].
      destruct (Nat.eqb (widget r1) w); simpl;
        eexists _, _, _; repeat split; assumption.
    + rewrite Hw. assumption.
    + apply (map_fields_Forall widget (fun n => (n < created self)%nat)
               _ _ Hw Hlt).
    + apply (map_fields_Forall combo (shown (available_algorithms self))
               _ _ Hc Hshown).
  - (* Custom *)
    destruct (find_row w self) as [r|]; [|split;
      [repeat split; try assumption; eexists _, _, _; eauto | reflexivity]].
    split; [|reflexivity].
    destruct (mark_row_widgets w false (selection_rows self))
      as (Hw & Hc & Hb).
    unfold consistent; simpl. split; [|split; [|split]].
    + rewrite Hrows in Hb |- *. simpl in Hb |- *.
      destruct (Nat.eqb (widget r0) w); simpl;
        [eexists _, _, _; repeat split; assumption|].
      destruct (Nat.eqb (widget r1) w); simpl;
        eexists _, _, _; repeat split; assumption.
    + rewrite Hw. assumption.
    + apply (map_fields_Forall widget (fun n => (n < created self)%nat)
               _ _ Hw Hlt).
    + apply (map_fields_Forall combo (shown (available_algorithms self))
               _ _ Hc Hshown).
  - (* Remove *)
    split; [|reflexivity].
    pose proof (remove_row_sublist w (selection_rows self)) as Hsub.
    unfold consistent; simpl. split; [|split; [|split]].
    + rewrite Hrows.
      rewrite (possible_remove_keeps_head w self r0 r1 rest Hrows H0 H1 Hposs).
      eexists _, _, _. repeat split; assumption.
    + eapply sublist_NoDup; [exact Hnd|].
      apply (fmap_sublist widget), Hsub.
    + eapply remove_row_Forall, Hlt.
    + eapply remove_row_Forall, Hshown.
  - (* Pick *)
    split; [|reflexivity].
    destruct (choose_row_widgets w text (selection_rows self)) as (Hw & Hb).
    apply andb_true_iff in Hposs as (_ & Hitem).
    apply existsb_exists in Hitem as (x & Hin & Hx).
    apply String.eqb_eq in Hx. subst x.
    unfold consistent; simpl. split; [|split; [|split]].
    + rewrite Hrows in Hb |- *. simpl in Hb |- *.
      destruct (Nat.eqb (widget r0) w); simpl;
        [eexists _, _, _; repeat split; assumption|].
      destruct (Nat.eqb (widget r1) w); simpl;
        eexists _, _, _; repeat split; assumption.
    + rewrite Hw. assumption.
    + apply (map_fields_Forall widget (fun n => (n < created self)%nat)
               _ _ Hw Hlt).
    + apply choose_row_shown; [|assumption].
      destruct (available_algorithms self); [destruct Hin | exact Hin].
  - (* Submit *)
    destruct (custom_window self) as [[alg w]|]; simpl;
      (split; [|reflexivity]); unfold consistent; simpl;
      (split; [eexists _, _, _; eauto | repeat split; assumption]).
Qed.

Lemma consistent_session (actions : list (action Value)) self :
  consistent self ->
  consistent (session self actions)
  /\ available_algorithms (session self actions) = available_algorithms self.
Proof.
  revert self. induction actions as [|a actions IH]; intros self H; simpl.
  - split; [assumption | reflexivity].
  - destruct (consistent_act self a H) as (H' & Ha).
    destruct (IH _ H') as (H'' & Ha'). split; [assumption | congruence].
Qed.

Lemma names_default_ok (entries : list (entry Value)) (l : list string)
    (n : string) :
  names entries = inl l ->
  exists hp, default_hyperparameters entries n = inl hp.
Proof.
  revert l. induction entries as [|e entries IH]; intros l; simpl.
  - eauto.
  - destruct (name e) as [m|]; [|discriminate].
    destruct (names entries) as [l'|]; [|discriminate]. intros _.
    destruct (String.eqb m n); eauto.
Qed.

(** The entry the loop of [confirm_selection] stops at. *)
Lemma names_first_match (entries : list (entry Value)) (l : list string)
    (n : string) :
  names entries = inl l ->
  default_hyperparameters entries n
  = inl match List.find (fun e => bool_decide (name e = Some n)) entries with
        | Some e => default ∅ (hyperparameters e)
        | None => ∅
        end
  /\ (In n l ->
      is_Some (List.find (fun e => bool_decide (name e = Some n)) entries)).
Proof.
  revert l. induction entries as [|e entries IH]; intros l; simpl.
  - intros [= <-]. split; [reflexivity | intros []].
  - destruct (name e) as [m|] eqn:Hm; [|discriminate].
    destruct (names entries) as [l'|] eqn:Hl'; [|discriminate].
    intros [= <-]. destruct (IH l' eq_refl) as (IH1 & IH2).
    destruct (String.eqb m n) eqn:Hmn.
    + apply String.eqb_eq in Hmn. subst m.
      rewrite bool_decide_eq_true_2 by reflexivity. split; [reflexivity|eauto].
    + apply String.eqb_neq in Hmn.
      rewrite bool_decide_eq_false_2 by congruence.
      split; [exact IH1|]. intros [H|H]; [congruence | auto].
Qed.

Lemma selections_from_total (file : option (yaml Value)) (l : list string)
    (custom : gmap nat (gmap string Value)) (i : nat) rows :
  load_algorithms file = inl l ->
  exists sels,
    selections_from file custom i rows = inl sels
    /\ map Algorithm sels = map combo rows.
Proof.
  intros Hok. revert i. induction rows as [|r rows IH]; intros i; simpl.
  - exists []. auto.
  - destruct (IH (S i)) as (sels & Hs & Hm). rewrite Hs.
    destruct (use_default r).
    + destruct file as [config|]; simpl in Hok.
      * destruct (names_default_ok _ l (combo r) Hok) as (hp & ->).
        eexists. split; [reflexivity|]. simpl. rewrite Hm. reflexivity.
      * eexists. split; [reflexivity|]. simpl. rewrite Hm. reflexivity.
    + eexists. split; [reflexivity|]. simpl. rewrite Hm. reflexivity.
Qed.

Lemma selections_from_lookup (file : option (yaml Value))
    (custom : gmap nat (gmap string Value)) (i k : nat) rows r
    (sels : list (selection Value)) :
  selections_from file custom i rows = inl sels ->
  rows !! k = Some r ->
  exists hp,
    sels !! k = Some (mk_selection (combo r) hp)
    /\ (if use_default r then
          match file with
          | Some config =>
              default_hyperparameters (default [] (algorithms config))
                (combo r) = inl hp
          | None => hp = ∅
          end
        else hp = default ∅ (custom !! (i + k)%nat)).
Proof.
  revert i k sels. induction rows as [|r' rows IH]; intros i k sels;
    [intros _ H; discriminate|].
  simpl.
  destruct (if use_default r' then _ else _) as [hp'|e] eqn:Hhp;
    [|discriminate].
  destruct (selections_from file custom (S i) rows) as [l|e] eqn:Hl;
    [|discriminate].
  intros [= <-]. destruct k as [|k]; simpl.
  - intros [= ->]. exists hp'. split; [reflexivity|].
    destruct (use_default r).
    + destruct file; [exact Hhp | congruence].
    + rewrite Nat.add_0_r. congruence.
  - intros Hk. destruct (IH (S i) k l Hl Hk) as (hp & H1 & H2).
    exists hp. split; [exact H1|].
    replace (i + S k)%nat with (S i + k)%nat by lia. exact H2.
Qed.

Lemma not_widget_of (w : nat) rows :
  w ∉ map widget rows -> Forall (fun r => Nat.eqb (widget r) w = false) rows.
Proof.
  induction rows as [|r rows IH]; simpl; intros H; constructor.
  - apply Nat.eqb_neq. intros <-. apply H. left.
  - apply IH. intros Hin. apply H. right. exact Hin.
Qed.

Lemma widget_lookup rows (k : nat) r :
  rows !! k = Some r -> widget r ∈ map widget rows.
Proof.
  intros H. apply (list_elem_of_fmap_2 widget).
  eapply list_elem_of_lookup_2, H.
Qed.

Lemma save_rows_absent (w : nat) (hp : gmap string Value) (i : nat) rows
    (custom : gmap nat (gmap string Value)) :
  Forall (fun r => Nat.eqb (widget r) w = false) rows ->
  save_rows w hp i rows custom = custom.
Proof.
  intros H. revert i. induction H as [|r rows Hr _ IH]; intros i; simpl;
    [reflexivity|].
  rewrite Hr. apply IH.
Qed.

(** With distinct widgets the callback writes one key: the index the row
    has when the callback runs. *)
Lemma save_rows_insert (hp : gmap string Value) (i k : nat) rows r
    (custom : gmap nat (gmap string Value)) :
  NoDup (map widget rows) -> rows !! k = Some r ->
  save_rows (widget r) hp i rows custom = <[(i + k)%nat := hp]> custom.
Proof.
  revert i k custom. induction rows as [|r' rows IH]; intros i k custom Hnd;
    [intros H; discriminate|].
  simpl in Hnd. apply NoDup_cons in Hnd as (Hnot & Hnd).
  destruct k as [|k]; simpl.
  - intros [= ->]. rewrite Nat.eqb_refl, Nat.add_0_r.
    apply save_rows_absent, not_widget_of, Hnot.
  - intros Hk. destruct (Nat.eqb (widget r') (widget r)) eqn:Heq.
    + apply Nat.eqb_eq in Heq. exfalso. apply Hnot. rewrite Heq.
      eapply widget_lookup, Hk.
    + rewrite (IH (S i) k custom Hnd Hk). f_equal. lia.
Qed.

Lemma mark_row_insert (v : bool) (k : nat) rows r :
  NoDup (map widget rows) -> rows !! k = Some r ->
  mark_row (widget r) v rows
  = <[k := mk_row (widget r) (combo r) v (remove_button r)]> rows.
Proof.
  revert k. induction rows as [|r' rows IH]; intros k Hnd;
    [intros H; discriminate|].
  simpl in Hnd. apply NoDup_cons in Hnd as (Hnot & Hnd).
  destruct k as [|k]; simpl.
  - intros [= ->]. rewrite Nat.eqb_refl. reflexivity.
  - intros Hk. destruct (Nat.eqb (widget r') (widget r)) eqn:Heq.
    + apply Nat.eqb_eq in Heq. exfalso. apply Hnot. rewrite Heq.
      eapply widget_lookup, Hk.
    + rewrite (IH k Hnd Hk). reflexivity.
Qed.

Lemma remove_row_delete (j : nat) rows r :
  NoDup (map widget rows) -> rows !! j = Some r ->
  remove_row (widget r) rows = delete j rows.
Proof.
  revert j. induction rows as [|r' rows IH]; intros j Hnd;
    [intros H; discriminate|].
  simpl in Hnd. apply NoDup_cons in Hnd as (Hnot & Hnd).
  destruct j as [|j]; simpl.
  - intros [= ->]. rewrite Nat.eqb_refl. reflexivity.
  - intros Hj. destruct (Nat.eqb (widget r') (widget r)) eqn:Heq.
    + apply Nat.eqb_eq in Heq. exfalso. apply Hnot. rewrite Heq.
      eapply widget_lookup, Hj.
    + rewrite (IH j Hnd Hj). reflexivity.
Qed.

Lemma find_row_lookup self (k : nat) r :
  NoDup (map widget (selection_rows self)) ->
  selection_rows self !! k = Some r ->
  find_row (widget r) self = Some r.
Proof.
  unfold find_row. generalize (selection_rows self) as rows. intros rows.
  revert k. induction rows as [|r' rows IH]; intros k Hnd;
    [intros H; discriminate|].
  simpl in Hnd. apply NoDup_cons in Hnd as (Hnot & Hnd).
  destruct k as [|k]; simpl.
  - intros [= ->]. rewrite Nat.eqb_refl. reflexivity.
  - intros Hk. destruct (Nat.eqb (widget r') (widget r)) eqn:Heq.
    + apply Nat.eqb_eq in Heq. exfalso. apply Hnot. rewrite Heq.
      eapply widget_lookup, Hk.
    + apply (IH k Hnd Hk).
Qed.

Lemma confirm_selection_confirmed (file : option (yaml Value)) self
    (sels : list (selection Value)) :
  selections_from file (custom_hyperparams self) 0 (selection_rows self)
  = inl sels ->
  map Algorithm sels = map combo (selection_rows self) ->
  (2 <= length (selection_rows self))%nat ->
  confirm_selection file self = Confirmed sels.
Proof.
  intros Hs Hm Hlen. unfold confirm_selection. rewrite Hs.
  destruct sels; [|reflexivity].
  apply (f_equal (@length _)) in Hm. rewrite !length_map in Hm.
  simpl in Hm. lia.
Qed.

Lemma consistent_length self :
  consistent self -> (2 <= length (selection_rows self))%nat.
Proof.
  intros ((r0 & r1 & rest & -> & _) & _). simpl. lia.
Qed.

(** The custom window submitted for the row at index [k]. *)
Lemma custom_submitted self (k : nat) r (hp : gmap string Value) :
  consistent self -> selection_rows self !! k = Some r ->
  let self' := session self [Custom (widget r); Submit hp] in
  selection_rows self'
  = <[k := mk_row (widget r) (combo r) false (remove_button r)]>
      (selection_rows self)
  /\ custom_hyperparams self' = <[k := hp]> (custom_hyperparams self)
  /\ map widget (selection_rows self') = map widget (selection_rows self).
Proof.
  intros Hc Hk. pose proof Hc as (_ & Hnd & _).
  pose proof (find_row_lookup self k r Hnd Hk) as Hfind.
  assert (H1 : act self (Custom (widget r))
               = open_custom_hyperparams (combo r) (widget r) self).
  { unfold act. simpl. rewrite Hfind.
    rewrite bool_decide_eq_true_2 by eauto. reflexivity. }
  cbv zeta. unfold session. simpl. rewrite H1. unfold act. simpl.
  unfold save_custom_params, open_custom_hyperparams. simpl.
  rewrite (mark_row_insert false k _ r Hnd Hk).
  assert (Hk' : <[k := mk_row (widget r) (combo r) false (remove_button r)]>
                  (selection_rows self) !! k
                = Some (mk_row (widget r) (combo r) false (remove_button r))).
  { apply list_lookup_insert_eq. eapply lookup_lt_Some, Hk. }
  assert (Hw : map widget
                 (<[k := mk_row (widget r) (combo r) false (remove_button r)]>
                    (selection_rows self))
               = map widget (selection_rows self)).
  { rewrite <- (mark_row_insert false k _ r Hnd Hk).
    apply mark_row_widgets. }
  split; [reflexivity|]. split; [|exact Hw].
  assert (Hnd' : NoDup (map widget
                   (<[k := mk_row (widget r) (combo r) false
                             (remove_button r)]> (selection_rows self))))
    by (rewrite Hw; exact Hnd).
  apply (save_rows_insert hp 0 k _ _ (custom_hyperparams self) Hnd' Hk').
Qed.

Lemma selections_from_names (file : option (yaml Value))
    (custom : gmap nat (gmap string Value)) (i : nat) rows
    (sels : list (selection Value)) :
  selections_from file custom i rows = inl sels ->
  map Algorithm sels = map combo rows.
Proof.
  revert i sels. induction rows as [|r rows IH]; intros i sels; simpl.
  - intros [= <-]. reflexivity.
  - destruct (if use_default r then _ else _) as [hp|e]; [|discriminate].
    destruct (selections_from file custom (S i) rows) as [l|e] eqn:Hl;
      [|discriminate].
    intros [= <-]. simpl. rewrite (IH _ _ Hl). reflexivity.
Qed.

(** The window after a session, on the file it was built from. *)
Lemma session_confirms (file : option (yaml Value)) self0
    (actions : list (action Value)) :
  init file = inl self0 ->
  let self := session self0 actions in
  consistent self
  /\ available_algorithms self = available_algorithms self0
  /\ load_algorithms file = inl (available_algorithms self0)
  /\ exists sels,
       selections_from file (custom_hyperparams self) 0 (selection_rows self)
       = inl sels
       /\ confirm_selection file self = Confirmed sels
       /\ map Algorithm sels = map combo (selection_rows self).
Proof.
  intros Hinit. destruct (consistent_init file self0 Hinit) as (Hc0 & Hload).
  destruct (consistent_session actions self0 Hc0) as (Hc & Hav).
  cbv zeta. split; [assumption|]. split; [assumption|].
  split; [assumption|].
  destruct (selections_from_total file _
              (custom_hyperparams (session self0 actions)) 0
              (selection_rows (session self0 actions)) Hload)
    as (sels & Hs & Hm).
  exists sels. split; [assumption|]. split; [|assumption].
  apply confirm_selection_confirmed; auto using consistent_length.
Qed.

(** X22. "Next" always goes on.  Whatever the user did with the window, it
    shows at least two rows, so the "Selection Required" warning cannot
    come up on any file content; on the file the window was built from,
    "Next" stores one selection per row, each under the name its combo
    box shows, which is an algorithm of the file (or the empty text, if
    the file lists none). *)
Theorem selection_always_confirms (file : option (yaml Value)) self0
    (actions : list (action Value)) :
  init file = inl self0 ->
  let self := session self0 actions in
  (2 <= length (selection_rows self))%nat
  /\ (forall file', confirm_selection file' self <> Warned)
  /\ exists sels,
       confirm_selection file self = Confirmed sels
       /\ map Algorithm sels = map combo (selection_rows self)
       /\ Forall (fun sel => shown (available_algorithms self0)
                               (Algorithm sel)) sels.
Proof.
  intros Hinit.
  destruct (session_confirms file self0 actions Hinit)
    as (Hc & Hav & _ & sels & _ & Hconf & Hm).
  cbv zeta. pose proof (consistent_length _ Hc) as Hlen.
  split; [exact Hlen|]. split.
  - intros file'. unfold confirm_selection.
    destruct (selections_from file' _ 0 _) as [[|sel l]|e] eqn:Hs;
      try discriminate.
    apply selections_from_names in Hs.
    apply (f_equal (@length _)) in Hs. simpl in Hs.
    rewrite length_map in Hs. lia.
  - exists sels. split; [assumption|]. split; [assumption|].
    destruct Hc as (_ & _ & _ & Hshown). rewrite Hav in Hshown.
    apply (map_fields_Forall combo (shown (available_algorithms self0)))
      with (l' := map (fun sel => mk_row 0 (Algorithm sel) true false) sels)
      in Hshown.
    + clear -Hshown. induction sels; simpl in *; inversion Hshown;
        constructor; auto.
    + rewrite <- Hm, map_map. reflexivity.
Qed.

(** X23. A missing algorithm file.  When [config/config_algorithm.yaml] does
    not exist the window opens all the same, with empty combo boxes,
    and "Next" goes on with at least two selections, every one under
    the empty name. *)
Theorem missing_algorithm_file (actions : list (action Value)) :
  exists (self0 : t Value) (sels : list (selection Value)),
    init None = inl self0
    /\ confirm_selection None (session self0 actions) = Confirmed sels
    /\ (2 <= length sels)%nat
    /\ Forall (fun sel => Algorithm sel = "") sels.
Proof.
  destruct (session_confirms None _ actions eq_refl)
    as (Hc & Hav & _ & sels & _ & Hconf & Hm).
  eexists _, sels. split; [reflexivity|]. split; [exact Hconf|].
  pose proof (consistent_length _ Hc) as Hlen. split.
  - apply (f_equal (@length _)) in Hm. rewrite !length_map in Hm. lia.
  - destruct Hc as (_ & _ & _ & Hshown). rewrite Hav in Hshown.
    simpl in Hshown.
    apply (map_fields_Forall combo (fun text => text = ""))
      with (l' := map (fun sel => mk_row 0 (Algorithm sel) true false) sels)
      in Hshown.
    + clear -Hshown. induction sels; simpl in *; inversion Hshown;
        constructor; auto.
    + rewrite <- Hm, map_map. reflexivity.
Qed.

(** X24. Default hyperparameters.  A row left on "Yes" is confirmed with the
    ["hyperparameters"] of the first entry of the file that has the name
    its combo box shows, and with [{}] if that entry has none; such an
    entry exists unless the file lists no algorithm. *)
Theorem default_row_hyperparameters (config : yaml Value) self0
    (actions : list (action Value)) (k : nat) r :
  init (Some config) = inl self0 ->
  selection_rows (session self0 actions) !! k = Some r ->
  use_default r = true ->
  let found :=
    List.find (fun e => bool_decide (name e = Some (combo r)))
      (default [] (algorithms config)) in
  exists sels,
    confirm_selection (Some config) (session self0 actions) = Confirmed sels
    /\ sels !! k
       = Some (mk_selection (combo r)
                 match found with
                 | Some e => default ∅ (hyperparameters e)
                 | None => ∅
                 end)
    /\ (default [] (algorithms config) <> [] -> is_Some found).
Proof.
  intros Hinit Hk Hdef.
  destruct (session_confirms _ self0 actions Hinit)
    as (Hc & Hav & Hload & sels & Hs & Hconf & Hm).
  cbv zeta. exists sels. split; [assumption|].
  destruct (selections_from_lookup _ _ 0 k _ r sels Hs Hk) as (hp & Hl & Hhp).
  rewrite Hdef in Hhp. simpl in Hload.
  destruct (names_first_match _ _ (combo r) Hload) as (Hfirst & Hfound).
  rewrite Hfirst in Hhp. injection Hhp as <-. split; [exact Hl|].
  intros Hne. apply Hfound.
  destruct Hc as (_ & _ & _ & Hshown). rewrite Hav in Hshown.
  rewrite Forall_lookup in Hshown. specialize (Hshown k r Hk).
  destruct (available_algorithms self0); [|exact Hshown].
  destruct (default [] (algorithms config)) as [|e l]; [congruence|].
  simpl in Hload. destruct (name e); [|discriminate].
  destruct (names l); discriminate.
Qed.

(** X25. Custom hyperparameters, submitted and confirmed.  When the user
    presses "Custom" in a row and submits the hyperparameter window,
    "Next" stores that row with the submitted values, under the name its
    combo box shows. *)
Theorem custom_params_round_trip (file : option (yaml Value)) self0
    (actions : list (action Value)) (k : nat) r (hp : gmap string Value) :
  init file = inl self0 ->
  selection_rows (session self0 actions) !! k = Some r ->
  exists sels,
    confirm_selection file
      (session self0 (actions ++ [Custom (widget r); Submit hp]))
    = Confirmed sels
    /\ sels !! k = Some (mk_selection (combo r) hp).
Proof.
  intros Hinit Hk.
  destruct (session_confirms _ self0 actions Hinit) as (Hc & _).
  destruct (session_confirms _ self0
              (actions ++ [Custom (widget r); Submit hp]) Hinit)
    as (_ & _ & _ & sels & Hs & Hconf & _).
  exists sels. split; [assumption|].
  unfold session in Hs. rewrite fold_left_app in Hs.
  destruct (custom_submitted _ k r hp Hc Hk) as (Hrows & Hcustom & _).
  unfold session in Hrows, Hcustom.
  assert (Hk' : selection_rows
                  (fold_left act [Custom (widget r); Submit hp]
                     (fold_left act actions self0)) !! k
                = Some (mk_row (widget r) (combo r) false (remove_button r))).
  { rewrite Hrows. apply list_lookup_insert_eq. eapply lookup_lt_Some, Hk. }
  destruct (selections_from_lookup _ _ 0 k _ _ sels Hs Hk') as (hp' & Hl & Hhp).
  cbn [use_default combo Nat.add] in Hl, Hhp. rewrite Hcustom in Hhp.
  rewrite lookup_insert_eq in Hhp. rewrite Hl, Hhp. reflexivity.
Qed.

(** X26. Custom hyperparameters follow the index, not the row.  The values
    submitted for a row are filed under the index the row has at that
    moment.  When a row above it is then removed, "Next" stores the row
    with whatever was filed under its new index before, and not with
    the values submitted for it; these are handed to the row that took
    its place, if that row is on "Custom". *)
Theorem custom_params_index_shift (file : option (yaml Value)) self0
    (actions : list (action Value)) (j k : nat) r r'
    (hp : gmap string Value) :
  init file = inl self0 ->
  let self := session self0 actions in
  selection_rows self !! k = Some r ->
  selection_rows self !! j = Some r' ->
  remove_button r' = true -> (j < k)%nat ->
  exists sels,
    confirm_selection file
      (session self [Custom (widget r); Submit hp; Remove (widget r')])
    = Confirmed sels
    /\ sels !! (k - 1)%nat
       = Some (mk_selection (combo r)
                 (default ∅ (custom_hyperparams self !! (k - 1)%nat)))
    /\ (forall r'',
          selection_rows self !! S k = Some r'' -> use_default r'' = false ->
          sels !! k = Some (mk_selection (combo r'') hp)).
Proof.
  intros Hinit self Hk Hj Hbutton Hjk.
  destruct (session_confirms _ self0 actions Hinit) as (Hc & _).
  fold self in Hc.
  destruct (session_confirms _ self0
              (actions ++ [Custom (widget r); Submit hp; Remove (widget r')])
              Hinit)
    as (_ & _ & _ & sels & Hs & Hconf & _).
  unfold session in Hs, Hconf. rewrite fold_left_app in Hs, Hconf.
  fold (session self0 actions) in Hs, Hconf. fold self in Hs, Hconf.
  exists sels. split; [exact Hconf|].
  destruct (custom_submitted self k r hp Hc Hk) as (Hrows & Hcustom & Hw).
  cbv zeta in Hrows, Hcustom, Hw.
  set (self1 := session self [Custom (widget r); Submit hp]) in *.
  assert (Hsplit : fold_left act
                     [Custom (widget r); Submit hp; Remove (widget r')] self
                   = act self1 (Remove (widget r'))) by reflexivity.
  rewrite Hsplit in Hs. clear Hsplit Hconf.
  pose proof Hc as (_ & Hnd & _).
  assert (Hnd1 : NoDup (map widget (selection_rows self1)))
    by (rewrite Hw; exact Hnd).
  assert (Hj1 : selection_rows self1 !! j = Some r').
  { rewrite Hrows, list_lookup_insert_ne by lia. exact Hj. }
  assert (Hact : act self1 (Remove (widget r'))
                 = remove_algorithm_selection (widget r') self1).
  { unfold act. simpl. rewrite (find_row_lookup self1 j r' Hnd1 Hj1).
    rewrite Hbutton. reflexivity. }
  rewrite Hact in Hs. unfold remove_algorithm_selection in Hs. simpl in Hs.
  rewrite (remove_row_delete j _ r' Hnd1 Hj1) in Hs.
  assert (Hlen : (k < length (selection_rows self))%nat)
    by (eapply lookup_lt_Some, Hk).
  split.
  - assert (Hk1 : delete j (selection_rows self1) !! (k - 1)%nat
                  = Some (mk_row (widget r) (combo r) false
                            (remove_button r))).
    { rewrite list_lookup_delete_ge by lia.
      replace (S (k - 1)) with k by lia.
      rewrite Hrows. apply list_lookup_insert_eq. exact Hlen. }
    destruct (selections_from_lookup _ _ 0 _ _ _ sels Hs Hk1)
      as (hp' & Hl & Hhp).
    cbn [use_default combo Nat.add] in Hl, Hhp. rewrite Hcustom in Hhp.
    rewrite lookup_insert_ne in Hhp by lia. rewrite Hl, Hhp. reflexivity.
  - intros r'' Hk'' Hcust.
    assert (Hk1 : delete j (selection_rows self1) !! k = Some r'').
    { rewrite list_lookup_delete_ge by lia.
      rewrite Hrows, list_lookup_insert_ne by lia. exact Hk''. }
    destruct (selections_from_lookup _ _ 0 _ _ _ sels Hs Hk1)
      as (hp' & Hl & Hhp).
    rewrite Hcust in Hhp. cbn [Nat.add] in Hhp. rewrite Hcustom in Hhp.
    rewrite lookup_insert_eq in Hhp. rewrite Hl, Hhp. reflexivity.
Qed.

End SelectionWindow.

Section SelectionRuns.
Import SelectMultipleAlgorithmWindow.

(** On the two-entry file: a third row is added and removed again, and
    an attempt to remove the first row does nothing. *)
Lemma selection_always_confirms_witness :
  exists self0 : t Q,
    init StubFiles.algorithm_file = inl self0
    /\ (2 <= length (selection_rows
                       (session self0 [AddAlgorithm; Remove 2; Remove 0])))%nat
    /\ confirm_selection None
         (session self0 [AddAlgorithm; Remove 2; Remove 0]) <> Warned.
Proof.
  eexists. split; [reflexivity|].
  pose proof (selection_always_confirms StubFiles.algorithm_file _
                [AddAlgorithm; Remove 2; Remove 0] eq_refl) as (H1 & H2 & _).
  split; [exact H1 | exact (H2 None)].
Defined.

(** On the two-entry file the second row is switched to "DQN", an entry
    without hyperparameters: it is confirmed with the empty dictionary. *)
Lemma default_row_hyperparameters_witness :
  exists sels,
    confirm_selection StubFiles.algorithm_file
      (session
         (add_algorithm_selection
            (add_algorithm_selection
               (mk_window [] ∅ ["DDPG"; "DQN"] None 0)))
         [Pick 1 "DQN"])
    = Confirmed sels
    /\ sels !! 1%nat = Some (mk_selection "DQN" (∅ : gmap string Q)).
Proof.
  destruct (default_row_hyperparameters
              (mk_yaml
                 (Some [mk_entry (Some "DDPG")
                          (Some {[ "gamma" := (99 # 100)%Q ]});
                        mk_entry (Some "DQN") None]))
              _ [Pick 1 "DQN"] 1 (mk_row 1 "DQN" true false)
              eq_refl eq_refl eq_refl) as (sels & H1 & H2 & _).
  exists sels. split; [exact H1 | exact H2].
Defined.

(** The values entered for the second row come back from "Next". *)
Lemma custom_params_round_trip_witness :
  exists sels,
    confirm_selection StubFiles.algorithm_file
      (session
         (add_algorithm_selection
            (add_algorithm_selection
               (mk_window [] ∅ ["DDPG"; "DQN"] None 0)))
         ([] ++ [Custom 1; Submit StubFiles.entered]))
    = Confirmed sels
    /\ sels !! 1%nat = Some (mk_selection "DDPG" StubFiles.entered).
Proof.
  exact (custom_params_round_trip StubFiles.algorithm_file _ [] 1
           (mk_row 1 "DDPG" true false) StubFiles.entered eq_refl eq_refl).
Defined.

(** Four rows; values are entered for the fourth and the third is
    removed: the fourth row, now third, is confirmed with the empty
    dictionary. *)
Lemma custom_params_index_shift_witness :
  exists sels,
    confirm_selection StubFiles.algorithm_file
      (session
         (session
            (add_algorithm_selection
               (add_algorithm_selection
                  (mk_window [] ∅ ["DDPG"; "DQN"] None 0)))
            [AddAlgorithm; AddAlgorithm])
         [Custom 3; Submit StubFiles.entered; Remove 2])
    = Confirmed sels
    /\ sels !! 2%nat = Some (mk_selection "DDPG" (∅ : gmap string Q)).
Proof.
  destruct (custom_params_index_shift StubFiles.algorithm_file _
              [AddAlgorithm; AddAlgorithm] 2 3
              (mk_row 3 "DDPG" true true) (mk_row 2 "DDPG" true true)
              StubFiles.entered eq_refl eq_refl eq_refl eq_refl)
    as (sels & H1 & H2 & _); [lia|].
  exists sels. split; [exact H1 | exact H2].
Defined.

End SelectionRuns.

(** ** The environment selection window *)

(** X27. The environment list after a multiple selection.  For the list the
    algorithm selection window stores under ["Algorithms"], the
    environment window offers the platform's ["environments"], and never
    its ["discrete_environments"], whatever algorithms the list names;
    the discrete list is offered for the plain string ["DQN"], and for
    no other string.  When the file, the platform or the key is missing
    the window opens with an empty combo box, and "Next" stores the
    empty text as the environment. *)
Theorem environment_list_by_selection (Value : Type)
    (file : option SelectEnvironmentWindow.yaml)
    (v : SelectEnvironmentWindow.algorithms_value Value)
    (platform : string) (previous : option string) :
  let entry :=
    match file with
    | Some config =>
        match SelectEnvironmentWindow.platforms config with
        | Some platforms => platforms !! platform
        | None => None
        end
    | None => None
    end in
  let general :=
    match entry with
    | Some e => default [] (SelectEnvironmentWindow.environments e)
    | None => []
    end in
  let discrete :=
    match entry with
    | Some e => default [] (SelectEnvironmentWindow.discrete_environments e)
    | None => []
    end in
  exists self,
    SelectEnvironmentWindow.init file
      (SelectEnvironmentWindow.mk_selections (Some v) (Some platform)
         previous) = inl self
    /\ (v = SelectEnvironmentWindow.Str "DQN" ->
        SelectEnvironmentWindow.env_combo_items self = discrete)
    /\ (v <> SelectEnvironmentWindow.Str "DQN" ->
        SelectEnvironmentWindow.env_combo_items self = general)
    /\ (forall sels, v = SelectEnvironmentWindow.Selections sels ->
        SelectEnvironmentWindow.env_combo_items self = general)
    /\ (SelectEnvironmentWindow.env_combo_items self = [] ->
        SelectEnvironmentWindow.selected_environment_key
          (SelectEnvironmentWindow.confirm_selection self) = Some "").
Proof.
  cbv zeta. unfold SelectEnvironmentWindow.init. simpl. eexists.
  split; [reflexivity|]. simpl.
  assert (Hload : SelectEnvironmentWindow.load_environments file v platform
                  = match
                      match file with
                      | Some config =>
                          match SelectEnvironmentWindow.platforms config with
                          | Some platforms => platforms !! platform
                          | None => None
                          end
                      | None => None
                      end
                    with
                    | Some e =>
                        default []
                          (if SelectEnvironmentWindow.is_dqn v
                           then SelectEnvironmentWindow.discrete_environments e
                           else SelectEnvironmentWindow.environments e)
                    | None => []
                    end).
  { unfold SelectEnvironmentWindow.load_environments.
    destruct file as [[[platforms|]]|]; simpl; [|  |reflexivity].
    - destruct (platforms !! platform); simpl;
        destruct (SelectEnvironmentWindow.is_dqn v); reflexivity.
    - rewrite lookup_empty. simpl.
      destruct (SelectEnvironmentWindow.is_dqn v); reflexivity. }
  assert (Hother : v <> SelectEnvironmentWindow.Str "DQN" ->
                   SelectEnvironmentWindow.is_dqn v = false).
  { destruct v as [s|l]; simpl; [|reflexivity].
    intros Hs. apply String.eqb_neq. congruence. }
  rewrite Hload. split; [|split; [|split]].
  - intros ->. simpl. destruct (match file with Some _ => _ | None => _ end);
      reflexivity.
  - intros Hv. rewrite (Hother Hv).
    destruct (match file with Some _ => _ | None => _ end); reflexivity.
  - intros sels ->. simpl.
    destruct (match file with Some _ => _ | None => _ end); reflexivity.
  - intros ->. reflexivity.
Qed.
